(** * TravelTracker: a shallow embedding of the data model, the validation
    utilities, the storage layer and the analytics summaries, with the
    properties of each established against that embedding.

    Conventions of the embedding.

    - A Python [str] is a [string], one [ascii] per character: the texts
      covered are those whose characters are code points below 256.  There
      [\d] is the ten ASCII digits and the blanks [strip] removes are the
      twelve characters of [Str.isspace].  Text constants of the source
      (messages, the values of the enumerations) are kept as their UTF-8
      bytes; they are only compared, for equality and for order.
    - A Python [float] that holds a monetary amount is an exact rational [Q]:
      sums and comparisons are those of the exact values, rounding is not
      modelled.
    - A Python [int] is a [Z].
    - A raised exception is the [Raise] case of [result].
    - The SQLite file is a value of type [Sql.database], threaded through
      every method of [TravelStorage].
    - [date.today()] is an argument of the function that calls it. *)

From Stdlib Require Import ZArith QArith List String Ascii Bool Lia.
From Stdlib Require Import Permutation Sorted.
Import ListNotations.

Open Scope string_scope.
Open Scope Z_scope.

(** ** Exceptions and results *)

Inductive exn : Type :=
| ValueError (msg : string).

Inductive result (A : Type) : Type :=
| Ok (a : A)
| Raise (e : exn).

Arguments Ok {A} a.
Arguments Raise {A} e.

Definition bind {A B : Type} (m : result A) (k : A -> result B) : result B :=
  match m with
  | Ok a => k a
  | Raise e => Raise e
  end.

Notation "x <- m ;; k" := (bind m (fun x => k))
  (at level 61, m at next level, right associativity).

Definition is_ok {A : Type} (m : result A) : bool :=
  match m with Ok _ => true | Raise _ => false end.

(** [[f(x) for x in xs]] where [f] may raise: the first failure aborts. *)
Fixpoint mapM {A B : Type} (f : A -> result B) (xs : list A) : result (list B) :=
  match xs with
  | [] => Ok []
  | x :: xs' => y <- f x ;; ys <- mapM f xs' ;; Ok (y :: ys)
  end.

(** ** The string methods the code calls *)

Module Str.

(** [str.isspace] on one character, for code points below 256:
    TAB..CR, FS..US, SPACE, NEL and NBSP. *)
Definition isspace (c : ascii) : bool :=
  let n := nat_of_ascii c in
  ((9 <=? n) && (n <=? 13) || (28 <=? n) && (n <=? 32) || (n =? 133) || (n =? 160))%nat.

(** [\d] and [str.isdigit] below code point 256: the ten ASCII digits. *)
Definition isdigit (c : ascii) : bool :=
  let n := nat_of_ascii c in
  ((48 <=? n) && (n <=? 57))%nat.

Definition digit_value (c : ascii) : Z := Z.of_nat (nat_of_ascii c) - 48.

Fixpoint lstrip (s : string) : string :=
  match s with
  | EmptyString => EmptyString
  | String c s' => if isspace c then lstrip s' else s
  end.

Fixpoint rstrip (s : string) : string :=
  match s with
  | EmptyString => EmptyString
  | String c s' =>
      match rstrip s' with
      | EmptyString => if isspace c then EmptyString else String c EmptyString
      | r => String c r
      end
  end.

(** [s.strip()] *)
Definition strip (s : string) : string := lstrip (rstrip s).

(** [s.replace(old, new)] for a one-character [old]. *)
Fixpoint replace (old : ascii) (new : string) (s : string) : string :=
  match s with
  | EmptyString => EmptyString
  | String c s' =>
      if Ascii.eqb c old then new ++ replace old new s'
      else String c (replace old new s')
  end.

(** [len(s)] *)
Definition len (s : string) : Z := Z.of_nat (String.length s).

(** [s[:stop]]: a negative [stop] counts from the end, and the bound is
    clamped to the string. *)
Definition slice_to (s : string) (stop : Z) : string :=
  let stop' := if stop <? 0 then Z.max (len s + stop) 0 else Z.min stop (len s) in
  substring 0 (Z.to_nat stop') s.

(** [c in s] *)
Fixpoint contains (c : ascii) (s : string) : bool :=
  match s with
  | EmptyString => false
  | String c' s' => Ascii.eqb c' c || contains c s'
  end.

Fixpoint all (p : ascii -> bool) (s : string) : bool :=
  match s with
  | EmptyString => true
  | String c s' => p c && all p s'
  end.

(** [int(s)] on a string of digits, most significant first. *)
Fixpoint int_of_digits_acc (acc : Z) (s : string) : Z :=
  match s with
  | EmptyString => acc
  | String c s' => int_of_digits_acc (10 * acc + digit_value c) s'
  end.

Definition int_of_digits (s : string) : Z := int_of_digits_acc 0 s.

End Str.

(** ** [datetime.date] *)

Module datetime.

Record date : Type := mkdate { year : Z; month : Z; day : Z }.

Definition MINYEAR : Z := 1.
Definition MAXYEAR : Z := 9999.

Definition is_leap (y : Z) : bool :=
  (y mod 4 =? 0) && (negb (y mod 100 =? 0) || (y mod 400 =? 0)).

Definition DAYS_IN_MONTH : list Z :=
  [-1; 31; 28; 31; 30; 31; 30; 31; 31; 30; 31; 30; 31].

Definition DAYS_BEFORE_MONTH : list Z :=
  [-1; 0; 31; 59; 90; 120; 151; 181; 212; 243; 273; 304; 334].

Definition days_in_month (y m : Z) : Z :=
  if (m =? 2) && is_leap y then 29 else nth (Z.to_nat m) DAYS_IN_MONTH (-1).

Definition days_before_year (y : Z) : Z :=
  let y' := y - 1 in y' * 365 + y' / 4 - y' / 100 + y' / 400.

Definition days_before_month (y m : Z) : Z :=
  nth (Z.to_nat m) DAYS_BEFORE_MONTH (-1) + (if (2 <? m) && is_leap y then 1 else 0).

Definition ymd2ord (y m d : Z) : Z :=
  days_before_year y + days_before_month y m + d.

(** The range checks of the [date] constructor. *)
Definition check_date_fields (y m d : Z) : bool :=
  (MINYEAR <=? y) && (y <=? MAXYEAR) && (1 <=? m) && (m <=? 12) &&
  (1 <=? d) && (d <=? days_in_month y m).

(** [date(year, month, day)] *)
Definition new (y m d : Z) : result date :=
  if check_date_fields y m d then Ok (mkdate y m d)
  else Raise (ValueError "date value out of range").

Definition valid (x : date) : Prop :=
  check_date_fields (year x) (month x) (day x) = true.

Definition toordinal (x : date) : Z := ymd2ord (year x) (month x) (day x).

(** Dates compare as the triples (year, month, day). *)
Definition cmp (x y : date) : comparison :=
  match year x ?= year y with
  | Eq => match month x ?= month y with
          | Eq => day x ?= day y
          | c => c
          end
  | c => c
  end.

Definition ltb (x y : date) : bool :=
  match cmp x y with Lt => true | _ => false end.

Definition gtb (x y : date) : bool :=
  match cmp x y with Gt => true | _ => false end.

(** [timedelta], of which the code reads [days] only. *)
Record timedelta : Type := mktimedelta { days : Z }.

(** [x - y] on dates *)
Definition sub (x y : date) : timedelta :=
  mktimedelta (toordinal x - toordinal y).

End datetime.

(** ** [datetime.strptime(text, '%Y-%m-%d').date()]

    [_strptime] turns the format into the regular expression

      (?P<Y>\d\d\d\d)-(?P<m>1[0-2]|0[1-9]|[1-9])-(?P<d>3[0-1]|[1-2]\d|0[1-9]|[1-9]| [1-9])

    matches it at the start of the text, refuses text left over after the
    match, and builds the date from the three groups.  The expression is a
    sequence of groups; a group is a list of alternatives tried from left to
    right; an alternative is a sequence of character classes. *)

Module Strptime.

Definition char_class : Type := ascii -> bool.
Definition alternative : Type := list char_class.
Definition group : Type := list alternative.

Definition chr (c : ascii) : char_class := fun x => Ascii.eqb x c.

Definition range (lo hi : ascii) : char_class :=
  fun x => ((nat_of_ascii lo <=? nat_of_ascii x) && (nat_of_ascii x <=? nat_of_ascii hi))%nat.

Definition group_Y : group := [[Str.isdigit; Str.isdigit; Str.isdigit; Str.isdigit]].

Definition group_m : group :=
  [[chr "1"; range "0" "2"]; [chr "0"; range "1" "9"]; [range "1" "9"]].

Definition group_d : group :=
  [[chr "3"; range "0" "1"]; [range "1" "2"; Str.isdigit]; [chr "0"; range "1" "9"];
   [range "1" "9"]; [chr " "; range "1" "9"]].

Definition dash : group := [[chr "-"]].

Definition format_regex : list group := [group_Y; dash; group_m; dash; group_d].

(** One alternative against the head of the text: the text it matched and
    the text left. *)
Fixpoint match_alternative (a : alternative) (s : string) : option (string * string) :=
  match a with
  | [] => Some (EmptyString, s)
  | p :: a' =>
      match s with
      | EmptyString => None
      | String c s' =>
          if p c then
            match match_alternative a' s' with
            | Some (m, rest) => Some (String c m, rest)
            | None => None
            end
          else None
      end
  end.

(** The ways a group matches, in the order a backtracking matcher tries them. *)
Definition match_group (g : group) (s : string) : list (string * string) :=
  flat_map (fun a => match match_alternative a s with
                     | Some r => [r]
                     | None => []
                     end) g.

(** The ways the whole sequence matches, first hit first. *)
Fixpoint match_groups (gs : list group) (s : string) : list (list string * string) :=
  match gs with
  | [] => [([], s)]
  | g :: gs' =>
      flat_map (fun '(m, rest) =>
                  map (fun '(ms, rest') => (m :: ms, rest')) (match_groups gs' rest))
               (match_group g s)
  end.

(** [int(text)] on a matched group: blanks around the digits are dropped. *)
Definition int (s : string) : Z := Str.int_of_digits (Str.strip s).

Definition strptime_Ymd (data_string : string) : result datetime.date :=
  match match_groups format_regex data_string with
  | [] => Raise (ValueError "time data does not match format")
  | (found, rest) :: _ =>
      if negb (String.eqb rest EmptyString)
      then Raise (ValueError "unconverted data remains")
      else match found with
           | [Y; _; m; _; d] => datetime.new (int Y) (int m) (int d)
           | _ => Raise (ValueError "time data does not match format")
           end
  end.

End Strptime.

(** ** models.py *)

Module ExpenseCategory.

Inductive t : Type :=
| TRANSPORT | ACCOMMODATION | FOOD | ENTERTAINMENT | SHOPPING | SIGHTSEEING | OTHER.

Definition value (c : t) : string :=
  match c with
  | TRANSPORT => "Транспорт"
  | ACCOMMODATION => "Жильё"
  | FOOD => "Еда"
  | ENTERTAINMENT => "Развлечения"
  | SHOPPING => "Шоппинг"
  | SIGHTSEEING => "Достопримечательности"
  | OTHER => "Другое"
  end.

End ExpenseCategory.

Module TripStatus.

Inductive t : Type :=
| PLANNED | IN_PROGRESS | COMPLETED | CANCELLED.

Definition value (s : t) : string :=
  match s with
  | PLANNED => "Запланировано"
  | IN_PROGRESS => "В процессе"
  | COMPLETED => "Завершено"
  | CANCELLED => "Отменено"
  end.

End TripStatus.

Module Trip.

Record t : Type := mk {
  id : option Z;
  name : string;
  description : string;
  start_date : option datetime.date;
  end_date : option datetime.date;
  budget : Q;
  actual_spent : Q;
  currency : string;
  destination : string;
  status : TripStatus.t;
  participants : string
}.

(** A [date] object is always true in a condition, so the test
    [self.start_date and self.end_date] asks whether both are present. *)
Definition duration_days (self : t) : Z :=
  match start_date self, end_date self with
  | Some s, Some e => datetime.days (datetime.sub e s) + 1
  | _, _ => 0
  end.

Definition budget_balance (self : t) : Q := (budget self - actual_spent self)%Q.

End Trip.

Module Expense.

Record t : Type := mk {
  id : option Z;
  trip_id : Z;
  amount : Q;
  currency : string;
  category : ExpenseCategory.t;
  date : option datetime.date;
  description : string;
  payment_method : string;
  location : string
}.

Definition amount_error : exn :=
  ValueError "Сумма расхода должна быть положительной".

(** [__post_init__] *)
Definition post_init (self : t) : result t :=
  if Qle_bool (amount self) 0 then Raise amount_error else Ok self.

(** [Expense(id=..., trip_id=..., ...)]: the generated [__init__] stores the
    fields and calls [__post_init__]. *)
Definition new (id : option Z) (trip_id : Z) (amount : Q) (currency : string)
    (category : ExpenseCategory.t) (date : option datetime.date)
    (description payment_method location : string) : result t :=
  post_init (mk id trip_id amount currency category date description payment_method location).

End Expense.

(** ** Regular expressions, as [re.match] decides them

    Whether a backtracking matcher finds a match of an expression without
    back-references is membership in the expression's language; [accepts]
    decides it by derivatives. *)

Module Re.

Inductive regex : Type :=
| Void
| Eps
| Class (p : ascii -> bool)
| Seq (r1 r2 : regex)
| Alt (r1 r2 : regex)
| Star (r : regex).

(** [r+], [r?] and [r{1,2}] *)
Definition Plus (r : regex) : regex := Seq r (Star r).
Definition Opt (r : regex) : regex := Alt r Eps.
Definition OneOrTwo (r : regex) : regex := Seq r (Opt r).

(** [r{2,}] *)
Definition TwoOrMore (r : regex) : regex := Seq r (Seq r (Star r)).

Fixpoint nullable (r : regex) : bool :=
  match r with
  | Void => false
  | Eps => true
  | Class _ => false
  | Seq r1 r2 => nullable r1 && nullable r2
  | Alt r1 r2 => nullable r1 || nullable r2
  | Star _ => true
  end.

Fixpoint deriv (c : ascii) (r : regex) : regex :=
  match r with
  | Void => Void
  | Eps => Void
  | Class p => if p c then Eps else Void
  | Seq r1 r2 =>
      if nullable r1 then Alt (Seq (deriv c r1) r2) (deriv c r2)
      else Seq (deriv c r1) r2
  | Alt r1 r2 => Alt (deriv c r1) (deriv c r2)
  | Star r' => Seq (deriv c r') (Star r')
  end.

Fixpoint accepts (r : regex) (s : string) : bool :=
  match s with
  | EmptyString => nullable r
  | String c s' => accepts (deriv c r) s'
  end.

Definition newline : ascii := "010"%char.

(** [$] at the end of an expression (no MULTILINE flag): the end of the text,
    or the position just before a newline that ends the text. *)
Definition dollar : regex := Opt (Class (fun c => Ascii.eqb c newline)).

(** [re.match(r + '$', s)] as a truth value; a leading [^] changes nothing
    for [re.match]. *)
Definition match_to_end (r : regex) (s : string) : bool :=
  accepts (Seq r dollar) s.

End Re.

(** ** [float(text)] on plain decimal notation

    Digits with an optional point, blanks around them dropped, read exactly.
    [float] also reads signs, exponents, [inf], [nan] and digit separators;
    such texts are refused here, and none of them reaches the one call of
    [float] in utils.py, which the pattern check guards. *)

Module Float.

(** [float(text)] on decimal texts.  The value kept is the exact number the
    text writes; [float] returns the double nearest to it.  The two have
    the same sign, so the tests against 0 that the code makes come out
    alike; nothing is stated here about the digits of the double. *)

Fixpoint span_digits (s : string) : string * string :=
  match s with
  | EmptyString => (EmptyString, EmptyString)
  | String c s' =>
      if Str.isdigit c
      then let (ds, rest) := span_digits s' in (String c ds, rest)
      else (EmptyString, s)
  end.

Definition decimal (int_part frac_part : string) : Q :=
  Qred (Qmake (Str.int_of_digits (int_part ++ frac_part))
              (Z.to_pos (10 ^ Str.len frac_part))).

Definition syntax_error : exn := ValueError "could not convert string to float".

Definition of_str (text : string) : result Q :=
  let s := Str.strip text in
  let (int_part, rest) := span_digits s in
  match rest with
  | EmptyString =>
      if String.eqb int_part EmptyString then Raise syntax_error
      else Ok (decimal int_part EmptyString)
  | String c rest' =>
      if Ascii.eqb c "." then
        let (frac_part, rest'') := span_digits rest' in
        if String.eqb rest'' EmptyString
           && negb (String.eqb int_part EmptyString && String.eqb frac_part EmptyString)
        then Ok (decimal int_part frac_part)
        else Raise syntax_error
      else Raise syntax_error
  end.

End Float.

(** ** utils.py *)

Module Utils.

Definition MSG_DATE_ORDER : string :=
  "Дата начала не может быть позже даты окончания".
Definition MSG_DATE_PAST : string :=
  "Дата начала не может быть в прошлом (для новых поездок)".
Definition MSG_DATE_FORMAT : string :=
  "Неверный формат даты. Используйте ГГГГ-ММ-ДД".

(** [validate_date_range]; [today] is what [date.today()] returns during the
    call. *)
Definition validate_date_range (today : datetime.date)
    (start_date_str end_date_str : string) : bool * string :=
  match Strptime.strptime_Ymd start_date_str with
  | Raise (ValueError _) => (false, MSG_DATE_FORMAT)
  | Ok start_date =>
      match Strptime.strptime_Ymd end_date_str with
      | Raise (ValueError _) => (false, MSG_DATE_FORMAT)
      | Ok end_date =>
          if datetime.gtb start_date end_date then (false, MSG_DATE_ORDER)
          else if datetime.ltb start_date today then (false, MSG_DATE_PAST)
          else (true, EmptyString)
      end
  end.

Definition MSG_AMOUNT_FORMAT : string :=
  "Неверный формат суммы. Используйте числа с максимум двумя знаками после запятой".
Definition MSG_AMOUNT_POSITIVE : string := "Сумма должна быть положительной".
Definition MSG_AMOUNT_PARSE : string := "Неверный формат суммы".

Definition digit : Re.regex := Re.Class Str.isdigit.

(** The body of the pattern [^\d+(\.\d{1,2})?$], between [^] and [$]. *)
Definition amount_pattern : Re.regex :=
  Re.Seq (Re.Plus digit)
         (Re.Opt (Re.Seq (Re.Class (fun c => Ascii.eqb c ".")) (Re.OneOrTwo digit))).

Definition clean_amount (amount_str : string) : string :=
  Str.replace "," "." (Str.strip amount_str).

Definition validate_currency_amount (amount_str : string) : bool * Q * string :=
  let clean_str := clean_amount amount_str in
  if negb (Re.match_to_end amount_pattern clean_str)
  then (false, 0%Q, MSG_AMOUNT_FORMAT)
  else
    match Float.of_str clean_str with
    | Ok amount =>
        if Qle_bool amount 0 then (false, 0%Q, MSG_AMOUNT_POSITIVE)
        else (true, amount, EmptyString)
    | Raise (ValueError _) => (false, 0%Q, MSG_AMOUNT_PARSE)
    end.

Definition dquote : ascii := "034"%char.

Definition sanitize_input (text : string) (max_length : Z) : string :=
  let text := Str.strip text in
  let text := if Str.len text >? max_length then Str.slice_to text max_length else text in
  Str.replace "'" "&#39;"
    (Str.replace dquote "&quot;"
      (Str.replace ">" "&gt;"
        (Str.replace "<" "&lt;"
          (Str.replace "&" "&amp;" text)))).

Definition sanitize_input_default (text : string) : string := sanitize_input text 500.

(** The classes [a-zA-Z], [a-zA-Z0-9._%+-] and [a-zA-Z0-9.-]. *)
Definition alpha (c : ascii) : bool :=
  let n := nat_of_ascii c in
  ((65 <=? n) && (n <=? 90) || (97 <=? n) && (n <=? 122))%nat.

Definition one_of (cs : string) (c : ascii) : bool := Str.contains c cs.

Definition local_char (c : ascii) : bool :=
  alpha c || Str.isdigit c || one_of "._%+-" c.

Definition domain_char (c : ascii) : bool :=
  alpha c || Str.isdigit c || one_of ".-" c.

(** The body of [^[a-zA-Z0-9._%+-]+@[a-zA-Z0-9.-]+\.[a-zA-Z]{2,}$]. *)
Definition email_pattern : Re.regex :=
  Re.Seq (Re.Plus (Re.Class local_char))
    (Re.Seq (Re.Class (fun c => Ascii.eqb c "@"))
      (Re.Seq (Re.Plus (Re.Class domain_char))
        (Re.Seq (Re.Class (fun c => Ascii.eqb c "."))
                (Re.TwoOrMore (Re.Class alpha))))).

Definition validate_email (email : string) : bool :=
  Re.match_to_end email_pattern email.

End Utils.

(** ** storage.py

    The database file is a value: the two tables in row order, and for each
    table the largest row id it ever handed out (AUTOINCREMENT keeps it in
    [sqlite_sequence]).  Text columns hold what the code binds to them: the
    dates are kept as the dates whose ISO text is stored ([None] for NULL),
    the two enumerations as the members whose [value] is stored. *)

Module TripsRow.

Record t : Type := mk {
  id : Z;
  name : string;
  description : string;
  start_date : option datetime.date;
  end_date : option datetime.date;
  budget : Q;
  actual_spent : Q;
  currency : string;
  destination : string;
  status : TripStatus.t;
  participants : string
}.

Definition set_actual_spent (v : Q) (r : t) : t :=
  mk (id r) (name r) (description r) (start_date r) (end_date r) (budget r) v
     (currency r) (destination r) (status r) (participants r).

End TripsRow.

Module ExpensesRow.

Record t : Type := mk {
  id : Z;
  trip_id : Z;
  amount : Q;
  currency : string;
  category : ExpenseCategory.t;
  date : option datetime.date;
  description : string;
  payment_method : string;
  location : string
}.

End ExpensesRow.

Module Sql.

Record database : Type := mkdb {
  trips : list TripsRow.t;
  trips_seq : Z;
  expenses : list ExpensesRow.t;
  expenses_seq : Z
}.

(** The file [_init_db] leaves behind on first use. *)
Definition empty : database := mkdb [] 0 [] 0.

(** What [sqlite3.connect] hands out.  SQLite enforces foreign keys only on
    a connection that has run [PRAGMA foreign_keys = ON]; a new connection
    has the setting off (the library default, which a build changes only
    with SQLITE_DEFAULT_FOREIGN_KEYS). *)
Record connection : Type := mkconn { foreign_keys : bool }.

Definition connect : connection := mkconn false.

(** [PRAGMA foreign_keys = ON], which storage.py never runs. *)
Definition pragma_foreign_keys_on (conn : connection) : connection := mkconn true.

Definition max_id (ids : list Z) : Z := fold_right Z.max 0 ids.

(** The row id AUTOINCREMENT gives the next inserted row. *)
Definition next_rowid (seq : Z) (ids : list Z) : Z := Z.max seq (max_id ids) + 1.

(** [ORDER BY]: a stable insertion sort; [before y x] says that [y] has to
    come strictly before [x]. *)
Fixpoint insert_by {A : Type} (before : A -> A -> bool) (x : A) (l : list A) : list A :=
  match l with
  | [] => [x]
  | y :: l' => if before y x then y :: insert_by before x l' else x :: l
  end.

Fixpoint order_by {A : Type} (before : A -> A -> bool) (l : list A) : list A :=
  match l with
  | [] => []
  | x :: l' => insert_by before x (order_by before l')
  end.

(** [SUM(amount)]: NULL over no rows. *)
Definition SUM (xs : list Q) : option Q :=
  match xs with
  | [] => None
  | x :: xs' => Some (fold_left Qplus xs' x)
  end.

Definition COALESCE (v : option Q) (d : Q) : Q :=
  match v with
  | Some x => x
  | None => d
  end.

(** [INSERT INTO trips (name, ..., participants) VALUES (...)]; the result
    carries [cursor.lastrowid]. *)
Definition insert_trip (name description : string)
    (start_date end_date : option datetime.date) (budget actual_spent : Q)
    (currency destination : string) (status : TripStatus.t) (participants : string)
    (db : database) : Z * database :=
  let rowid := next_rowid (trips_seq db) (map TripsRow.id (trips db)) in
  let row := TripsRow.mk rowid name description start_date end_date budget actual_spent
                         currency destination status participants in
  (rowid, mkdb (trips db ++ [row])%list rowid (expenses db) (expenses_seq db)).

(** [INSERT INTO expenses (trip_id, ..., location) VALUES (...)].  With
    foreign keys off the parent row is not looked up. *)
Definition insert_expense (trip_id : Z) (amount : Q) (currency : string)
    (category : ExpenseCategory.t) (date : option datetime.date)
    (description payment_method location : string)
    (db : database) : Z * database :=
  let rowid := next_rowid (expenses_seq db) (map ExpensesRow.id (expenses db)) in
  let row := ExpensesRow.mk rowid trip_id amount currency category date description
                            payment_method location in
  (rowid, mkdb (trips db) (trips_seq db) (expenses db ++ [row])%list rowid).

(** [SELECT COALESCE(SUM(amount), 0) FROM expenses WHERE trip_id = ?] *)
Definition total_amount (trip_id : Z) (db : database) : Q :=
  COALESCE
    (SUM (map ExpensesRow.amount
              (filter (fun r => ExpensesRow.trip_id r =? trip_id) (expenses db))))
    0%Q.

(** [UPDATE trips SET actual_spent = (SELECT COALESCE(SUM(amount), 0) FROM
    expenses WHERE trip_id = ?) WHERE id = ?], both parameters the same id. *)
Definition update_actual_spent (trip_id : Z) (db : database) : database :=
  let total := total_amount trip_id db in
  mkdb (map (fun r => if TripsRow.id r =? trip_id
                      then TripsRow.set_actual_spent total r else r) (trips db))
       (trips_seq db) (expenses db) (expenses_seq db).

(** [SELECT * FROM trips ORDER BY id DESC] *)
Definition select_trips (db : database) : list TripsRow.t :=
  order_by (fun y x => TripsRow.id y >? TripsRow.id x) (trips db).

(** The order of the [date] column: NULL sorts below every text, and ISO
    texts of dates sort as the dates do. *)
Definition date_gtb (y x : option datetime.date) : bool :=
  match y, x with
  | Some dy, Some dx => datetime.gtb dy dx
  | Some _, None => true
  | None, _ => false
  end.

(** [SELECT * FROM expenses WHERE trip_id = ? ORDER BY date DESC] *)
Definition select_expenses_by_trip (trip_id : Z) (db : database) : list ExpensesRow.t :=
  order_by (fun y x => date_gtb (ExpensesRow.date y) (ExpensesRow.date x))
           (filter (fun r => ExpensesRow.trip_id r =? trip_id) (expenses db)).

(** [DELETE FROM trips WHERE id = ?]; the result carries [cursor.rowcount],
    which counts the rows of [trips] only.  The schema declares
    [FOREIGN KEY (trip_id) REFERENCES trips (id) ON DELETE CASCADE] on
    [expenses]: the action runs on a connection that enforces foreign keys,
    and on no other. *)
Definition delete_trip (conn : connection) (trip_id : Z) (db : database) : Z * database :=
  let deleted := filter (fun r => TripsRow.id r =? trip_id) (trips db) in
  let kept := filter (fun r => negb (TripsRow.id r =? trip_id)) (trips db) in
  let cascade := foreign_keys conn && negb (Nat.eqb (List.length deleted) 0) in
  let expenses' :=
    if cascade
    then filter (fun r => negb (ExpensesRow.trip_id r =? trip_id)) (expenses db)
    else expenses db in
  (Z.of_nat (List.length deleted), mkdb kept (trips_seq db) expenses' (expenses_seq db)).

(** [DELETE FROM expenses WHERE id = ?] *)
Definition delete_expense (expense_id : Z) (db : database) : Z * database :=
  let deleted := filter (fun r => ExpensesRow.id r =? expense_id) (expenses db) in
  let kept := filter (fun r => negb (ExpensesRow.id r =? expense_id)) (expenses db) in
  (Z.of_nat (List.length deleted), mkdb (trips db) (trips_seq db) kept (expenses_seq db)).

(** [UPDATE trips SET name = ?, ..., participants = ? WHERE id = ?]; a NULL
    id selects no row. *)
Definition update_trip (id : option Z) (name description : string)
    (start_date end_date : option datetime.date) (budget actual_spent : Q)
    (currency destination : string) (status : TripStatus.t) (participants : string)
    (db : database) : Z * database :=
  let hit (r : TripsRow.t) :=
    match id with
    | Some i => TripsRow.id r =? i
    | None => false
    end in
  let row (r : TripsRow.t) :=
    TripsRow.mk (TripsRow.id r) name description start_date end_date budget actual_spent
                currency destination status participants in
  (Z.of_nat (List.length (filter hit (trips db))),
   mkdb (map (fun r => if hit r then row r else r) (trips db))
        (trips_seq db) (expenses db) (expenses_seq db)).

(** The primary keys: no two rows of a table share an id. *)
Definition primary_keys (db : database) : Prop :=
  NoDup (map TripsRow.id (trips db)) /\ NoDup (map ExpensesRow.id (expenses db)).

End Sql.

(** [TravelStorage]: every method opens a connection of its own
    ([with sqlite3.connect(self.db_path) as conn]) and commits before it
    returns; the database before the call comes in, the result and the
    database after it come out. *)

Module TravelStorage.

Definition init_db : Sql.database := Sql.empty.

(** [x if x else 0] on a row id *)
Definition or_zero (rowid : Z) : Z := if rowid =? 0 then 0 else rowid.

Definition add_trip (db : Sql.database) (trip : Trip.t) : Z * Sql.database :=
  let conn := Sql.connect in
  let (trip_id, db1) :=
    Sql.insert_trip (Trip.name trip) (Trip.description trip) (Trip.start_date trip)
      (Trip.end_date trip) (Trip.budget trip) (Trip.actual_spent trip)
      (Trip.currency trip) (Trip.destination trip) (Trip.status trip)
      (Trip.participants trip) db in
  (or_zero trip_id, db1).

Definition add_expense (db : Sql.database) (expense : Expense.t) : Z * Sql.database :=
  let conn := Sql.connect in
  let (expense_id, db1) :=
    Sql.insert_expense (Expense.trip_id expense) (Expense.amount expense)
      (Expense.currency expense) (Expense.category expense) (Expense.date expense)
      (Expense.description expense) (Expense.payment_method expense)
      (Expense.location expense) db in
  let db2 := Sql.update_actual_spent (Expense.trip_id expense) db1 in
  (or_zero expense_id, db2).

Definition trip_of_row (row : TripsRow.t) : Trip.t :=
  Trip.mk (Some (TripsRow.id row)) (TripsRow.name row) (TripsRow.description row)
          (TripsRow.start_date row) (TripsRow.end_date row) (TripsRow.budget row)
          (TripsRow.actual_spent row) (TripsRow.currency row) (TripsRow.destination row)
          (TripsRow.status row) (TripsRow.participants row).

Definition get_all_trips (db : Sql.database) : list Trip.t :=
  map trip_of_row (Sql.select_trips db).

(** Building the [Expense] runs [__post_init__] on the stored amount. *)
Definition expense_of_row (row : ExpensesRow.t) : result Expense.t :=
  Expense.new (Some (ExpensesRow.id row)) (ExpensesRow.trip_id row) (ExpensesRow.amount row)
              (ExpensesRow.currency row) (ExpensesRow.category row) (ExpensesRow.date row)
              (ExpensesRow.description row) (ExpensesRow.payment_method row)
              (ExpensesRow.location row).

Definition get_expenses_by_trip (db : Sql.database) (trip_id : Z) : result (list Expense.t) :=
  mapM expense_of_row (Sql.select_expenses_by_trip trip_id db).

Definition delete_trip (db : Sql.database) (trip_id : Z) : bool * Sql.database :=
  let conn := Sql.connect in
  let (rowcount, db1) := Sql.delete_trip conn trip_id db in
  (rowcount >? 0, db1).

Definition delete_expense (db : Sql.database) (expense_id : Z) : bool * Sql.database :=
  let conn := Sql.connect in
  let (rowcount, db1) := Sql.delete_expense expense_id db in
  (rowcount >? 0, db1).

Definition update_trip (db : Sql.database) (trip : Trip.t) : bool * Sql.database :=
  let conn := Sql.connect in
  let (rowcount, db1) :=
    Sql.update_trip (Trip.id trip) (Trip.name trip) (Trip.description trip)
      (Trip.start_date trip) (Trip.end_date trip) (Trip.budget trip)
      (Trip.actual_spent trip) (Trip.currency trip) (Trip.destination trip)
      (Trip.status trip) (Trip.participants trip) db in
  (rowcount >? 0, db1).

Definition get_total_expenses_by_trip (db : Sql.database) (trip_id : Z) : Q :=
  Sql.total_amount trip_id db.

(** [trip.id == trip_id] *)
Definition has_id (trip_id : Z) (trip : Trip.t) : bool :=
  match Trip.id trip with
  | Some i => i =? trip_id
  | None => false
  end.

Definition get_trip_by_id (db : Sql.database) (trip_id : Z) : option Trip.t :=
  find (has_id trip_id) (get_all_trips db).

(** The databases the application can reach: from the empty file, by the
    methods that write. *)
Inductive reachable : Sql.database -> Prop :=
| reach_init : reachable init_db
| reach_add_trip db trip :
    reachable db -> reachable (snd (add_trip db trip))
| reach_add_expense db expense :
    reachable db -> reachable (snd (add_expense db expense))
| reach_delete_trip db trip_id :
    reachable db -> reachable (snd (delete_trip db trip_id))
| reach_delete_expense db expense_id :
    reachable db -> reachable (snd (delete_expense db expense_id))
| reach_update_trip db trip :
    reachable db -> reachable (snd (update_trip db trip)).

End TravelStorage.

(** ** analysis.py

    A [DataFrame] built from a list of dictionaries is the list of its rows;
    it is [empty] exactly when the list is. *)

Module TripsFrame.

Record row : Type := mk {
  id : option Z;
  name : string;
  destination : string;
  start_date : option datetime.date;
  end_date : option datetime.date;
  duration_days : Z;
  budget : Q;
  actual_spent : Q;
  budget_balance : Q;
  currency : string;
  status : string;
  participants_count : Z
}.

End TripsFrame.

Module ExpensesFrame.

Record row : Type := mk {
  id : option Z;
  trip_id : Z;
  amount : Q;
  currency : string;
  category : string;
  date : option datetime.date;
  description : string;
  payment_method : string;
  location : string
}.

End ExpensesFrame.

Module Summary.

(** The five entries of a filled summary dictionary; [by_category] keeps the
    order of its keys. *)
Record fields : Type := mk {
  total : Q;
  by_category : list (string * Q);
  daily_avg : Q;
  max_expense : Q;
  expense_count : Z
}.

(** What [get_trip_expense_summary] returns: the dictionary [{}] or one with
    the five entries. *)
Inductive t : Type :=
| Empty
| Filled (f : fields).

(** The summary with every entry zero or empty. *)
Definition zero : t := Filled (mk 0%Q [] 0%Q 0%Q 0).

End Summary.

(** The texts [get_trip_recommendations] builds, each with the values it
    formats into its template. *)
Inductive recommendation : Type :=
| NO_DATA
| CATEGORY_SHARE (category : string) (percentage : Q)
| DAILY_HIGH (daily_avg : Q)
| DAILY_LOW (daily_avg : Q)
| BALANCED.

Module TravelAnalyzer.

Record t : Type := mk {
  trips : list Trip.t;
  expenses : list Expense.t;
  df_trips : list TripsFrame.row;
  df_expenses : list ExpensesFrame.row
}.

(** [len(text.split(','))] *)
Fixpoint split_count (s : string) : Z :=
  match s with
  | EmptyString => 1
  | String c s' => (if Ascii.eqb c "," then 1 else 0) + split_count s'
  end.

Definition trips_frame_row (trip : Trip.t) : TripsFrame.row :=
  TripsFrame.mk (Trip.id trip) (Trip.name trip) (Trip.destination trip)
    (Trip.start_date trip) (Trip.end_date trip) (Trip.duration_days trip)
    (Trip.budget trip) (Trip.actual_spent trip) (Trip.budget_balance trip)
    (Trip.currency trip) (TripStatus.value (Trip.status trip))
    (if String.eqb (Trip.participants trip) EmptyString then 1
     else split_count (Trip.participants trip)).

Definition expenses_frame_row (expense : Expense.t) : ExpensesFrame.row :=
  ExpensesFrame.mk (Expense.id expense) (Expense.trip_id expense) (Expense.amount expense)
    (Expense.currency expense) (ExpenseCategory.value (Expense.category expense))
    (Expense.date expense) (Expense.description expense)
    (Expense.payment_method expense) (Expense.location expense).

Definition create_trips_dataframe (trips : list Trip.t) : list TripsFrame.row :=
  map trips_frame_row trips.

Definition create_expenses_dataframe (expenses : list Expense.t) : list ExpensesFrame.row :=
  map expenses_frame_row expenses.

(** [TravelAnalyzer(trips, expenses)] *)
Definition new (trips : list Trip.t) (expenses : list Expense.t) : t :=
  mk trips expenses (create_trips_dataframe trips) (create_expenses_dataframe expenses).

(** [df.empty] *)
Definition empty {A : Type} (df : list A) : bool :=
  match df with [] => true | _ => false end.

(** [series.sum()] *)
Definition sum (xs : list Q) : Q := fold_left Qplus xs 0%Q.

Definition Qmaxb (a b : Q) : Q := if Qle_bool a b then b else a.

(** [series.max()] of a non-empty column; 0 stands in for the empty one,
    which the code never asks for. *)
Definition max (xs : list Q) : Q :=
  match xs with
  | [] => 0%Q
  | x :: xs' => fold_left Qmaxb xs' x
  end.

(** The keys of a [groupby]: each label once, in ascending order. *)
Fixpoint insert_key (k : string) (ks : list string) : list string :=
  match ks with
  | [] => [k]
  | k' :: ks' =>
      match String.compare k k' with
      | Lt => k :: ks
      | Eq => ks
      | Gt => k' :: insert_key k ks'
      end
  end.

Definition group_keys (labels : list string) : list string :=
  fold_right insert_key [] labels.

(** [df.groupby('category')['amount'].sum().to_dict()] *)
Definition by_category_sums (rows : list ExpensesFrame.row) : list (string * Q) :=
  map (fun k =>
         (k, sum (map ExpensesFrame.amount
                      (filter (fun r => String.eqb (ExpensesFrame.category r) k) rows))))
      (group_keys (map ExpensesFrame.category rows)).

(** [series.dropna()] on the date column *)
Definition dropna (xs : list (option datetime.date)) : list datetime.date :=
  flat_map (fun x => match x with Some d => [d] | None => [] end) xs.

Definition date_max (d : datetime.date) (ds : list datetime.date) : datetime.date :=
  fold_left (fun m x => if datetime.gtb x m then x else m) ds d.

Definition date_min (d : datetime.date) (ds : list datetime.date) : datetime.date :=
  fold_left (fun m x => if datetime.ltb x m then x else m) ds d.

(** The rows [df_expenses[df_expenses['trip_id'] == trip_id]] selects. *)
Definition trip_rows (self : t) (trip_id : Z) : list ExpensesFrame.row :=
  filter (fun r => ExpensesFrame.trip_id r =? trip_id) (df_expenses self).

Definition daily_average (total : Q) (trip_dates : list datetime.date) : Q :=
  match trip_dates with
  | d :: (_ :: _) as ds =>
      let days := datetime.days (datetime.sub (date_max d ds) (date_min d ds)) + 1 in
      if days >? 0 then (total / inject_Z days)%Q else total
  | _ => total
  end.

Definition get_trip_expense_summary (self : t) (trip_id : Z) : Summary.t :=
  if empty (df_expenses self) then Summary.Empty
  else
    let trip_expenses := trip_rows self trip_id in
    if empty trip_expenses then Summary.Filled (Summary.mk 0%Q [] 0%Q 0%Q 0)
    else
      let total := sum (map ExpensesFrame.amount trip_expenses) in
      let by_category := by_category_sums trip_expenses in
      let trip_dates := dropna (map ExpensesFrame.date trip_expenses) in
      let daily_avg := daily_average total trip_dates in
      let max_expense := max (map ExpensesFrame.amount trip_expenses) in
      Summary.Filled
        (Summary.mk total by_category daily_avg max_expense
                    (Z.of_nat (List.length trip_expenses))).

Definition Qgtb (a b : Q) : bool := negb (Qle_bool a b).
Definition Qltb (a b : Q) : bool := negb (Qle_bool b a).

Definition category_warnings (total : Q) (by_category : list (string * Q))
  : list recommendation :=
  flat_map (fun '(category, amount) =>
              let percentage := ((amount / total) * 100)%Q in
              if Qgtb percentage 50 then [CATEGORY_SHARE category percentage] else [])
           by_category.

Definition daily_notes (daily_avg : Q) : list recommendation :=
  if Qgtb daily_avg 200 then [DAILY_HIGH daily_avg]
  else if Qltb daily_avg 50 then [DAILY_LOW daily_avg]
  else [].

Definition get_trip_recommendations (self : t) (trip_id : Z) : list recommendation :=
  match get_trip_expense_summary self trip_id with
  | Summary.Empty => [NO_DATA]
  | Summary.Filled summary =>
      if Summary.expense_count summary =? 0 then [NO_DATA]
      else
        let total := Summary.total summary in
        let recommendations :=
          if Qgtb total 0
          then (category_warnings total (Summary.by_category summary)
                ++ daily_notes (Summary.daily_avg summary))%list
          else [] in
        let recommendations :=
          if empty recommendations then (recommendations ++ [BALANCED])%list
          else recommendations in
        firstn 5 recommendations
  end.

(** How many of the analyzer's expenses belong to the trip. *)
Definition trip_expense_count (self : t) (trip_id : Z) : nat :=
  List.length (filter (fun e => Expense.trip_id e =? trip_id) (expenses self)).

End TravelAnalyzer.

(** ** The shape of an amount, in the words of the specification

    "One or more digits, optionally followed by a dot and one or two
    digits." *)

Definition digits (s : string) : Prop := Str.all Str.isdigit s = true.

Definition amount_shape (s : string) : Prop :=
  exists int_part : string,
    digits int_part /\ int_part <> EmptyString /\
    (s = int_part \/
     exists frac_part : string,
       digits frac_part /\
       (String.length frac_part = 1%nat \/ String.length frac_part = 2%nat) /\
       s = int_part ++ String "." frac_part).

(** The value such a text denotes. *)
Definition amount_value (s : string) (v : Q) : Prop := Float.of_str s = Ok v.

(** ** Notions the proofs about texts use *)

(** The language of an expression: the texts it matches in full. *)
Inductive lang : Re.regex -> string -> Prop :=
| lang_eps : lang Re.Eps EmptyString
| lang_class (p : ascii -> bool) (c : ascii) :
    p c = true -> lang (Re.Class p) (String c EmptyString)
| lang_seq (r1 r2 : Re.regex) (s1 s2 : string) :
    lang r1 s1 -> lang r2 s2 -> lang (Re.Seq r1 r2) (s1 ++ s2)
| lang_alt_l (r1 r2 : Re.regex) (s : string) :
    lang r1 s -> lang (Re.Alt r1 r2) s
| lang_alt_r (r1 r2 : Re.regex) (s : string) :
    lang r2 s -> lang (Re.Alt r1 r2) s
| lang_star_nil (r : Re.regex) : lang (Re.Star r) EmptyString
| lang_star_cons (r : Re.regex) (s1 s2 : string) :
    lang r s1 -> lang (Re.Star r) s2 -> lang (Re.Star r) (s1 ++ s2).

(** A character that is no blank. *)
Definition nonspace (c : ascii) : bool := negb (Str.isspace c).

(** The last character of a text. *)
Fixpoint last_char (s : string) : option ascii :=
  match s with
  | EmptyString => None
  | String c EmptyString => Some c
  | String _ s' => last_char s'
  end.

(** The text does not end in a blank. *)
Definition no_trailing_space (s : string) : Prop :=
  match last_char s with
  | Some c => Str.isspace c = false
  | None => True
  end.

(** The five replacements in the order of the code, on any text. *)
Definition escape_html (text : string) : string :=
  Str.replace "'" "&#39;"
    (Str.replace Utils.dquote "&quot;"
      (Str.replace ">" "&gt;"
        (Str.replace "<" "&lt;"
          (Str.replace "&" "&amp;" text)))).

(** ** [date.isoformat()], the text storage.py binds to a date column:
    ["%04d-%02d-%02d" % (year, month, day)] *)

Definition digit_chr (n : Z) : ascii := ascii_of_nat (Z.to_nat (48 + n)).

Definition zfill2 (n : Z) : string :=
  String (digit_chr (n / 10 mod 10)) (String (digit_chr (n mod 10)) EmptyString).

Definition zfill4 (n : Z) : string :=
  String (digit_chr (n / 1000 mod 10)) (String (digit_chr (n / 100 mod 10)) (zfill2 n)).

Definition iso_tail (m d : Z) : string :=
  String "-" (zfill2 m ++ String "-" (zfill2 d)).

Definition isoformat (x : datetime.date) : string :=
  zfill4 (datetime.year x) ++ iso_tail (datetime.month x) (datetime.day x).

(** The month and day groups read a zero-padded tail back. *)
Definition iso_tail_parses (m d : Z) : bool :=
  match Strptime.match_groups
          [Strptime.dash; Strptime.group_m; Strptime.dash; Strptime.group_d]
          (iso_tail m d) with
  | ([_; sm; _; sd], EmptyString) :: _ => (Strptime.int sm =? m) && (Strptime.int sd =? d)
  | _ => false
  end.

Definition Z_range (lo : Z) (n : nat) : list Z := map (fun k => lo + Z.of_nat k) (seq 0 n).

(** ** Fixtures, after tests.py *)

Definition paris_trip : Trip.t :=
  Trip.mk None "Отпуск в Париже" "" (Some (datetime.mkdate 2024 6 1))
          (Some (datetime.mkdate 2024 6 10)) 2000 0 "USD" "Париж, Франция"
          TripStatus.PLANNED "".

Definition test_trip : Trip.t :=
  Trip.mk None "Тест" "" None None 1000 0 "USD" "" TripStatus.PLANNED "".

Definition test_expense (trip_id : Z) : Expense.t :=
  Expense.mk None trip_id 150 "USD" ExpenseCategory.TRANSPORT None "" "Наличные" "".

(** The database of [test_add_expense]: one trip, then one expense of 150
    under it. *)
Definition db_one_trip : Sql.database :=
  snd (TravelStorage.add_trip TravelStorage.init_db test_trip).

Definition db_one_expense : Sql.database :=
  snd (TravelStorage.add_expense db_one_trip (test_expense 1)).

Definition fixture_expense (trip_id : Z) (amount : Q) (category : ExpenseCategory.t)
  : Expense.t :=
  Expense.mk None trip_id amount "USD" category None "" "Наличные" "".

(** The expenses of [test_expense_summary], all of trip 1. *)
Definition fixture_expenses : list Expense.t :=
  [fixture_expense 1 100 ExpenseCategory.FOOD;
   fixture_expense 1 200 ExpenseCategory.TRANSPORT;
   fixture_expense 1 50 ExpenseCategory.FOOD].

(** ** Proof automation *)

(** Splits a disjunction of equations on a variable into its cases. *)
Ltac split_cases H := repeat (destruct H as [-> | H]); [.. | subst].

(** ** Notions for the further properties *)

(** The shape the e-mail pattern describes: a local part, [@], a domain
    part, a dot and a top-level part of two letters or more. *)
Definition email_shape (s : string) : Prop :=
  exists local domain tld : string,
    Str.all Utils.local_char local = true /\ local <> EmptyString /\
    Str.all Utils.domain_char domain = true /\ domain <> EmptyString /\
    Str.all Utils.alpha tld = true /\ (2 <= String.length tld)%nat /\
    s = local ++ String "@" (domain ++ String "." tld).

(** [s.count(c)] *)
Fixpoint count_char (c : ascii) (s : string) : nat :=
  match s with
  | EmptyString => 0%nat
  | String a s' => ((if Ascii.eqb a c then 1 else 0) + count_char c s')%nat
  end.

(** What [replace(',', '.')] does to one character. *)
Definition comma_to_dot (c : ascii) : ascii := if Ascii.eqb c "," then "." else c.

(** The five characters [sanitize_input] escapes. *)
Definition html_specials : list ascii := ["&"; "<"; ">"; Utils.dquote; "'"]%char.

Definition plain_text (s : string) : Prop :=
  forall c, In c html_specials -> Str.contains c s = false.

(** The trip object with the id storage gave it. *)
Definition trip_with_id (i : Z) (t : Trip.t) : Trip.t :=
  Trip.mk (Some i) (Trip.name t) (Trip.description t) (Trip.start_date t)
          (Trip.end_date t) (Trip.budget t) (Trip.actual_spent t) (Trip.currency t)
          (Trip.destination t) (Trip.status t) (Trip.participants t).

(** The expense object a row stands for, its amount not looked at. *)
Definition expense_data (row : ExpensesRow.t) : Expense.t :=
  Expense.mk (Some (ExpensesRow.id row)) (ExpensesRow.trip_id row)
             (ExpensesRow.amount row) (ExpensesRow.currency row)
             (ExpensesRow.category row) (ExpensesRow.date row)
             (ExpensesRow.description row) (ExpensesRow.payment_method row)
             (ExpensesRow.location row).

(** The rows of one trip in the expenses table. *)
Definition rows_of_trip (trip_id : Z) (db : Sql.database) : list ExpensesRow.t :=
  filter (fun r => ExpensesRow.trip_id r =? trip_id) (Sql.expenses db).

(** The exact sum of a list of amounts. *)
Definition Qsum (xs : list Q) : Q := fold_right Qplus 0%Q xs.

(** The id of a listed trip; 0 for a trip that has none. *)
Definition listed_id (t : Trip.t) : Z :=
  match Trip.id t with
  | Some i => i
  | None => 0
  end.

(** The sequence of a table bounds every id in it. *)
Definition seq_bounds (db : Sql.database) : Prop :=
  (forall i, In i (map TripsRow.id (Sql.trips db)) -> i <= Sql.trips_seq db) /\
  (forall i, In i (map ExpensesRow.id (Sql.expenses db)) -> i <= Sql.expenses_seq db).

(** One expense may be listed ahead of another: the other is not dated
    later (an undated expense counts as the earliest). *)
Definition listed_ahead (a b : Expense.t) : Prop :=
  Sql.date_gtb (Expense.date b) (Expense.date a) = false.

(** An [Expense] object whose amount was set to [amount] after it was
    built ([expense.amount = ...]; the dataclass is not frozen). *)
Definition set_amount (amount : Q) (e : Expense.t) : Expense.t :=
  Expense.mk (Expense.id e) (Expense.trip_id e) amount (Expense.currency e)
             (Expense.category e) (Expense.date e) (Expense.description e)
             (Expense.payment_method e) (Expense.location e).

(** ** Notions for the summaries of analysis.py *)

(** Labels in strictly ascending order. *)
Definition label_lt (a b : string) : Prop := String.compare a b = Lt.

(** The expenses of one trip among those an analyzer was built from. *)
Definition expenses_of_trip (trip_id : Z) (expenses : list Expense.t) : list Expense.t :=
  filter (fun e => Expense.trip_id e =? trip_id) expenses.

(** The label an expense is grouped under. *)
Definition category_label (e : Expense.t) : string :=
  ExpenseCategory.value (Expense.category e).

(** The expenses of a category among some expenses. *)
Definition expenses_of_category (c : string) (expenses : list Expense.t) : list Expense.t :=
  filter (fun e => String.eqb (category_label e) c) expenses.

Definition all_categories : list ExpenseCategory.t :=
  [ExpenseCategory.TRANSPORT; ExpenseCategory.ACCOMMODATION; ExpenseCategory.FOOD;
   ExpenseCategory.ENTERTAINMENT; ExpenseCategory.SHOPPING; ExpenseCategory.SIGHTSEEING;
   ExpenseCategory.OTHER].

(** An expense of the trip carries the date. *)
Definition dated (trip_id : Z) (expenses : list Expense.t) (d : datetime.date) : Prop :=
  exists e, In e (expenses_of_trip trip_id expenses) /\ Expense.date e = Some d.

(** Three expenses of trip 1 on two days a week apart. *)
Definition dated_expenses : list Expense.t :=
  [Expense.mk None 1 100 "USD" ExpenseCategory.FOOD (Some (datetime.mkdate 2024 6 8))
              "" "Наличные" "";
   Expense.mk None 1 200 "USD" ExpenseCategory.TRANSPORT (Some (datetime.mkdate 2024 6 1))
              "" "Наличные" "";
   Expense.mk None 1 50 "USD" ExpenseCategory.FOOD None "" "Наличные" ""].

(** ** The date texts of [validate_date_range]

    "The exact format YYYY-MM-DD", in the words of the specification: ten
    characters, a year of four digits, a month of two and a day of two,
    with a dash after the year and after the month. *)
Definition exact_Ymd (s : string) : bool :=
  (String.length s =? 10)%nat &&
  Str.all Str.isdigit (substring 0 4 s) && String.eqb (substring 4 1 s) "-" &&
  Str.all Str.isdigit (substring 5 2 s) && String.eqb (substring 7 1 s) "-" &&
  Str.all Str.isdigit (substring 8 2 s).

(** The texts the code reads as a date.  The year is four digits; the month
    is one or two digits that write a number from 1 to 12; the day is one or
    two digits that write a number from 1 to 31, or a blank and a digit
    other than 0; a dash stands after the year and after the month; and the
    three numbers name a day of the calendar. *)
Definition one_or_two_digits (t : string) : bool :=
  Str.all Str.isdigit t && ((String.length t =? 1) || (String.length t =? 2))%nat.

Definition year_text (t : string) : bool :=
  Str.all Str.isdigit t && (String.length t =? 4)%nat.

Definition month_text (t : string) : bool :=
  one_or_two_digits t && (1 <=? Str.int_of_digits t) && (Str.int_of_digits t <=? 12).

Definition blank_and_digit (t : string) : bool :=
  match t with
  | String b (String c EmptyString) =>
      Ascii.eqb b " " && Str.isdigit c && negb (Ascii.eqb c "0")
  | _ => false
  end.

Definition day_text (t : string) : bool :=
  one_or_two_digits t && (1 <=? Str.int_of_digits t) && (Str.int_of_digits t <=? 31)
  || blank_and_digit t.

Definition reads_as (s : string) (x : datetime.date) : Prop :=
  exists Y M D : string,
    s = Y ++ "-" ++ M ++ "-" ++ D /\
    year_text Y = true /\ month_text M = true /\ day_text D = true /\
    x = datetime.mkdate (Strptime.int Y) (Strptime.int M) (Strptime.int D) /\
    datetime.valid x.

Definition readable (s : string) : Prop := exists x, reads_as s x.

(** *** Tables for the proofs about the parse *)

Definition all_ascii : list ascii := map ascii_of_nat (seq 0 256).

Definition digit_chars : list ascii := filter Str.isdigit all_ascii.

Definition texts_of_one : list string :=
  map (fun c => String c EmptyString) digit_chars.

Definition texts_of_two : list string :=
  flat_map (fun a => map (fun b => String a (String b EmptyString)) digit_chars)
           digit_chars.

Definition texts_with_blank : list string :=
  map (fun c => String " " (String c EmptyString)) digit_chars.

Definition month_texts : list string :=
  filter month_text (texts_of_one ++ texts_of_two)%list.

Definition day_texts : list string :=
  filter day_text (texts_of_one ++ texts_of_two ++ texts_with_blank)%list.

(** The groups after the year read the month text and the day text, and
    read them first. *)
Definition tail_reads (M D : string) : bool :=
  match Strptime.match_groups
          [Strptime.dash; Strptime.group_m; Strptime.dash; Strptime.group_d]
          ("-" ++ M ++ "-" ++ D) with
  | ([_; m; _; d], EmptyString) :: _ => String.eqb m M && String.eqb d D
  | _ => false
  end.

(** The characters of a text are in the classes of an alternative, one for
    one. *)
Fixpoint class_match (a : Strptime.alternative) (m : string) : bool :=
  match a, m with
  | [], EmptyString => true
  | p :: a', String c m' => p c && class_match a' m'
  | _, _ => false
  end.

(** * Properties *)

(** ** models.py *)

Lemma Qle_bool_false_iff (a b : Q) : Qle_bool a b = false <-> (b < a)%Q.
Proof.
  split; intro H.
  - apply Qnot_le_lt. intro Hle. apply Qle_bool_iff in Hle. congruence.
  - destruct (Qle_bool a b) eqn:E; [|reflexivity].
    apply Qle_bool_iff in E. exfalso. exact (Qlt_not_le _ _ H E).
Qed.

Lemma post_init_ok (e : Expense.t) :
  (0 < Expense.amount e)%Q -> Expense.post_init e = Ok e.
Proof.
  intro H. unfold Expense.post_init.
  apply Qle_bool_false_iff in H. now rewrite H.
Qed.

Lemma post_init_raise (e : Expense.t) :
  (Expense.amount e <= 0)%Q -> Expense.post_init e = Raise Expense.amount_error.
Proof.
  intro H. unfold Expense.post_init.
  apply Qle_bool_iff in H. now rewrite H.
Qed.

(** The row [add_expense] appends carries the amount of the object it was
    given, whatever that amount is. *)
Lemma add_expense_stores_amount (db : Sql.database) (e : Expense.t) :
  exists row,
    Sql.expenses (snd (TravelStorage.add_expense db e)) = (Sql.expenses db ++ [row])%list /\
    ExpensesRow.amount row = Expense.amount e /\
    ExpensesRow.trip_id row = Expense.trip_id e.
Proof.
  unfold TravelStorage.add_expense, Sql.insert_expense, Sql.update_actual_spent.
  cbn. eexists. split; [reflexivity|]. split; reflexivity.
Qed.

(** C3: whatever the other fields are, building an [Expense] raises the
    ValueError of [__post_init__] when the amount is at most zero and yields
    the object when the amount is above zero; [add_expense] itself checks
    nothing and stores the amount it is handed. *)
Theorem expense_amount_checked_at_construction :
  forall (id : option Z) (trip_id : Z) (amount : Q) (currency : string)
         (category : ExpenseCategory.t) (date : option datetime.date)
         (description payment_method location : string),
    ((amount <= 0)%Q ->
       Expense.new id trip_id amount currency category date description
                   payment_method location
       = Raise Expense.amount_error) /\
    ((0 < amount)%Q ->
       Expense.new id trip_id amount currency category date description
                   payment_method location
       = Ok (Expense.mk id trip_id amount currency category date description
                        payment_method location)) /\
    (forall db : Sql.database,
       In amount
          (map ExpensesRow.amount
               (Sql.expenses
                  (snd (TravelStorage.add_expense db
                          (Expense.mk id trip_id amount currency category date
                                      description payment_method location)))))).
Proof.
  intros. unfold Expense.new. repeat split.
  - intro H. now apply post_init_raise.
  - intro H. now apply post_init_ok.
  - intro db.
    destruct (add_expense_stores_amount db
                (Expense.mk id trip_id amount currency category date
                            description payment_method location))
      as (row & Hrows & Hamount & _).
    rewrite Hrows, map_app, in_app_iff. right. left. exact Hamount.
Qed.

Lemma expense_amount_checked_at_construction_witness :
  Expense.new None 1 (-50) "USD" ExpenseCategory.OTHER None "" "Наличные" ""
  = Raise Expense.amount_error /\
  Expense.new None 1 100 "USD" ExpenseCategory.FOOD
              (Some (datetime.mkdate 2024 6 2)) "" "Наличные" ""
  = Ok (Expense.mk None 1 100 "USD" ExpenseCategory.FOOD
                   (Some (datetime.mkdate 2024 6 2)) "" "Наличные" "").
Proof.
  split.
  - apply (expense_amount_checked_at_construction
             None 1 (-50) "USD" ExpenseCategory.OTHER None "" "Наличные" "").
    vm_compute. discriminate.
  - apply (expense_amount_checked_at_construction
             None 1 100 "USD" ExpenseCategory.FOOD
             (Some (datetime.mkdate 2024 6 2)) "" "Наличные" "").
    reflexivity.
Defined.

(** C4: with both dates present the duration is the number of days from the
    start date to the end date, plus one; with either date missing it is 0. *)
Theorem trip_duration_days :
  forall t : Trip.t,
    (forall d1 d2 : datetime.date,
       Trip.start_date t = Some d1 -> Trip.end_date t = Some d2 ->
       Trip.duration_days t = datetime.days (datetime.sub d2 d1) + 1 /\
       Trip.duration_days t = datetime.toordinal d2 - datetime.toordinal d1 + 1) /\
    (Trip.start_date t = None \/ Trip.end_date t = None -> Trip.duration_days t = 0).
Proof.
  intro t. unfold Trip.duration_days. split.
  - intros d1 d2 Hs He. rewrite Hs, He. split; reflexivity.
  - intros [H | H]; rewrite H; [reflexivity|].
    now destruct (Trip.start_date t).
Qed.

Lemma trip_duration_days_witness :
  Trip.duration_days paris_trip = 10 /\
  Trip.duration_days (Trip.mk None "" "" None (Some (datetime.mkdate 2024 6 10))
                              0 0 "USD" "" TripStatus.PLANNED "") = 0.
Proof.
  split.
  - apply (proj1 (trip_duration_days paris_trip) (datetime.mkdate 2024 6 1)
                 (datetime.mkdate 2024 6 10)); reflexivity.
  - apply (proj2 (trip_duration_days _)). left. reflexivity.
Defined.

(** ** utils.py: [sanitize_input] *)

Lemma contains_append (c : ascii) (s1 s2 : string) :
  Str.contains c (s1 ++ s2) = Str.contains c s1 || Str.contains c s2.
Proof.
  induction s1 as [|a s1 IH]; simpl; [reflexivity|].
  now rewrite IH, orb_assoc.
Qed.

(** Replacing a character by a text that does not hold it removes it. *)
Lemma replace_removes (old : ascii) (new s : string) :
  Str.contains old new = false -> Str.contains old (Str.replace old new s) = false.
Proof.
  intro Hnew. induction s as [|a s IH]; simpl; [reflexivity|].
  destruct (Ascii.eqb a old) eqn:E.
  - now rewrite contains_append, Hnew, IH.
  - simpl. now rewrite E, IH.
Qed.

(** A character absent from the text and from the replacement stays absent. *)
Lemma replace_keeps_absent (c old : ascii) (new s : string) :
  Str.contains c new = false -> Str.contains c s = false ->
  Str.contains c (Str.replace old new s) = false.
Proof.
  intros Hnew. induction s as [|a s IH]; simpl; [reflexivity|].
  intro H. apply orb_false_iff in H as [Ha Hs].
  destruct (Ascii.eqb a old).
  - now rewrite contains_append, Hnew, IH.
  - simpl. now rewrite Ha, IH.
Qed.

Lemma sanitize_input_escape (text : string) (max_length : Z) :
  exists cut : string, Utils.sanitize_input text max_length = escape_html cut.
Proof.
  unfold Utils.sanitize_input.
  destruct (Str.len (Str.strip text) >? max_length); eexists; reflexivity.
Qed.

Lemma escape_html_clean (text : string) :
  Str.contains "<" (escape_html text) = false /\
  Str.contains ">" (escape_html text) = false /\
  Str.contains Utils.dquote (escape_html text) = false /\
  Str.contains "'" (escape_html text) = false.
Proof.
  unfold escape_html. repeat split.
  - do 2 (apply replace_keeps_absent; [reflexivity|]).
    apply replace_keeps_absent; [reflexivity|].
    now apply replace_removes.
  - do 2 (apply replace_keeps_absent; [reflexivity|]).
    now apply replace_removes.
  - apply replace_keeps_absent; [reflexivity|].
    now apply replace_removes.
  - now apply replace_removes.
Qed.

(** C10: for every text and every [max_length], the text [sanitize_input]
    returns holds none of the characters [<], [>], the double quote and the
    apostrophe. *)
Theorem sanitize_input_has_no_html_specials :
  forall (text : string) (max_length : Z),
    Str.contains "<" (Utils.sanitize_input text max_length) = false /\
    Str.contains ">" (Utils.sanitize_input text max_length) = false /\
    Str.contains Utils.dquote (Utils.sanitize_input text max_length) = false /\
    Str.contains "'" (Utils.sanitize_input text max_length) = false.
Proof.
  intros text max_length.
  destruct (sanitize_input_escape text max_length) as [cut ->].
  apply escape_html_clean.
Qed.

Example sanitize_input_example :
  Utils.sanitize_input "  <a href='x'>T&C</a> " 500
  = "&lt;a href=&#39;x&#39;&gt;T&amp;C&lt;/a&gt;" /\
  Utils.sanitize_input "<b>bold</b>" 3 = "&lt;b&gt;" /\
  Utils.sanitize_input "abcdef" (-2) = "abcd".
Proof. repeat split; reflexivity. Qed.

(** ** utils.py: [validate_date_range] *)

Lemma date_cmp_antisym (x y : datetime.date) :
  datetime.cmp y x = CompOpp (datetime.cmp x y).
Proof.
  unfold datetime.cmp.
  rewrite (Z.compare_antisym (datetime.year x) (datetime.year y)).
  rewrite (Z.compare_antisym (datetime.month x) (datetime.month y)).
  rewrite (Z.compare_antisym (datetime.day x) (datetime.day y)).
  destruct (datetime.year x ?= datetime.year y); simpl; try reflexivity.
  destruct (datetime.month x ?= datetime.month y); simpl; reflexivity.
Qed.

(** [x > y] is [y < x]. *)
Lemma date_gtb_ltb (x y : datetime.date) : datetime.gtb x y = datetime.ltb y x.
Proof.
  unfold datetime.gtb, datetime.ltb. rewrite (date_cmp_antisym x y).
  now destruct (datetime.cmp x y).
Qed.

Lemma date_cmp_eq (x y : datetime.date) : datetime.cmp x y = Eq <-> x = y.
Proof.
  destruct x as [y1 m1 d1], y as [y2 m2 d2]. unfold datetime.cmp. simpl. split.
  - destruct (y1 ?= y2) eqn:Ey; try discriminate.
    destruct (m1 ?= m2) eqn:Em; try discriminate.
    intro Ed. apply Z.compare_eq in Ey, Em, Ed. now subst.
  - intro H. injection H as -> -> ->. now rewrite !Z.compare_refl.
Qed.

(** A date that [strptime] returns passed the range checks of [date]. *)
Lemma strptime_valid (s : string) (d : datetime.date) :
  Strptime.strptime_Ymd s = Ok d -> datetime.valid d.
Proof.
  unfold Strptime.strptime_Ymd.
  destruct (Strptime.match_groups Strptime.format_regex s) as [|[found rest] ?];
    [discriminate|].
  destruct (negb (rest =? "")%string); [discriminate|].
  destruct found as [|Y [|? [|m [|? [|dd [|? ?]]]]]]; try discriminate.
  unfold datetime.new.
  destruct (datetime.check_date_fields _ _ _) eqn:E; [|discriminate].
  intro H. injection H as <-. exact E.
Qed.

Lemma validate_date_range_unparsed_start (today : datetime.date) (s e : string) (x : exn) :
  Strptime.strptime_Ymd s = Raise x ->
  Utils.validate_date_range today s e = (false, Utils.MSG_DATE_FORMAT).
Proof.
  intro H. unfold Utils.validate_date_range. rewrite H. now destruct x.
Qed.

Lemma validate_date_range_unparsed_end (today : datetime.date) (s e : string) (x : exn) :
  Strptime.strptime_Ymd e = Raise x ->
  Utils.validate_date_range today s e = (false, Utils.MSG_DATE_FORMAT).
Proof.
  intro H. unfold Utils.validate_date_range. rewrite H.
  destruct (Strptime.strptime_Ymd s) as [sd|[?]]; [|reflexivity]. now destruct x.
Qed.

Lemma validate_date_range_parsed (today : datetime.date) (s e : string)
    (sd ed : datetime.date) :
  Strptime.strptime_Ymd s = Ok sd -> Strptime.strptime_Ymd e = Ok ed ->
  Utils.validate_date_range today s e =
    if datetime.gtb sd ed then (false, Utils.MSG_DATE_ORDER)
    else if datetime.ltb sd today then (false, Utils.MSG_DATE_PAST)
    else (true, EmptyString).
Proof.
  intros Hs He. unfold Utils.validate_date_range. now rewrite Hs, He.
Qed.

(** The outcomes of [validate_date_range], by what the parse returns for
    the two texts. *)
Lemma validate_date_range_by_parse :
  forall (today : datetime.date) (start_date_str end_date_str : string),
    ((is_ok (Strptime.strptime_Ymd start_date_str) = false \/
      is_ok (Strptime.strptime_Ymd end_date_str) = false) ->
     Utils.validate_date_range today start_date_str end_date_str
     = (false, Utils.MSG_DATE_FORMAT)) /\
    (forall start_date end_date : datetime.date,
       Strptime.strptime_Ymd start_date_str = Ok start_date ->
       Strptime.strptime_Ymd end_date_str = Ok end_date ->
       (datetime.gtb start_date end_date = true ->
        Utils.validate_date_range today start_date_str end_date_str
        = (false, Utils.MSG_DATE_ORDER)) /\
       (datetime.ltb start_date today = true ->
        fst (Utils.validate_date_range today start_date_str end_date_str) = false) /\
       (datetime.gtb start_date end_date = false ->
        datetime.ltb start_date today = true ->
        Utils.validate_date_range today start_date_str end_date_str
        = (false, Utils.MSG_DATE_PAST)) /\
       (datetime.gtb start_date end_date = false ->
        datetime.ltb start_date today = false ->
        Utils.validate_date_range today start_date_str end_date_str
        = (true, EmptyString))).
Proof.
  intros today s e. split.
  - intros [H | H].
    + destruct (Strptime.strptime_Ymd s) as [?|x] eqn:Es; [discriminate|].
      now apply (validate_date_range_unparsed_start today s e x).
    + destruct (Strptime.strptime_Ymd e) as [?|x] eqn:Ee; [discriminate|].
      now apply (validate_date_range_unparsed_end today s e x).
  - intros sd ed Hs He.
    rewrite (validate_date_range_parsed today s e sd ed Hs He).
    repeat split.
    + intros ->. reflexivity.
    + intros ->. now destruct (datetime.gtb sd ed).
    + intros -> ->. reflexivity.
    + intros -> ->. reflexivity.
Qed.

(** ** Regular expressions: [accepts] decides the language *)

Lemma append_empty_inv (s1 s2 : string) :
  s1 ++ s2 = EmptyString -> s1 = EmptyString /\ s2 = EmptyString.
Proof. destruct s1; simpl; [auto | discriminate]. Qed.

Lemma append_nil_r (s : string) : s ++ EmptyString = s.
Proof. induction s as [|c s IH]; simpl; [reflexivity | now rewrite IH]. Qed.

Lemma append_assoc (s1 s2 s3 : string) : (s1 ++ s2) ++ s3 = s1 ++ (s2 ++ s3).
Proof. induction s1 as [|c s1 IH]; simpl; [reflexivity | now rewrite IH]. Qed.

Lemma nullable_lang (r : Re.regex) : Re.nullable r = true <-> lang r EmptyString.
Proof.
  induction r as [| |p|r1 IH1 r2 IH2|r1 IH1 r2 IH2|r IH]; simpl.
  - split; [discriminate | intro H; inversion H].
  - split; [constructor | reflexivity].
  - split; [discriminate | intro H; inversion H].
  - rewrite andb_true_iff, IH1, IH2. split.
    + intros [H1 H2]. exact (lang_seq r1 r2 _ _ H1 H2).
    + intro H. inversion H as [| |? ? s1 s2 H1 H2| | | |]; subst.
      match goal with
      | Heq : _ ++ _ = EmptyString |- _ => apply append_empty_inv in Heq as [-> ->]
      end.
      now split.
  - rewrite orb_true_iff, IH1, IH2. split.
    + intros [H | H]; [now apply lang_alt_l | now apply lang_alt_r].
    + intro H. inversion H; subst; [now left | now right].
  - split; [constructor | reflexivity].
Qed.

(** A non-empty text of [r*] starts with a non-empty text of [r]. *)
Lemma lang_star_uncons (r : Re.regex) (c : ascii) (s : string) :
  lang (Re.Star r) (String c s) ->
  exists s1 s2, s = s1 ++ s2 /\ lang r (String c s1) /\ lang (Re.Star r) s2.
Proof.
  intro H. remember (Re.Star r) as r' eqn:Er. remember (String c s) as w eqn:Ew.
  revert c s Ew.
  induction H as [| | | | | |r0 s1 s2 H1 _ H2 IH2]; try discriminate.
  injection Er as ->. intros c s Ew.
  destruct s1 as [|a s1]; simpl in Ew.
  - now apply IH2.
  - injection Ew as -> <-. now exists s1, s2.
Qed.

Lemma deriv_lang (c : ascii) (r : Re.regex) :
  forall s, lang (Re.deriv c r) s <-> lang r (String c s).
Proof.
  induction r as [| |p|r1 IH1 r2 IH2|r1 IH1 r2 IH2|r IH]; intro s; simpl.
  - split; intro H; inversion H.
  - split; intro H; inversion H.
  - destruct (p c) eqn:Ep; split; intro H.
    + inversion H; subst. now constructor.
    + inversion H; subst. constructor.
    + inversion H.
    + inversion H; subst. congruence.
  - assert (Hseq : lang (Re.Seq (Re.deriv c r1) r2) s ->
                   lang (Re.Seq r1 r2) (String c s)).
    { intro H. inversion H as [| |? ? s1 s2 H1 H2| | | |]; subst.
      apply IH1 in H1. exact (lang_seq r1 r2 (String c s1) s2 H1 H2). }
    split.
    + destruct (Re.nullable r1) eqn:En.
      * intro H. inversion H as [| | |? ? ? H1|? ? ? H2| |]; subst.
        -- now apply Hseq.
        -- apply IH2 in H2. apply nullable_lang in En.
           exact (lang_seq r1 r2 EmptyString (String c s) En H2).
      * exact Hseq.
    + intro H. inversion H as [| |? ? s1 s2 H1 H2| | | |]; subst.
      match goal with Heq : _ ++ _ = String c s |- _ => rename Heq into Heq' end.
      destruct s1 as [|a s1]; simpl in Heq'.
      * subst s2. apply nullable_lang in H1. rewrite H1.
        apply lang_alt_r. now apply IH2.
      * injection Heq' as -> <-. apply IH1 in H1.
        pose proof (lang_seq _ r2 _ _ H1 H2) as Hd.
        destruct (Re.nullable r1); [now apply lang_alt_l | exact Hd].
  - split; intro H.
    + inversion H; subst; [apply lang_alt_l; now apply IH1 | apply lang_alt_r; now apply IH2].
    + inversion H; subst; [apply lang_alt_l; now apply IH1 | apply lang_alt_r; now apply IH2].
  - split; intro H.
    + inversion H as [| |? ? s1 s2 H1 H2| | | |]; subst.
      apply IH in H1. exact (lang_star_cons r (String c s1) s2 H1 H2).
    + apply lang_star_uncons in H as (s1 & s2 & -> & H1 & H2).
      apply IH in H1. exact (lang_seq _ _ _ _ H1 H2).
Qed.

Lemma accepts_lang (s : string) : forall r, Re.accepts r s = true <-> lang r s.
Proof.
  induction s as [|c s IH]; intro r; simpl.
  - apply nullable_lang.
  - rewrite IH. apply deriv_lang.
Qed.

(** ** The amount pattern matches the texts of the specified shape *)

Lemma all_append (p : ascii -> bool) (s1 s2 : string) :
  Str.all p (s1 ++ s2) = Str.all p s1 && Str.all p s2.
Proof.
  induction s1 as [|c s1 IH]; simpl; [reflexivity|].
  now rewrite IH, andb_assoc.
Qed.

Lemma lang_digit (s : string) :
  lang Utils.digit s <-> exists c, s = String c EmptyString /\ Str.isdigit c = true.
Proof.
  unfold Utils.digit. split.
  - intro H. inversion H; subst. eauto.
  - intros (c & -> & Hc). now constructor.
Qed.

Lemma lang_star_digits (s : string) : lang (Re.Star Utils.digit) s <-> digits s.
Proof.
  unfold digits. split.
  - intro H. remember (Re.Star Utils.digit) as r eqn:Er.
    induction H as [| | | | | |r0 s1 s2 H1 _ H2 IH2]; try discriminate.
    + reflexivity.
    + injection Er as ->. apply lang_digit in H1 as (c & -> & Hc).
      simpl. now rewrite Hc, IH2.
  - induction s as [|c s IH]; simpl; intro H.
    + constructor.
    + apply andb_true_iff in H as [Hc Hs].
      apply (lang_star_cons Utils.digit (String c EmptyString) s).
      * apply lang_digit. eauto.
      * now apply IH.
Qed.

Lemma lang_plus_digits (s : string) :
  lang (Re.Plus Utils.digit) s <-> digits s /\ s <> EmptyString.
Proof.
  unfold Re.Plus. split.
  - intro H. inversion H as [| |? ? s1 s2 H1 H2| | | |]; subst.
    apply lang_digit in H1 as (c & -> & Hc). apply lang_star_digits in H2.
    split; [|discriminate]. unfold digits in *. simpl. now rewrite Hc, H2.
  - intros [Hd Hne]. destruct s as [|c s]; [congruence|].
    unfold digits in Hd. simpl in Hd. apply andb_true_iff in Hd as [Hc Hs].
    apply (lang_seq Utils.digit _ (String c EmptyString) s).
    + apply lang_digit. eauto.
    + now apply lang_star_digits.
Qed.

Lemma lang_one_or_two_digits (s : string) :
  lang (Re.OneOrTwo Utils.digit) s <->
  digits s /\ (String.length s = 1%nat \/ String.length s = 2%nat).
Proof.
  unfold Re.OneOrTwo, Re.Opt, digits. split.
  - intro H. inversion H as [| |? ? s1 s2 H1 H2| | | |]; subst.
    apply lang_digit in H1 as (c & -> & Hc).
    inversion H2 as [| | |? ? ? H3|? ? ? H3| |]; subst.
    + apply lang_digit in H3 as (c' & -> & Hc'). simpl. rewrite Hc, Hc'. auto.
    + inversion H3; subst. simpl. rewrite Hc. auto.
  - intros [Hd [Hl | Hl]].
    + destruct s as [|c [|c' s]]; try discriminate.
      simpl in Hd. rewrite andb_true_r in Hd.
      apply (lang_seq Utils.digit _ (String c EmptyString) EmptyString).
      * apply lang_digit. eauto.
      * apply lang_alt_r. constructor.
    + destruct s as [|c [|c' [|c'' s]]]; try discriminate.
      simpl in Hd. rewrite andb_true_r in Hd. apply andb_true_iff in Hd as [Hc Hc'].
      apply (lang_seq Utils.digit _ (String c EmptyString) (String c' EmptyString)).
      * apply lang_digit. eauto.
      * apply lang_alt_l. apply lang_digit. eauto.
Qed.

Lemma lang_amount_pattern (s : string) : lang Utils.amount_pattern s <-> amount_shape s.
Proof.
  unfold Utils.amount_pattern, amount_shape, Re.Opt. split.
  - intro H. inversion H as [| |? ? s1 s2 H1 H2| | | |]; subst.
    apply lang_plus_digits in H1 as [Hd Hne].
    exists s1. split; [exact Hd|]. split; [exact Hne|].
    inversion H2 as [| | |? ? ? H3|? ? ? H3| |]; subst.
    + right. inversion H3 as [| |? ? t1 t2 H4 H5| | | |]; subst.
      inversion H4 as [|p c Hp| | | | |]; subst.
      apply Ascii.eqb_eq in Hp. subst c.
      apply lang_one_or_two_digits in H5 as [Hf Hl].
      exists t2. simpl. auto.
    + left. inversion H3; subst. now rewrite append_nil_r.
  - intros (ip & Hd & Hne & [-> | (fp & Hf & Hl & ->)]).
    + rewrite <- (append_nil_r ip) at 1.
      apply lang_seq; [now apply lang_plus_digits|]. apply lang_alt_r. constructor.
    + apply lang_seq; [now apply lang_plus_digits|]. apply lang_alt_l.
      apply (lang_seq _ _ (String "." EmptyString) fp).
      * constructor. reflexivity.
      * now apply lang_one_or_two_digits.
Qed.

Lemma lang_dollar (s : string) :
  lang Re.dollar s <-> s = EmptyString \/ s = String Re.newline EmptyString.
Proof.
  unfold Re.dollar, Re.Opt. split.
  - intro H. inversion H as [| | |? ? ? H1|? ? ? H1| |]; subst.
    + inversion H1 as [|p c Hp| | | | |]; subst.
      apply Ascii.eqb_eq in Hp. subst. now right.
    + inversion H1; subst. now left.
  - intros [-> | ->].
    + apply lang_alt_r. constructor.
    + apply lang_alt_l. constructor. reflexivity.
Qed.

(** What [re.match] with the pattern of [validate_currency_amount] accepts:
    a text of the specified shape, or such a text followed by one newline. *)
Lemma match_amount_pattern (s : string) :
  Re.match_to_end Utils.amount_pattern s = true <->
  amount_shape s \/
  exists w, amount_shape w /\ s = w ++ String Re.newline EmptyString.
Proof.
  unfold Re.match_to_end. rewrite accepts_lang. split.
  - intro H. inversion H as [| |? ? s1 s2 H1 H2| | | |]; subst.
    apply lang_amount_pattern in H1. apply lang_dollar in H2 as [-> | ->].
    + left. now rewrite append_nil_r.
    + right. now exists s1.
  - intros [H | (w & H & ->)].
    + rewrite <- (append_nil_r s).
      apply lang_seq; [now apply lang_amount_pattern | now apply lang_dollar; left].
    + apply lang_seq; [now apply lang_amount_pattern | apply lang_dollar; now right].
Qed.

(** ** The cleaned text does not end in a blank *)

Lemma last_char_cons (c : ascii) (s : string) :
  s <> EmptyString -> last_char (String c s) = last_char s.
Proof. destruct s; [congruence | reflexivity]. Qed.

Lemma last_char_append (s1 s2 : string) :
  s2 <> EmptyString -> last_char (s1 ++ s2) = last_char s2.
Proof.
  intro Hne. induction s1 as [|c s1 IH]; simpl; [reflexivity|].
  destruct (s1 ++ s2) eqn:E; [|exact IH].
  apply append_empty_inv in E as [_ ->]. congruence.
Qed.

Lemma rstrip_no_trailing_space (s : string) : no_trailing_space (Str.rstrip s).
Proof.
  unfold no_trailing_space. induction s as [|c s IH]; simpl; [exact I|].
  destruct (Str.rstrip s) as [|b r] eqn:E.
  - destruct (Str.isspace c) eqn:Ec; simpl; [exact I | exact Ec].
  - exact IH.
Qed.

Lemma lstrip_no_trailing_space (s : string) :
  no_trailing_space s -> no_trailing_space (Str.lstrip s).
Proof.
  unfold no_trailing_space. induction s as [|c s IH]; simpl; [auto|].
  intro H. destruct (Str.isspace c) eqn:Ec.
  - apply IH. destruct s; [exact I | exact H].
  - exact H.
Qed.

Lemma strip_no_trailing_space (s : string) : no_trailing_space (Str.strip s).
Proof. apply lstrip_no_trailing_space, rstrip_no_trailing_space. Qed.

Lemma replace_comma_nonempty (c : ascii) (s : string) :
  Str.replace "," "." (String c s) <> EmptyString.
Proof. simpl. destruct (Ascii.eqb c ","); discriminate. Qed.

Lemma replace_comma_no_trailing_space (s : string) :
  no_trailing_space s -> no_trailing_space (Str.replace "," "." s).
Proof.
  unfold no_trailing_space. induction s as [|a s IH]; [auto|].
  intro H. destruct s as [|b s].
  - simpl in *. destruct (Ascii.eqb a ","); simpl; [reflexivity | exact H].
  - rewrite last_char_cons in H by discriminate. specialize (IH H).
    change (Str.replace "," "." (String a (String b s)))
      with (if Ascii.eqb a ","
            then String "." (Str.replace "," "." (String b s))
            else String a (Str.replace "," "." (String b s))).
    destruct (Ascii.eqb a ",");
      rewrite last_char_cons by apply replace_comma_nonempty; exact IH.
Qed.

Lemma clean_amount_no_trailing_space (amount_str : string) :
  no_trailing_space (Utils.clean_amount amount_str).
Proof. apply replace_comma_no_trailing_space, strip_no_trailing_space. Qed.

(** On a cleaned text the pattern accepts exactly the specified shape: the
    newline that [$] tolerates cannot be there. *)
Lemma match_amount_pattern_clean (amount_str : string) :
  Re.match_to_end Utils.amount_pattern (Utils.clean_amount amount_str) = true <->
  amount_shape (Utils.clean_amount amount_str).
Proof.
  rewrite match_amount_pattern. split; [|now left].
  intros [H | (w & _ & Hw)]; [exact H|].
  pose proof (clean_amount_no_trailing_space amount_str) as Hc.
  unfold no_trailing_space in Hc. rewrite Hw, last_char_append in Hc by discriminate.
  simpl in Hc. discriminate.
Qed.

(** ** [float] on a text of the specified shape *)

Lemma isdigit_not_space (c : ascii) : Str.isdigit c = true -> Str.isspace c = false.
Proof.
  unfold Str.isdigit, Str.isspace. intro H.
  apply andb_true_iff in H as [H1 H2].
  apply Nat.leb_le in H1, H2.
  repeat (apply orb_false_iff; split).
  - apply andb_false_iff. right. apply Nat.leb_gt. lia.
  - apply andb_false_iff. right. apply Nat.leb_gt. lia.
  - apply Nat.eqb_neq. lia.
  - apply Nat.eqb_neq. lia.
Qed.

Lemma digits_nonspace (s : string) : digits s -> Str.all nonspace s = true.
Proof.
  unfold digits. induction s as [|c s IH]; simpl; [reflexivity|].
  intro H. apply andb_true_iff in H as [Hc Hs].
  unfold nonspace at 1. now rewrite (isdigit_not_space c Hc), IH.
Qed.

Lemma amount_shape_nonspace (s : string) : amount_shape s -> Str.all nonspace s = true.
Proof.
  intros (ip & Hd & _ & [-> | (fp & Hf & _ & ->)]).
  - now apply digits_nonspace.
  - rewrite all_append. simpl.
    now rewrite (digits_nonspace ip Hd), (digits_nonspace fp Hf).
Qed.

Lemma strip_nonspace (s : string) : Str.all nonspace s = true -> Str.strip s = s.
Proof.
  intro H. unfold Str.strip.
  assert (Hr : Str.rstrip s = s).
  { induction s as [|c s IH]; simpl in *; [reflexivity|].
    apply andb_true_iff in H as [Hc Hs]. rewrite (IH Hs).
    unfold nonspace in Hc. apply negb_true_iff in Hc. rewrite Hc.
    now destruct s. }
  rewrite Hr. destruct s as [|c s]; simpl in *; [reflexivity|].
  apply andb_true_iff in H as [Hc _].
  unfold nonspace in Hc. apply negb_true_iff in Hc. now rewrite Hc.
Qed.

Lemma span_digits_all (s : string) :
  digits s -> Float.span_digits s = (s, EmptyString).
Proof.
  unfold digits. induction s as [|c s IH]; simpl; [reflexivity|].
  intro H. apply andb_true_iff in H as [Hc Hs]. now rewrite Hc, (IH Hs).
Qed.

Lemma span_digits_stop (s : string) (c : ascii) (rest : string) :
  digits s -> Str.isdigit c = false ->
  Float.span_digits (s ++ String c rest) = (s, String c rest).
Proof.
  unfold digits. intros H Hc. induction s as [|a s IH]; simpl.
  - now rewrite Hc.
  - simpl in H. apply andb_true_iff in H as [Ha Hs]. now rewrite Ha, (IH Hs).
Qed.

Lemma of_str_integer (int_part : string) :
  digits int_part -> int_part <> EmptyString ->
  Float.of_str int_part = Ok (Float.decimal int_part EmptyString).
Proof.
  intros Hd Hne. unfold Float.of_str.
  rewrite (strip_nonspace _ (digits_nonspace _ Hd)), (span_digits_all _ Hd).
  destruct int_part; [congruence | reflexivity].
Qed.

Lemma of_str_decimal (int_part frac_part : string) :
  digits int_part -> int_part <> EmptyString -> digits frac_part ->
  Float.of_str (int_part ++ String "." frac_part)
  = Ok (Float.decimal int_part frac_part).
Proof.
  intros Hd Hne Hf. unfold Float.of_str.
  rewrite strip_nonspace.
  - rewrite (span_digits_stop _ "." frac_part Hd) by reflexivity.
    cbn [Ascii.eqb]. replace (Ascii.eqb "." ".") with true by reflexivity.
    rewrite (span_digits_all _ Hf).
    destruct int_part; [congruence | reflexivity].
  - rewrite all_append. simpl.
    now rewrite (digits_nonspace _ Hd), (digits_nonspace _ Hf).
Qed.

(** Every text of the specified shape denotes a value. *)
Lemma amount_shape_value (s : string) : amount_shape s -> exists v, amount_value s v.
Proof.
  unfold amount_value.
  intros (ip & Hd & Hne & [-> | (fp & Hf & _ & ->)]).
  - eexists. now apply of_str_integer.
  - eexists. now apply of_str_decimal.
Qed.

(** ** utils.py: [validate_currency_amount] *)

Lemma validate_currency_amount_unfold (amount_str : string) :
  Utils.validate_currency_amount amount_str =
    if Re.match_to_end Utils.amount_pattern (Utils.clean_amount amount_str)
    then match Float.of_str (Utils.clean_amount amount_str) with
         | Ok amount =>
             if Qle_bool amount 0 then (false, 0%Q, Utils.MSG_AMOUNT_POSITIVE)
             else (true, amount, EmptyString)
         | Raise _ => (false, 0%Q, Utils.MSG_AMOUNT_PARSE)
         end
    else (false, 0%Q, Utils.MSG_AMOUNT_FORMAT).
Proof.
  unfold Utils.validate_currency_amount.
  destruct (Re.match_to_end _ _); simpl; [|reflexivity].
  destruct (Float.of_str _) as [?|[?]]; reflexivity.
Qed.

(** The handler of [ValueError] around [float] is never entered. *)
Lemma validate_currency_amount_never_parse_error (amount_str : string) :
  snd (Utils.validate_currency_amount amount_str) <> Utils.MSG_AMOUNT_PARSE.
Proof.
  rewrite validate_currency_amount_unfold.
  destruct (Re.match_to_end _ _) eqn:E; [|discriminate].
  apply match_amount_pattern_clean, amount_shape_value in E as [v Hv].
  unfold amount_value in Hv. rewrite Hv.
  destruct (Qle_bool v 0); discriminate.
Qed.

(** C7: the text is trimmed and its commas turned into dots; the validation
    succeeds exactly when the cleaned text is one or more digits, optionally
    followed by a dot and one or two digits, and the value it denotes is
    above zero; a success returns that value and every failure returns 0.
    So "150.50" succeeds with 150.50, and "150.555" and "-100" fail. *)
Theorem validate_currency_amount_spec :
  (forall amount_str : string,
     let clean_str := Str.replace "," "." (Str.strip amount_str) in
     let outcome := Utils.validate_currency_amount amount_str in
     (fst (fst outcome) = true <->
      amount_shape clean_str /\
      exists v : Q, amount_value clean_str v /\ (0 < v)%Q) /\
     (fst (fst outcome) = true -> amount_value clean_str (snd (fst outcome))) /\
     (fst (fst outcome) = false -> snd (fst outcome) = 0%Q)) /\
  Utils.validate_currency_amount "150.50" = (true, (301 # 2)%Q, EmptyString) /\
  (301 # 2 == 150.50)%Q /\
  fst (fst (Utils.validate_currency_amount "150.555")) = false /\
  fst (fst (Utils.validate_currency_amount "-100")) = false.
Proof.
  split; [|repeat split; reflexivity].
  intro amount_str. cbv zeta.
  change (Str.replace "," "." (Str.strip amount_str))
    with (Utils.clean_amount amount_str).
  rewrite validate_currency_amount_unfold.
  destruct (Re.match_to_end _ _) eqn:E.
  - apply match_amount_pattern_clean in E.
    destruct (amount_shape_value _ E) as [v Hv].
    unfold amount_value in *. rewrite Hv.
    destruct (Qle_bool v 0) eqn:Ev; simpl.
    + split; [|split; [discriminate | reflexivity]].
      split; [discriminate|].
      intros (_ & v' & Hv' & Hpos).
      assert (v' = v) by congruence. subst v'.
      apply Qle_bool_iff in Ev. exfalso. exact (Qlt_not_le _ _ Hpos Ev).
    + split; [|split; [reflexivity | discriminate]].
      split; [|reflexivity].
      intros _. split; [exact E|].
      exists v. split; [reflexivity|]. now apply Qle_bool_false_iff.
  - simpl. split; [|split; [discriminate | reflexivity]].
    split; [discriminate|].
    intros (Hshape & _). apply match_amount_pattern_clean in Hshape. congruence.
Qed.

Lemma validate_currency_amount_spec_witness :
  amount_value "150.5" (snd (fst (Utils.validate_currency_amount "  150,5 "))).
Proof.
  apply (proj1 (proj2 (proj1 validate_currency_amount_spec "  150,5 "))).
  reflexivity.
Defined.

(** ** storage.py: rows, order and keys *)

Lemma insert_by_perm {A : Type} (before : A -> A -> bool) (x : A) (l : list A) :
  Permutation (Sql.insert_by before x l) (x :: l).
Proof.
  induction l as [|y l IH]; simpl; [reflexivity|].
  destruct (before y x); [|reflexivity].
  rewrite IH. apply perm_swap.
Qed.

(** [ORDER BY] rearranges the rows and nothing else. *)
Lemma order_by_perm {A : Type} (before : A -> A -> bool) (l : list A) :
  Permutation (Sql.order_by before l) l.
Proof.
  induction l as [|x l IH]; simpl; [reflexivity|].
  rewrite insert_by_perm. now constructor.
Qed.

Lemma order_by_In {A : Type} (before : A -> A -> bool) (l : list A) (x : A) :
  In x (Sql.order_by before l) <-> In x l.
Proof.
  split; apply Permutation_in;
    [apply order_by_perm | symmetry; apply order_by_perm].
Qed.

Lemma filter_split_length {A : Type} (f : A -> bool) (l : list A) :
  (List.length (filter f l) + List.length (filter (fun x => negb (f x)) l)
   = List.length l)%nat.
Proof.
  induction l as [|x l IH]; simpl; [reflexivity|].
  destruct (f x); simpl; lia.
Qed.

Lemma filter_all_kept {A : Type} (f : A -> bool) (l : list A) :
  filter f l = l <-> filter (fun x => negb (f x)) l = [].
Proof.
  induction l as [|x l IH]; simpl; [tauto|].
  destruct (f x) eqn:E; simpl.
  - rewrite <- IH. split; [intro H; now injection H | intro H; now rewrite H].
  - split; [|discriminate]. intro H.
    assert (Hin : In x (filter f l)) by (rewrite H; now left).
    apply filter_In in Hin as [_ Hx]. congruence.
Qed.

Lemma max_id_ge (ids : list Z) (i : Z) : In i ids -> i <= Sql.max_id ids.
Proof.
  unfold Sql.max_id. induction ids as [|j ids IH]; simpl; [tauto|].
  intros [-> | H]; [lia | specialize (IH H); lia].
Qed.

Lemma next_rowid_fresh (seq : Z) (ids : list Z) : ~ In (Sql.next_rowid seq ids) ids.
Proof.
  intro H. apply max_id_ge in H. unfold Sql.next_rowid in H. lia.
Qed.

Lemma next_rowid_positive (seq : Z) (ids : list Z) : 0 < Sql.next_rowid seq ids.
Proof.
  unfold Sql.next_rowid, Sql.max_id.
  assert (0 <= fold_right Z.max 0 ids) by (induction ids; simpl; lia). lia.
Qed.

Lemma NoDup_snoc (ids : list Z) (i : Z) :
  NoDup ids -> ~ In i ids -> NoDup (ids ++ [i])%list.
Proof.
  intros Hnd Hni. apply (Permutation_NoDup (l := i :: ids)).
  - apply Permutation_cons_append.
  - now constructor.
Qed.

Lemma NoDup_map_filter {A : Type} (g : A -> Z) (f : A -> bool) (l : list A) :
  NoDup (map g l) -> NoDup (map g (filter f l)).
Proof.
  induction l as [|x l IH]; simpl; [auto|].
  intro H. inversion H as [|? ? Hni Hnd]; subst.
  destruct (f x); simpl; [|now apply IH].
  constructor; [|now apply IH].
  intro Hin. apply Hni. apply in_map_iff in Hin as (y & Hy & Hin).
  apply in_map_iff. exists y. split; [exact Hy|].
  now apply filter_In in Hin as [Hin _].
Qed.

(** Under a key, at most one row answers to an id. *)
Lemma key_selects_at_most_one {A : Type} (g : A -> Z) (k : Z) (l : list A) :
  NoDup (map g l) -> (List.length (filter (fun r => (g r =? k)%Z) l) <= 1)%nat.
Proof.
  induction l as [|x l IH]; simpl; [lia|].
  intro H. inversion H as [|? ? Hni Hnd]; subst.
  destruct (g x =? k) eqn:E; [|now apply IH].
  apply Z.eqb_eq in E. simpl.
  assert (Hnone : filter (fun r => g r =? k) l = []).
  { destruct (filter (fun r => g r =? k) l) as [|y ?] eqn:Ef; [reflexivity|].
    assert (Hy : In y (filter (fun r => g r =? k) l)) by (rewrite Ef; now left).
    apply filter_In in Hy as [Hy Hk]. apply Z.eqb_eq in Hk.
    exfalso. apply Hni. rewrite E, <- Hk. now apply in_map. }
  rewrite Hnone. simpl. lia.
Qed.

Lemma update_actual_spent_ids (trip_id : Z) (db : Sql.database) :
  map TripsRow.id (Sql.trips (Sql.update_actual_spent trip_id db))
  = map TripsRow.id (Sql.trips db).
Proof.
  unfold Sql.update_actual_spent. simpl. rewrite map_map.
  apply map_ext. intro r. now destruct (TripsRow.id r =? trip_id).
Qed.

Lemma update_trip_ids (t : Trip.t) (db : Sql.database) :
  map TripsRow.id (Sql.trips (snd (TravelStorage.update_trip db t)))
  = map TripsRow.id (Sql.trips db).
Proof.
  unfold TravelStorage.update_trip, Sql.update_trip. simpl. rewrite map_map.
  apply map_ext. intro r. destruct (Trip.id t) as [i|]; [|reflexivity].
  now destruct (TripsRow.id r =? i).
Qed.

(** Every database the application reaches keeps its primary keys. *)
Lemma reachable_primary_keys (db : Sql.database) :
  TravelStorage.reachable db -> Sql.primary_keys db.
Proof.
  unfold Sql.primary_keys.
  induction 1 as [|db t _ [IHt IHe]|db e _ [IHt IHe]|db i _ [IHt IHe]
                  |db i _ [IHt IHe]|db t _ [IHt IHe]].
  - split; constructor.
  - unfold TravelStorage.add_trip, Sql.insert_trip. simpl. split; [|exact IHe].
    rewrite map_app. simpl. apply NoDup_snoc; [exact IHt | apply next_rowid_fresh].
  - unfold TravelStorage.add_expense, Sql.insert_expense. simpl. split.
    + rewrite map_map.
      erewrite map_ext; [exact IHt|].
      intro r. simpl.
      now destruct (TripsRow.id r =? Expense.trip_id e).
    + rewrite map_app. simpl. apply NoDup_snoc; [exact IHe | apply next_rowid_fresh].
  - unfold TravelStorage.delete_trip, Sql.delete_trip. simpl.
    split; [now apply NoDup_map_filter | exact IHe].
  - unfold TravelStorage.delete_expense, Sql.delete_expense. simpl.
    split; [exact IHt | now apply NoDup_map_filter].
  - split; [now rewrite update_trip_ids | exact IHe].
Qed.

(** ** storage.py: [delete_expense] *)

Lemma delete_expense_unfold (db : Sql.database) (expense_id : Z) :
  TravelStorage.delete_expense db expense_id =
    (Z.of_nat (List.length
                 (filter (fun r => ExpensesRow.id r =? expense_id) (Sql.expenses db)))
     >? 0,
     Sql.mkdb (Sql.trips db) (Sql.trips_seq db)
              (filter (fun r => negb (ExpensesRow.id r =? expense_id)) (Sql.expenses db))
              (Sql.expenses_seq db)).
Proof. reflexivity. Qed.

(** C9: on a database that keeps its primary keys, [delete_expense] leaves
    the trips table as it was (so every trip reads back with the
    [actual_spent] it had), keeps every expense row with another id, removes
    at most one row, and returns true exactly when it removed one. *)
Theorem delete_expense_frame :
  forall (db : Sql.database) (expense_id : Z),
    Sql.primary_keys db ->
    let ok := fst (TravelStorage.delete_expense db expense_id) in
    let db' := snd (TravelStorage.delete_expense db expense_id) in
    Sql.trips db' = Sql.trips db /\
    TravelStorage.get_all_trips db' = TravelStorage.get_all_trips db /\
    (forall trip_id : Z,
       option_map Trip.actual_spent (TravelStorage.get_trip_by_id db' trip_id)
       = option_map Trip.actual_spent (TravelStorage.get_trip_by_id db trip_id)) /\
    Sql.expenses db'
    = filter (fun r => negb (ExpensesRow.id r =? expense_id)) (Sql.expenses db) /\
    (forall r : ExpensesRow.t,
       In r (Sql.expenses db') <->
       In r (Sql.expenses db) /\ ExpensesRow.id r <> expense_id) /\
    (List.length (Sql.expenses db) <= List.length (Sql.expenses db') + 1)%nat /\
    (ok = true <->
     (List.length (Sql.expenses db') + 1 = List.length (Sql.expenses db))%nat) /\
    (ok = false <-> Sql.expenses db' = Sql.expenses db).
Proof.
  intros db expense_id [_ Hkey]. cbv zeta.
  rewrite delete_expense_unfold. simpl.
  pose proof (key_selects_at_most_one ExpensesRow.id expense_id _ Hkey) as Hone.
  pose proof (filter_split_length
                (fun r => ExpensesRow.id r =? expense_id) (Sql.expenses db)) as Hlen.
  split; [reflexivity|]. split; [reflexivity|]. split; [reflexivity|].
  split; [reflexivity|]. split; [|split; [lia|split]].
  - intro r. rewrite filter_In, negb_true_iff, Z.eqb_neq. tauto.
  - rewrite Z.gtb_lt. lia.
  - rewrite filter_all_kept.
    rewrite (filter_ext (fun x => negb (negb (ExpensesRow.id x =? expense_id)))
                        (fun x => ExpensesRow.id x =? expense_id))
      by (intro x; apply negb_involutive).
    destruct (filter (fun r => ExpensesRow.id r =? expense_id) (Sql.expenses db));
      simpl; split; intro H; try reflexivity; discriminate.
Qed.

Lemma delete_expense_frame_witness :
  Sql.trips (snd (TravelStorage.delete_expense db_one_expense 1))
  = Sql.trips db_one_expense /\
  (fst (TravelStorage.delete_expense db_one_expense 1) = true <->
   (List.length (Sql.expenses (snd (TravelStorage.delete_expense db_one_expense 1))) + 1
    = List.length (Sql.expenses db_one_expense))%nat).
Proof.
  assert (Hkeys : Sql.primary_keys db_one_expense).
  { split; vm_compute; (constructor; [intros [] | constructor]). }
  pose proof (delete_expense_frame db_one_expense 1 Hkeys) as H.
  cbv zeta in H. split; [apply H|]. apply H.
Defined.

(** The fixture is one of the databases the application reaches. *)
Example db_one_expense_reachable : TravelStorage.reachable db_one_expense.
Proof.
  apply TravelStorage.reach_add_expense, TravelStorage.reach_add_trip.
  apply TravelStorage.reach_init.
Qed.

(** After the only expense of the trip is deleted the trip still reads back
    with the 150 that [add_expense] had stored. *)
Example delete_expense_keeps_actual_spent :
  option_map Trip.actual_spent
    (TravelStorage.get_trip_by_id
       (snd (TravelStorage.delete_expense db_one_expense 1)) 1) = Some 150%Q /\
  TravelStorage.get_total_expenses_by_trip
    (snd (TravelStorage.delete_expense db_one_expense 1)) 1 = 0%Q.
Proof. split; reflexivity. Qed.

(** ** storage.py: [add_expense] *)

Lemma get_all_trips_In (db : Sql.database) (t : Trip.t) :
  In t (TravelStorage.get_all_trips db) <->
  exists row, In row (Sql.trips db) /\ t = TravelStorage.trip_of_row row.
Proof.
  unfold TravelStorage.get_all_trips, Sql.select_trips. rewrite in_map_iff.
  split; intros (row & H1 & H2).
  - exists row. apply order_by_In in H2. now split.
  - exists row. split; [now symmetry | now apply order_by_In].
Qed.

Lemma has_id_trip_of_row (trip_id : Z) (row : TripsRow.t) :
  TravelStorage.has_id trip_id (TravelStorage.trip_of_row row) = true <->
  TripsRow.id row = trip_id.
Proof. unfold TravelStorage.has_id. simpl. apply Z.eqb_eq. Qed.

(** [get_trip_by_id] returns a trip exactly when a row has the id, and the
    trip it returns is built from such a row. *)
Lemma get_trip_by_id_some (db : Sql.database) (trip_id : Z) (t : Trip.t) :
  TravelStorage.get_trip_by_id db trip_id = Some t ->
  exists row, In row (Sql.trips db) /\ TripsRow.id row = trip_id /\
              t = TravelStorage.trip_of_row row.
Proof.
  unfold TravelStorage.get_trip_by_id. intro H.
  apply find_some in H as [Hin Hid].
  apply get_all_trips_In in Hin as (row & Hrow & ->).
  exists row. split; [exact Hrow|]. split; [|reflexivity].
  now apply has_id_trip_of_row.
Qed.

Lemma get_trip_by_id_found (db : Sql.database) (trip_id : Z) :
  (exists row, In row (Sql.trips db) /\ TripsRow.id row = trip_id) ->
  exists t, TravelStorage.get_trip_by_id db trip_id = Some t.
Proof.
  intros (row & Hrow & Hid). unfold TravelStorage.get_trip_by_id.
  destruct (find _ _) as [t|] eqn:E; [now exists t|].
  exfalso.
  assert (Hin : In (TravelStorage.trip_of_row row) (TravelStorage.get_all_trips db))
    by (apply get_all_trips_In; eauto).
  pose proof (find_none _ _ E _ Hin) as Hno.
  apply has_id_trip_of_row in Hid. congruence.
Qed.

Lemma add_expense_unfold (db : Sql.database) (e : Expense.t) :
  let rowid := Sql.next_rowid (Sql.expenses_seq db)
                              (map ExpensesRow.id (Sql.expenses db)) in
  let row := ExpensesRow.mk rowid (Expense.trip_id e) (Expense.amount e)
               (Expense.currency e) (Expense.category e) (Expense.date e)
               (Expense.description e) (Expense.payment_method e)
               (Expense.location e) in
  let db1 := Sql.mkdb (Sql.trips db) (Sql.trips_seq db)
                      (Sql.expenses db ++ [row])%list rowid in
  TravelStorage.add_expense db e
  = (TravelStorage.or_zero rowid, Sql.update_actual_spent (Expense.trip_id e) db1).
Proof. reflexivity. Qed.

(** [add_expense] returns the id of the inserted row, never 0. *)
Lemma add_expense_returns_rowid (db : Sql.database) (e : Expense.t) :
  fst (TravelStorage.add_expense db e)
  = Sql.next_rowid (Sql.expenses_seq db) (map ExpensesRow.id (Sql.expenses db)) /\
  0 < fst (TravelStorage.add_expense db e).
Proof.
  rewrite add_expense_unfold. simpl. unfold TravelStorage.or_zero.
  pose proof (next_rowid_positive (Sql.expenses_seq db)
                (map ExpensesRow.id (Sql.expenses db))) as Hpos.
  destruct (Z.eqb_spec (Sql.next_rowid (Sql.expenses_seq db)
                          (map ExpensesRow.id (Sql.expenses db))) 0); [lia|].
  now split.
Qed.

(** The total the UPDATE of [add_expense] writes stays the total of the
    database [add_expense] leaves. *)
Lemma update_actual_spent_total (trip_id k : Z) (db : Sql.database) :
  Sql.total_amount k (Sql.update_actual_spent trip_id db) = Sql.total_amount k db.
Proof. reflexivity. Qed.

Lemma fold_left_Qplus_snoc (xs : list Q) (x a : Q) :
  fold_left Qplus (xs ++ [a])%list x = (fold_left Qplus xs x + a)%Q.
Proof. now rewrite fold_left_app. Qed.

(** One more amount adds to the total. *)
Lemma total_snoc (xs : list Q) (a : Q) :
  (Sql.COALESCE (Sql.SUM (xs ++ [a])%list) 0 == Sql.COALESCE (Sql.SUM xs) 0 + a)%Q.
Proof.
  destruct xs as [|x xs]; simpl.
  - now rewrite Qplus_0_l.
  - now rewrite fold_left_Qplus_snoc.
Qed.

Lemma add_expense_trip_rows (db : Sql.database) (e : Expense.t) (row : TripsRow.t) :
  In row (Sql.trips (snd (TravelStorage.add_expense db e))) ->
  TripsRow.id row = Expense.trip_id e ->
  TripsRow.actual_spent row
  = Sql.total_amount (Expense.trip_id e) (snd (TravelStorage.add_expense db e)).
Proof.
  rewrite add_expense_unfold. cbv zeta. simpl snd.
  rewrite update_actual_spent_total.
  unfold Sql.update_actual_spent at 1. simpl.
  intros Hin Hid. apply in_map_iff in Hin as (r & Hr & _). subst row.
  destruct (TripsRow.id r =? Expense.trip_id e) eqn:E; [reflexivity|].
  apply Z.eqb_neq in E. contradiction.
Qed.

Lemma add_expense_keeps_trip_ids (db : Sql.database) (e : Expense.t) :
  map TripsRow.id (Sql.trips (snd (TravelStorage.add_expense db e)))
  = map TripsRow.id (Sql.trips db).
Proof.
  rewrite add_expense_unfold. cbv zeta. simpl snd.
  now rewrite update_actual_spent_ids.
Qed.

(** The new total is the old total and the new amount. *)
Lemma add_expense_total (db : Sql.database) (e : Expense.t) :
  (Sql.total_amount (Expense.trip_id e) (snd (TravelStorage.add_expense db e))
   == Sql.total_amount (Expense.trip_id e) db + Expense.amount e)%Q.
Proof.
  rewrite add_expense_unfold. cbv zeta. simpl snd.
  rewrite update_actual_spent_total. unfold Sql.total_amount. simpl.
  rewrite filter_app. simpl. rewrite Z.eqb_refl, map_app. simpl.
  apply total_snoc.
Qed.

(** C2: when the trip of the expense exists, after [add_expense] the trip
    reads back with an [actual_spent] equal to the sum of the amounts of all
    expense rows then recorded for it, the new one included. *)
Theorem add_expense_reconciles_actual_spent :
  forall (db : Sql.database) (expense : Expense.t),
    (exists row, In row (Sql.trips db) /\ TripsRow.id row = Expense.trip_id expense) ->
    let trip_id := Expense.trip_id expense in
    let db' := snd (TravelStorage.add_expense db expense) in
    let recorded :=
      filter (fun r => ExpensesRow.trip_id r =? trip_id) (Sql.expenses db') in
    (exists trip : Trip.t, TravelStorage.get_trip_by_id db' trip_id = Some trip) /\
    (forall trip : Trip.t,
       In trip (TravelStorage.get_all_trips db') -> Trip.id trip = Some trip_id ->
       Trip.actual_spent trip
       = Sql.COALESCE (Sql.SUM (map ExpensesRow.amount recorded)) 0%Q /\
       Trip.actual_spent trip = TravelStorage.get_total_expenses_by_trip db' trip_id /\
       (Trip.actual_spent trip
        == TravelStorage.get_total_expenses_by_trip db trip_id
           + Expense.amount expense)%Q).
Proof.
  intros db e (row & Hrow & Hid). cbv zeta. split.
  - apply get_trip_by_id_found.
    assert (Hin : In (TripsRow.id row)
                     (map TripsRow.id
                          (Sql.trips (snd (TravelStorage.add_expense db e)))))
      by (rewrite add_expense_keeps_trip_ids; now apply in_map).
    apply in_map_iff in Hin as (row' & Hid' & Hin). exists row'. split; congruence.
  - intros t Hin Ht. apply get_all_trips_In in Hin as (row' & Hin & ->).
    simpl in Ht. injection Ht as Ht.
    pose proof (add_expense_trip_rows db e row' Hin Ht) as Hspent.
    unfold TravelStorage.get_total_expenses_by_trip. simpl.
    split; [exact Hspent|]. split; [exact Hspent|].
    rewrite Hspent. apply add_expense_total.
Qed.

Lemma add_expense_reconciles_actual_spent_witness :
  (exists trip : Trip.t,
     TravelStorage.get_trip_by_id db_one_expense 1 = Some trip) /\
  (forall trip : Trip.t,
     In trip (TravelStorage.get_all_trips db_one_expense) -> Trip.id trip = Some 1 ->
     Trip.actual_spent trip = 150%Q).
Proof.
  pose proof (add_expense_reconciles_actual_spent db_one_trip (test_expense 1)) as H.
  cbv zeta in H. split.
  - apply H. eexists. split; [left; reflexivity | reflexivity].
  - intros trip Hin Hid. apply H; [|exact Hin | exact Hid].
    eexists. split; [left; reflexivity | reflexivity].
Defined.

(** The test of storage, run on the model: a trip that spent nothing reads
    back with 150 after one expense of 150. *)
Example add_expense_150 :
  option_map Trip.actual_spent (TravelStorage.get_trip_by_id db_one_trip 1)
  = Some 0%Q /\
  fst (TravelStorage.add_expense db_one_trip (test_expense 1)) = 1 /\
  option_map Trip.actual_spent (TravelStorage.get_trip_by_id db_one_expense 1)
  = Some 150%Q /\
  option_map (map Expense.amount)
    (match TravelStorage.get_expenses_by_trip db_one_expense 1 with
     | Ok l => Some l
     | Raise _ => None
     end) = Some [150%Q].
Proof. repeat split; reflexivity. Qed.

(** ** storage.py: [delete_trip] *)

Lemma delete_trip_unfold (db : Sql.database) (trip_id : Z) :
  TravelStorage.delete_trip db trip_id =
    (Z.of_nat (List.length (filter (fun r => TripsRow.id r =? trip_id) (Sql.trips db)))
     >? 0,
     Sql.mkdb (filter (fun r => negb (TripsRow.id r =? trip_id)) (Sql.trips db))
              (Sql.trips_seq db) (Sql.expenses db) (Sql.expenses_seq db)).
Proof. reflexivity. Qed.

(** On the connection [delete_trip] opens, the expenses table comes out of
    the DELETE as it went in. *)
Lemma delete_trip_keeps_expenses (db : Sql.database) (trip_id : Z) :
  Sql.expenses (snd (TravelStorage.delete_trip db trip_id)) = Sql.expenses db.
Proof. now rewrite delete_trip_unfold. Qed.

Lemma delete_trip_true_iff (db : Sql.database) (trip_id : Z) :
  fst (TravelStorage.delete_trip db trip_id) = true <->
  exists row, In row (Sql.trips db) /\ TripsRow.id row = trip_id.
Proof.
  rewrite delete_trip_unfold. simpl. rewrite Z.gtb_lt. split.
  - destruct (filter _ (Sql.trips db)) as [|row l] eqn:E; simpl; [lia|].
    intros _. exists row.
    assert (Hin : In row (filter (fun r => TripsRow.id r =? trip_id) (Sql.trips db)))
      by (rewrite E; now left).
    apply filter_In in Hin as [Hin Hid]. apply Z.eqb_eq in Hid. now split.
  - intros (row & Hin & Hid).
    assert (Hf : In row (filter (fun r => TripsRow.id r =? trip_id) (Sql.trips db)))
      by (apply filter_In; split; [exact Hin | now apply Z.eqb_eq]).
    destruct (filter _ (Sql.trips db)); [contradiction | simpl; lia].
Qed.

(** The trip is gone after a deletion that returned true. *)
Lemma delete_trip_removes_trip (db : Sql.database) (trip_id : Z) :
  TravelStorage.get_trip_by_id (snd (TravelStorage.delete_trip db trip_id)) trip_id
  = None.
Proof.
  destruct (TravelStorage.get_trip_by_id _ _) as [t|] eqn:E; [|reflexivity].
  apply get_trip_by_id_some in E as (row & Hin & Hid & _).
  rewrite delete_trip_unfold in Hin. simpl in Hin.
  apply filter_In in Hin as [_ Hne].
  apply negb_true_iff, Z.eqb_neq in Hne. contradiction.
Qed.

(** C1, where the code departs from it: deleting the trip of
    [db_one_expense] returns true and removes the trip, and the expense of
    150 recorded under it is still what [get_expenses_by_trip] reads back
    afterwards, not the empty list. *)
Theorem delete_trip_leaves_expenses_behind :
  fst (TravelStorage.delete_trip db_one_expense 1) = true /\
  TravelStorage.get_all_trips (snd (TravelStorage.delete_trip db_one_expense 1)) = [] /\
  TravelStorage.get_expenses_by_trip (snd (TravelStorage.delete_trip db_one_expense 1)) 1
  = Ok [Expense.mk (Some 1) 1 150 "USD" ExpenseCategory.TRANSPORT None "" "Наличные" ""] /\
  TravelStorage.get_expenses_by_trip (snd (TravelStorage.delete_trip db_one_expense 1)) 1
  <> Ok [].
Proof.
  split; [reflexivity|]. split; [reflexivity|]. split; [reflexivity|].
  vm_compute. discriminate.
Qed.

(** What the clause ON DELETE CASCADE does on a connection that enforces
    foreign keys: once a trip row is deleted no expense row refers to it. *)
Lemma delete_trip_cascades_when_enforced (db : Sql.database) (trip_id : Z) :
  let conn := Sql.pragma_foreign_keys_on Sql.connect in
  0 < fst (Sql.delete_trip conn trip_id db) ->
  Sql.select_expenses_by_trip trip_id (snd (Sql.delete_trip conn trip_id db)) = [].
Proof.
  cbv zeta. unfold Sql.delete_trip, Sql.select_expenses_by_trip. simpl.
  destruct (filter (fun r => TripsRow.id r =? trip_id) (Sql.trips db)); simpl; [lia|].
  intros _.
  assert (Hnone : filter (fun r => ExpensesRow.trip_id r =? trip_id)
                    (filter (fun r => negb (ExpensesRow.trip_id r =? trip_id))
                            (Sql.expenses db)) = []).
  { induction (Sql.expenses db) as [|r rows IH]; simpl; [reflexivity|].
    destruct (ExpensesRow.trip_id r =? trip_id) eqn:E; simpl; [exact IH|].
    now rewrite E. }
  now rewrite Hnone.
Qed.

(** ** analysis.py *)

Lemma trip_rows_new (trips : list Trip.t) (expenses : list Expense.t) (trip_id : Z) :
  TravelAnalyzer.trip_rows (TravelAnalyzer.new trips expenses) trip_id
  = map TravelAnalyzer.expenses_frame_row
        (filter (fun e => Expense.trip_id e =? trip_id) expenses).
Proof.
  unfold TravelAnalyzer.trip_rows, TravelAnalyzer.new,
    TravelAnalyzer.create_expenses_dataframe. simpl.
  induction expenses as [|e l IH]; simpl; [reflexivity|].
  destruct (Expense.trip_id e =? trip_id); simpl; now rewrite IH.
Qed.

Lemma trip_rows_count (trips : list Trip.t) (expenses : list Expense.t) (trip_id : Z) :
  List.length (TravelAnalyzer.trip_rows (TravelAnalyzer.new trips expenses) trip_id)
  = TravelAnalyzer.trip_expense_count (TravelAnalyzer.new trips expenses) trip_id.
Proof.
  rewrite trip_rows_new. unfold TravelAnalyzer.trip_expense_count. simpl.
  apply length_map.
Qed.

(** The summary of a trip without expenses: [{}] when the analyzer holds no
    expense at all, the zero summary when it holds some of other trips. *)
Lemma summary_without_expenses
    (trips : list Trip.t) (expenses : list Expense.t) (trip_id : Z) :
  TravelAnalyzer.trip_expense_count (TravelAnalyzer.new trips expenses) trip_id = 0%nat ->
  TravelAnalyzer.get_trip_expense_summary (TravelAnalyzer.new trips expenses) trip_id
  = match expenses with
    | [] => Summary.Empty
    | _ :: _ => Summary.zero
    end.
Proof.
  intro Hcount. rewrite <- trip_rows_count in Hcount.
  unfold TravelAnalyzer.get_trip_expense_summary.
  destruct expenses as [|e l]; [reflexivity|].
  change (TravelAnalyzer.empty
            (TravelAnalyzer.df_expenses (TravelAnalyzer.new trips (e :: l))))
    with false.
  cbv iota.
  destruct (TravelAnalyzer.trip_rows _ trip_id); [reflexivity | discriminate].
Qed.

(** The expense count of a filled summary is the number of the trip's
    expenses. *)
Lemma summary_expense_count
    (trips : list Trip.t) (expenses : list Expense.t) (trip_id : Z) (f : Summary.fields) :
  TravelAnalyzer.get_trip_expense_summary (TravelAnalyzer.new trips expenses) trip_id
  = Summary.Filled f ->
  Summary.expense_count f
  = Z.of_nat (TravelAnalyzer.trip_expense_count
                (TravelAnalyzer.new trips expenses) trip_id).
Proof.
  rewrite <- trip_rows_count.
  unfold TravelAnalyzer.get_trip_expense_summary.
  destruct (TravelAnalyzer.empty _); [discriminate|].
  destruct (TravelAnalyzer.trip_rows _ trip_id) as [|r l]; simpl TravelAnalyzer.empty;
    cbv iota; intro H; injection H as <-; reflexivity.
Qed.

(** C5 as first stated fails: an analyzer built over no expense answers
    [{}], not the zero summary, for a trip that (like every trip then) has
    no expense. *)
Lemma summary_of_empty_analyzer :
  TravelAnalyzer.trip_expense_count (TravelAnalyzer.new [test_trip] []) 1 = 0%nat /\
  TravelAnalyzer.get_trip_expense_summary (TravelAnalyzer.new [test_trip] []) 1
  = Summary.Empty /\
  TravelAnalyzer.get_trip_expense_summary (TravelAnalyzer.new [test_trip] []) 1
  <> Summary.zero.
Proof.
  split; [reflexivity|]. split; [reflexivity|]. discriminate.
Qed.

(** C5, amended: for a trip without expenses the summary is the all-zero one
    (total 0, no category, daily average 0, maximum 0, count 0) when the
    analyzer holds at least one expense, and the empty dictionary when it
    holds none. *)
Theorem summary_of_trip_without_expenses :
  forall (trips : list Trip.t) (expenses : list Expense.t) (trip_id : Z),
    TravelAnalyzer.trip_expense_count (TravelAnalyzer.new trips expenses) trip_id
    = 0%nat ->
    (expenses <> [] ->
     TravelAnalyzer.get_trip_expense_summary (TravelAnalyzer.new trips expenses) trip_id
     = Summary.Filled (Summary.mk 0%Q [] 0%Q 0%Q 0)) /\
    (expenses = [] ->
     TravelAnalyzer.get_trip_expense_summary (TravelAnalyzer.new trips expenses) trip_id
     = Summary.Empty).
Proof.
  intros trips expenses trip_id Hcount.
  rewrite (summary_without_expenses trips expenses trip_id Hcount).
  split.
  - intro Hne. destruct expenses; [congruence | reflexivity].
  - intros ->. reflexivity.
Qed.

Lemma summary_of_trip_without_expenses_witness :
  TravelAnalyzer.get_trip_expense_summary
    (TravelAnalyzer.new [test_trip] fixture_expenses) 2
  = Summary.Filled (Summary.mk 0%Q [] 0%Q 0%Q 0).
Proof.
  apply (proj1 (summary_of_trip_without_expenses [test_trip] fixture_expenses 2
                  eq_refl)).
  discriminate.
Defined.

(** The summary test of tests.py, run on the model. *)
Example expense_summary_fixture :
  TravelAnalyzer.get_trip_expense_summary
    (TravelAnalyzer.new [test_trip] fixture_expenses) 1
  = Summary.Filled
      (Summary.mk 350%Q
         [(ExpenseCategory.value ExpenseCategory.FOOD, 150%Q);
          (ExpenseCategory.value ExpenseCategory.TRANSPORT, 200%Q)]
         350%Q 200%Q 3).
Proof. reflexivity. Qed.

Lemma firstn_nonempty {A : Type} (n : nat) (l : list A) :
  l <> [] -> (1 <= List.length (firstn (S n) l))%nat.
Proof. destruct l; [congruence | simpl; lia]. Qed.

(** C6: for every analyzer and trip id the list of recommendations has at
    most five entries (and at least one), and when the trip has no expense
    it is the single entry that says there is no data. *)
Theorem recommendations_at_most_five :
  forall (trips : list Trip.t) (expenses : list Expense.t) (trip_id : Z),
    (1 <= List.length
            (TravelAnalyzer.get_trip_recommendations
               (TravelAnalyzer.new trips expenses) trip_id) <= 5)%nat /\
    (TravelAnalyzer.trip_expense_count (TravelAnalyzer.new trips expenses) trip_id
     = 0%nat ->
     TravelAnalyzer.get_trip_recommendations (TravelAnalyzer.new trips expenses) trip_id
     = [NO_DATA]).
Proof.
  intros trips expenses trip_id. split.
  - unfold TravelAnalyzer.get_trip_recommendations.
    destruct (TravelAnalyzer.get_trip_expense_summary _ _) as [|f]; [simpl; lia|].
    destruct (Summary.expense_count f =? 0); [simpl; lia|].
    cbv zeta. split; [|apply firstn_le_length].
    apply firstn_nonempty.
    destruct (if TravelAnalyzer.Qgtb (Summary.total f) 0
              then (TravelAnalyzer.category_warnings (Summary.total f)
                      (Summary.by_category f)
                    ++ TravelAnalyzer.daily_notes (Summary.daily_avg f))%list
              else []); simpl; discriminate.
  - intro Hcount. unfold TravelAnalyzer.get_trip_recommendations.
    destruct (TravelAnalyzer.get_trip_expense_summary _ _) as [|f] eqn:E;
      [reflexivity|].
    apply summary_expense_count in E. rewrite Hcount in E. simpl in E.
    now rewrite E.
Qed.

Lemma recommendations_at_most_five_witness :
  TravelAnalyzer.get_trip_recommendations
    (TravelAnalyzer.new [test_trip] fixture_expenses) 2 = [NO_DATA] /\
  TravelAnalyzer.get_trip_recommendations (TravelAnalyzer.new [test_trip] []) 1
  = [NO_DATA].
Proof.
  split.
  - apply (proj2 (recommendations_at_most_five [test_trip] fixture_expenses 2)).
    reflexivity.
  - apply (proj2 (recommendations_at_most_five [test_trip] [] 1)).
    reflexivity.
Defined.

Example recommendations_fixture :
  TravelAnalyzer.get_trip_recommendations
    (TravelAnalyzer.new [test_trip] fixture_expenses) 1
  = [CATEGORY_SHARE (ExpenseCategory.value ExpenseCategory.TRANSPORT) (20000 # 350)%Q;
     DAILY_HIGH 350%Q].
Proof. reflexivity. Qed.

(** ** [strptime] reads back what [isoformat] writes *)

Lemma digit_chr_table :
  forallb (fun k => Str.isdigit (digit_chr k) && (Str.digit_value (digit_chr k) =? k))
          (Z_range 0 10) = true.
Proof. vm_compute. reflexivity. Qed.

Lemma digit_chr_spec (n : Z) :
  0 <= n <= 9 ->
  Str.isdigit (digit_chr n) = true /\ Str.digit_value (digit_chr n) = n.
Proof.
  intro H. pose proof digit_chr_table as T. rewrite forallb_forall in T.
  assert (Hin : In n (Z_range 0 10)) by (vm_compute; lia).
  apply T, andb_true_iff in Hin as [Hd Hv]. apply Z.eqb_eq in Hv. now split.
Qed.

Lemma zfill4_digits (y : Z) :
  0 <= y <= 9999 -> digits (zfill4 y) /\ Str.int_of_digits (zfill4 y) = y.
Proof.
  intro H. unfold zfill4, zfill2, digits.
  assert (Ha : 0 <= y / 1000 mod 10 <= 9) by (Z.div_mod_to_equations; lia).
  assert (Hb : 0 <= y / 100 mod 10 <= 9) by (Z.div_mod_to_equations; lia).
  assert (Hc : 0 <= y / 10 mod 10 <= 9) by (Z.div_mod_to_equations; lia).
  assert (Hd : 0 <= y mod 10 <= 9) by (Z.div_mod_to_equations; lia).
  destruct (digit_chr_spec _ Ha) as [Ia Va], (digit_chr_spec _ Hb) as [Ib Vb],
    (digit_chr_spec _ Hc) as [Ic Vc], (digit_chr_spec _ Hd) as [Id Vd].
  split.
  - simpl. now rewrite Ia, Ib, Ic, Id.
  - unfold Str.int_of_digits. cbn [Str.int_of_digits_acc]. rewrite Va, Vb, Vc, Vd.
    clear - H. Z.div_mod_to_equations. lia.
Qed.

Lemma match_group_Y (a b c d : ascii) (rest : string) (gs : list Strptime.group) :
  Str.isdigit a = true -> Str.isdigit b = true ->
  Str.isdigit c = true -> Str.isdigit d = true ->
  Strptime.match_groups (Strptime.group_Y :: gs)
    (String a (String b (String c (String d rest))))
  = map (fun '(ms, rest') =>
           (String a (String b (String c (String d EmptyString))) :: ms, rest'))
        (Strptime.match_groups gs rest).
Proof.
  intros Ha Hb Hc Hd.
  cbn [Strptime.match_groups Strptime.group_Y Strptime.match_group flat_map
       Strptime.match_alternative].
  rewrite Ha, Hb, Hc, Hd. cbn [app flat_map]. apply app_nil_r.
Qed.

Lemma iso_tails_parse :
  forallb (fun m => forallb (iso_tail_parses m) (Z_range 1 31)) (Z_range 1 12) = true.
Proof. vm_compute. reflexivity. Qed.

Lemma iso_tail_parses_all (m d : Z) :
  1 <= m <= 12 -> 1 <= d <= 31 -> iso_tail_parses m d = true.
Proof.
  intros Hm Hd. pose proof iso_tails_parse as H.
  rewrite forallb_forall in H.
  assert (Im : In m (Z_range 1 12)) by (vm_compute; lia).
  specialize (H m Im). rewrite forallb_forall in H.
  apply H. vm_compute. lia.
Qed.

Lemma days_in_month_le_31 (y m : Z) : datetime.days_in_month y m <= 31.
Proof.
  unfold datetime.days_in_month.
  destruct ((m =? 2) && datetime.is_leap y); [lia|].
  unfold datetime.DAYS_IN_MONTH.
  destruct (Z.to_nat m) as [|[|[|[|[|[|[|[|[|[|[|[|[|[|n]]]]]]]]]]]]]]; simpl; lia.
Qed.

Lemma valid_bounds (x : datetime.date) :
  datetime.valid x ->
  1 <= datetime.year x <= 9999 /\ 1 <= datetime.month x <= 12 /\
  1 <= datetime.day x <= datetime.days_in_month (datetime.year x) (datetime.month x).
Proof.
  unfold datetime.valid, datetime.check_date_fields, datetime.MINYEAR, datetime.MAXYEAR.
  rewrite !andb_true_iff, !Z.leb_le. tauto.
Qed.

(** A date that passes the range checks is read back from its ISO text. *)
Theorem strptime_isoformat (x : datetime.date) :
  datetime.valid x -> Strptime.strptime_Ymd (isoformat x) = Ok x.
Proof.
  intro Hv. destruct (valid_bounds x Hv) as (Hy & Hm & Hd).
  pose proof (days_in_month_le_31 (datetime.year x) (datetime.month x)) as H31.
  destruct (zfill4_digits (datetime.year x)) as [Hdig Hint]; [lia|].
  pose proof (iso_tail_parses_all (datetime.month x) (datetime.day x) Hm) as Hp.
  specialize (Hp ltac:(lia)). unfold iso_tail_parses in Hp.
  unfold Strptime.strptime_Ymd, Strptime.format_regex, isoformat.
  assert (Hz : zfill4 (datetime.year x)
               = String (digit_chr (datetime.year x / 1000 mod 10))
                   (String (digit_chr (datetime.year x / 100 mod 10))
                      (String (digit_chr (datetime.year x / 10 mod 10))
                         (String (digit_chr (datetime.year x mod 10)) EmptyString))))
    by reflexivity.
  pose proof (strip_nonspace _ (digits_nonspace _ Hdig)) as Hstrip.
  unfold digits in Hdig. rewrite Hz in Hdig. simpl in Hdig.
  rewrite !andb_true_iff in Hdig. destruct Hdig as (Ia & Ib & Ic & Id & _).
  rewrite Hz at 1. cbn [append].
  rewrite (match_group_Y _ _ _ _ _ _ Ia Ib Ic Id).
  destruct (Strptime.match_groups _ (iso_tail _ _)) as [|[found rest] tl];
    [discriminate|].
  destruct found as [|s1 [|sm [|s2 [|sd [|? ?]]]]]; try discriminate.
  destruct rest; [|discriminate].
  apply andb_true_iff in Hp as [Em Ed]. apply Z.eqb_eq in Em, Ed.
  cbn [map negb String.eqb]. rewrite Em, Ed.
  unfold Strptime.int at 1. rewrite <- Hz.
  rewrite Hstrip, Hint. unfold datetime.new. unfold datetime.valid in Hv. rewrite Hv.
  now destruct x.
Qed.

(** The parse also takes a month or a day of one digit, and a day written
    with a blank in place of the leading zero. *)
Example strptime_unpadded :
  Strptime.strptime_Ymd "2024-6-1" = Ok (datetime.mkdate 2024 6 1) /\
  Strptime.strptime_Ymd "2024-06- 5" = Ok (datetime.mkdate 2024 6 5) /\
  is_ok (Strptime.strptime_Ymd "24-06-05") = false /\
  is_ok (Strptime.strptime_Ymd "2024-13-01") = false /\
  is_ok (Strptime.strptime_Ymd "2024-02-30") = false /\
  is_ok (Strptime.strptime_Ymd "2024-06-10 ") = false /\
  is_ok (Strptime.strptime_Ymd "2024/06/10") = false.
Proof. repeat split; reflexivity. Qed.

(** ** The day count of a date follows the calendar order *)

Lemma days_before_year_succ (y : Z) :
  datetime.days_before_year (y + 1)
  = datetime.days_before_year y + 365 + (if datetime.is_leap y then 1 else 0).
Proof.
  unfold datetime.days_before_year, datetime.is_leap. cbv zeta.
  replace (y + 1 - 1) with y by lia.
  destruct (Z.eqb_spec (y mod 4) 0), (Z.eqb_spec (y mod 100) 0),
    (Z.eqb_spec (y mod 400) 0); cbn [negb andb orb];
    Z.div_mod_to_equations; lia.
Qed.

Lemma days_before_year_mono (y1 y2 : Z) :
  y1 <= y2 -> datetime.days_before_year y1 <= datetime.days_before_year y2.
Proof.
  intro H. replace y2 with (y1 + (y2 - y1)) by lia.
  assert (Hk : 0 <= y2 - y1) by lia. revert Hk.
  generalize (y2 - y1). clear H y2.
  apply natlike_ind.
  - rewrite Z.add_0_r. lia.
  - intros k Hk IH. replace (y1 + Z.succ k) with (y1 + k + 1) by lia.
    rewrite days_before_year_succ. destruct (datetime.is_leap (y1 + k)); lia.
Qed.

Lemma month_cases (m : Z) :
  1 <= m <= 12 ->
  m = 1 \/ m = 2 \/ m = 3 \/ m = 4 \/ m = 5 \/ m = 6 \/
  m = 7 \/ m = 8 \/ m = 9 \/ m = 10 \/ m = 11 \/ m = 12.
Proof. lia. Qed.

(** The days before a month and the days of that month stay within the
    days before any later month, and within the year. *)
Lemma days_before_month_next (y m1 m2 : Z) :
  1 <= m1 -> m1 < m2 -> m2 <= 12 ->
  datetime.days_before_month y m1 + datetime.days_in_month y m1
  <= datetime.days_before_month y m2.
Proof.
  intros H1 H12 H2.
  unfold datetime.days_before_month, datetime.days_in_month.
  pose proof (month_cases m1 ltac:(lia)) as C1.
  pose proof (month_cases m2 ltac:(lia)) as C2.
  split_cases C1; split_cases C2; try lia;
    destruct (datetime.is_leap y); cbv; discriminate.
Qed.

Lemma days_before_month_year (y m : Z) :
  1 <= m <= 12 ->
  0 <= datetime.days_before_month y m /\
  datetime.days_before_month y m + datetime.days_in_month y m
  <= 365 + (if datetime.is_leap y then 1 else 0).
Proof.
  intro H. unfold datetime.days_before_month, datetime.days_in_month.
  pose proof (month_cases m H) as C.
  split_cases C; destruct (datetime.is_leap y); split; cbv; discriminate.
Qed.

(** An earlier valid date has the smaller ordinal. *)
Lemma toordinal_lt (x y : datetime.date) :
  datetime.valid x -> datetime.valid y ->
  datetime.ltb x y = true -> datetime.toordinal x < datetime.toordinal y.
Proof.
  intros Hx Hy. apply valid_bounds in Hx as (Hxy & Hxm & Hxd).
  apply valid_bounds in Hy as (Hyy & Hym & Hyd).
  unfold datetime.ltb, datetime.cmp, datetime.toordinal, datetime.ymd2ord.
  destruct x as [y1 m1 d1], y as [y2 m2 d2]. simpl in *.
  destruct (Z.compare_spec y1 y2) as [->|Hlt|Hgt]; [| |discriminate].
  - destruct (Z.compare_spec m1 m2) as [->|Hlt|Hgt]; [| |discriminate].
    + destruct (Z.compare_spec d1 d2); [discriminate| |discriminate]. lia.
    + intros _. pose proof (days_before_month_next y2 m1 m2). lia.
  - intros _.
    pose proof (days_before_month_year y1 m1 Hxm) as [_ H1].
    pose proof (days_before_month_year y2 m2 Hym) as [H2 _].
    pose proof (days_before_year_succ y1) as Hs.
    pose proof (days_before_year_mono (y1 + 1) y2 ltac:(lia)).
    destruct (datetime.is_leap y1); lia.
Qed.

(** A trip whose valid dates are in order lasts at least one day, and one
    that starts and ends on the same day lasts exactly one. *)
Lemma duration_days_positive (t : Trip.t) (d1 d2 : datetime.date) :
  Trip.start_date t = Some d1 -> Trip.end_date t = Some d2 ->
  datetime.valid d1 -> datetime.valid d2 -> datetime.gtb d1 d2 = false ->
  1 <= Trip.duration_days t.
Proof.
  intros Hs He Hv1 Hv2 Hord. unfold Trip.duration_days. rewrite Hs, He. simpl.
  destruct (datetime.ltb d1 d2) eqn:Hlt.
  - pose proof (toordinal_lt d1 d2 Hv1 Hv2 Hlt). lia.
  - assert (d1 = d2).
    { apply date_cmp_eq. unfold datetime.ltb in Hlt. unfold datetime.gtb in Hord.
      destruct (datetime.cmp d1 d2); [reflexivity | discriminate | discriminate]. }
    subst. lia.
Qed.

(** * Further properties of utils.py *)

Example validate_email_examples :
  Utils.validate_email "user@example.com" = true /\
  Utils.validate_email "first.last+tag@mail.example.org" = true /\
  Utils.validate_email "user@example" = false /\
  Utils.validate_email "user@example.c" = false /\
  Utils.validate_email "user example@mail.com" = false /\
  Utils.validate_email "@example.com" = false.
Proof. repeat split; reflexivity. Qed.

(** ** [validate_email] *)

Lemma lang_class_inv (p : ascii -> bool) (s : string) :
  lang (Re.Class p) s <-> exists c, s = String c EmptyString /\ p c = true.
Proof.
  split.
  - intro H. inversion H; subst. eauto.
  - intros (c & -> & Hc). now constructor.
Qed.

Lemma lang_star_class (p : ascii -> bool) (s : string) :
  lang (Re.Star (Re.Class p)) s <-> Str.all p s = true.
Proof.
  split.
  - intro H. remember (Re.Star (Re.Class p)) as r eqn:Er.
    induction H as [| | | | | |r0 s1 s2 H1 _ H2 IH2]; try discriminate.
    + reflexivity.
    + injection Er as ->. apply lang_class_inv in H1 as (c & -> & Hc).
      simpl. now rewrite Hc, IH2.
  - induction s as [|c s IH]; simpl; intro H.
    + constructor.
    + apply andb_true_iff in H as [Hc Hs].
      apply (lang_star_cons (Re.Class p) (String c EmptyString) s).
      * now constructor.
      * now apply IH.
Qed.

Lemma lang_plus_class (p : ascii -> bool) (s : string) :
  lang (Re.Plus (Re.Class p)) s <-> Str.all p s = true /\ s <> EmptyString.
Proof.
  unfold Re.Plus. split.
  - intro H. inversion H as [| |? ? s1 s2 H1 H2| | | |]; subst.
    apply lang_class_inv in H1 as (c & -> & Hc). apply lang_star_class in H2.
    split; [|discriminate]. simpl. now rewrite Hc, H2.
  - intros [Hd Hne]. destruct s as [|c s]; [congruence|].
    simpl in Hd. apply andb_true_iff in Hd as [Hc Hs].
    apply (lang_seq (Re.Class p) _ (String c EmptyString) s).
    + now constructor.
    + now apply lang_star_class.
Qed.

Lemma lang_two_or_more (p : ascii -> bool) (s : string) :
  lang (Re.TwoOrMore (Re.Class p)) s <->
  Str.all p s = true /\ (2 <= String.length s)%nat.
Proof.
  unfold Re.TwoOrMore. split.
  - intro H. inversion H as [| |? ? s1 s2 H1 H2| | | |]; subst.
    inversion H2 as [| |? ? s3 s4 H3 H4| | | |]; subst.
    apply lang_class_inv in H1 as (c & -> & Hc).
    apply lang_class_inv in H3 as (c' & -> & Hc').
    apply lang_star_class in H4. simpl. rewrite Hc, Hc', H4. split; [reflexivity | lia].
  - intros [Hp Hl]. destruct s as [|c [|c' s]]; simpl in Hl; try lia.
    simpl in Hp. apply andb_true_iff in Hp as [Hc Hp].
    apply andb_true_iff in Hp as [Hc' Hs].
    apply (lang_seq _ _ (String c EmptyString) (String c' s)); [now constructor|].
    apply (lang_seq _ _ (String c' EmptyString) s); [now constructor|].
    now apply lang_star_class.
Qed.

Lemma lang_email_pattern (s : string) : lang Utils.email_pattern s <-> email_shape s.
Proof.
  unfold Utils.email_pattern, email_shape. split.
  - intro H. inversion H as [| |? ? l r1 Hl Hr1| | | |]; subst.
    inversion Hr1 as [| |? ? a r2 Ha Hr2| | | |]; subst.
    inversion Hr2 as [| |? ? d r3 Hd Hr3| | | |]; subst.
    inversion Hr3 as [| |? ? dot t Hdot Ht| | | |]; subst.
    apply lang_plus_class in Hl as [Hl Hlne], Hd as [Hd Hdne].
    apply lang_class_inv in Ha as (ca & -> & Hca), Hdot as (cd & -> & Hcd).
    apply Ascii.eqb_eq in Hca, Hcd. subst.
    apply lang_two_or_more in Ht as [Ht Htl].
    exists l, d, t. repeat split; assumption.
  - intros (l & d & t & Hl & Hlne & Hd & Hdne & Ht & Htl & ->).
    apply lang_seq; [now apply lang_plus_class|].
    apply (lang_seq _ _ (String "@" EmptyString)); [now constructor|].
    apply lang_seq; [now apply lang_plus_class|].
    apply (lang_seq _ _ (String "." EmptyString)); [now constructor|].
    now apply lang_two_or_more.
Qed.

(** What an accepted address looks like. *)
Lemma validate_email_accepted (email : string) :
  Utils.validate_email email = true ->
  email_shape email \/
  exists w, email_shape w /\ email = w ++ String Re.newline EmptyString.
Proof.
  unfold Utils.validate_email, Re.match_to_end. rewrite accepts_lang.
  intro H. inversion H as [| |? ? s1 s2 H1 H2| | | |]; subst.
  apply lang_email_pattern in H1. apply lang_dollar in H2 as [-> | ->].
  - left. now rewrite append_nil_r.
  - right. now exists s1.
Qed.

(** [validate_email] accepts exactly the texts made of a non-empty local
    part, [@], a non-empty domain part, a dot and two or more letters, and
    such a text followed by one newline. *)
Theorem validate_email_shape (email : string) :
  Utils.validate_email email = true <->
  email_shape email \/
  exists w, email_shape w /\ email = w ++ String Re.newline EmptyString.
Proof.
  split; [apply validate_email_accepted|].
  unfold Utils.validate_email, Re.match_to_end. rewrite accepts_lang.
  intros [H | (w & H & ->)].
  - rewrite <- (append_nil_r email).
    apply lang_seq; [now apply lang_email_pattern | apply lang_dollar; now left].
  - apply lang_seq; [now apply lang_email_pattern | apply lang_dollar; now right].
Qed.

Lemma count_char_append (c : ascii) (s1 s2 : string) :
  count_char c (s1 ++ s2) = (count_char c s1 + count_char c s2)%nat.
Proof. induction s1 as [|a s1 IH]; simpl; [reflexivity | rewrite IH; lia]. Qed.

Lemma count_char_absent (p : ascii -> bool) (c : ascii) (s : string) :
  p c = false -> Str.all p s = true -> count_char c s = 0%nat.
Proof.
  intros Hc. induction s as [|a s IH]; simpl; [reflexivity|].
  intro H. apply andb_true_iff in H as [Ha Hs]. rewrite (IH Hs).
  destruct (Ascii.eqb_spec a c); [congruence | reflexivity].
Qed.

(** An accepted address holds exactly one [@] and no space. *)
Theorem validate_email_one_at (email : string) :
  Utils.validate_email email = true ->
  count_char "@" email = 1%nat /\ count_char " " email = 0%nat.
Proof.
  intro H. apply validate_email_accepted in H.
  assert (Hshape : forall w, email_shape w ->
            count_char "@" w = 1%nat /\ count_char " " w = 0%nat).
  { intros w (l & d & t & Hl & _ & Hd & _ & Ht & _ & ->).
    rewrite !count_char_append. cbn [count_char Ascii.eqb].
    rewrite !count_char_append. cbn [count_char].
    rewrite (count_char_absent Utils.local_char "@" l), (count_char_absent Utils.local_char " " l),
      (count_char_absent Utils.domain_char "@" d), (count_char_absent Utils.domain_char " " d),
      (count_char_absent Utils.alpha "@" t), (count_char_absent Utils.alpha " " t)
      by (reflexivity || assumption).
    split; reflexivity. }
  destruct H as [H | (w & H & ->)].
  - now apply Hshape.
  - rewrite !count_char_append. destruct (Hshape w H) as [-> ->].
    split; reflexivity.
Qed.

Lemma validate_email_one_at_witness :
  count_char "@" "user@example.com" = 1%nat /\ count_char " " "user@example.com" = 0%nat.
Proof. apply (validate_email_one_at "user@example.com"). reflexivity. Defined.

(** ** [validate_currency_amount]: blanks, commas and outcomes *)

Lemma replace_comma_cons (c : ascii) (s : string) :
  Str.replace "," "." (String c s) = String (comma_to_dot c) (Str.replace "," "." s).
Proof. unfold comma_to_dot. simpl. now destruct (Ascii.eqb c ","). Qed.

Lemma isspace_comma_to_dot (c : ascii) : Str.isspace (comma_to_dot c) = Str.isspace c.
Proof.
  unfold comma_to_dot. destruct (Ascii.eqb_spec c ","); [now subst | reflexivity].
Qed.

Lemma lstrip_replace_comma (s : string) :
  Str.lstrip (Str.replace "," "." s) = Str.replace "," "." (Str.lstrip s).
Proof.
  induction s as [|c s IH]; [reflexivity|].
  rewrite replace_comma_cons. cbn [Str.lstrip]. rewrite isspace_comma_to_dot.
  destruct (Str.isspace c); [exact IH | now rewrite replace_comma_cons].
Qed.

Lemma replace_comma_empty (s : string) :
  Str.replace "," "." s = EmptyString -> s = EmptyString.
Proof. destruct s; [reflexivity | rewrite replace_comma_cons; discriminate]. Qed.

Lemma rstrip_replace_comma (s : string) :
  Str.rstrip (Str.replace "," "." s) = Str.replace "," "." (Str.rstrip s).
Proof.
  induction s as [|c s IH]; [reflexivity|].
  rewrite replace_comma_cons. cbn [Str.rstrip]. rewrite IH, isspace_comma_to_dot.
  destruct (Str.rstrip s) as [|b r] eqn:E.
  - cbn [Str.replace]. destruct (Str.isspace c); [reflexivity|].
    now rewrite replace_comma_cons.
  - rewrite (replace_comma_cons c (String b r)).
    now rewrite replace_comma_cons.
Qed.

Lemma strip_replace_comma (s : string) :
  Str.strip (Str.replace "," "." s) = Str.replace "," "." (Str.strip s).
Proof. unfold Str.strip. now rewrite rstrip_replace_comma, lstrip_replace_comma. Qed.

Lemma replace_absent (old : ascii) (new s : string) :
  Str.contains old s = false -> Str.replace old new s = s.
Proof.
  induction s as [|c s IH]; simpl; [reflexivity|].
  intro H. apply orb_false_iff in H as [Hc Hs]. now rewrite Hc, IH.
Qed.

Lemma replace_comma_idem (s : string) :
  Str.replace "," "." (Str.replace "," "." s) = Str.replace "," "." s.
Proof. apply replace_absent. now apply replace_removes. Qed.

Lemma rstrip_id (s : string) : no_trailing_space s -> Str.rstrip s = s.
Proof.
  unfold no_trailing_space. induction s as [|c s IH]; [reflexivity|].
  intro H. cbn [Str.rstrip]. destruct s as [|b s].
  - simpl in *. now rewrite H.
  - rewrite IH by exact H. reflexivity.
Qed.

Lemma lstrip_idem (s : string) : Str.lstrip (Str.lstrip s) = Str.lstrip s.
Proof.
  induction s as [|c s IH]; [reflexivity|]. simpl.
  destruct (Str.isspace c) eqn:E; [exact IH|]. simpl. now rewrite E.
Qed.

Lemma strip_idem (s : string) : Str.strip (Str.strip s) = Str.strip s.
Proof.
  unfold Str.strip at 1.
  rewrite (rstrip_id _ (strip_no_trailing_space s)).
  unfold Str.strip. apply lstrip_idem.
Qed.

Lemma validate_currency_amount_clean (s1 s2 : string) :
  Utils.clean_amount s1 = Utils.clean_amount s2 ->
  Utils.validate_currency_amount s1 = Utils.validate_currency_amount s2.
Proof. intro H. now rewrite !validate_currency_amount_unfold, H. Qed.

(** The validation of an amount does not see the blanks around the text
    nor whether a separator is written as a comma or as a dot. *)
Theorem validate_currency_amount_normalises (amount_str : string) :
  Utils.validate_currency_amount (Str.strip amount_str)
  = Utils.validate_currency_amount amount_str /\
  Utils.validate_currency_amount (Str.replace "," "." amount_str)
  = Utils.validate_currency_amount amount_str.
Proof.
  split; apply validate_currency_amount_clean; unfold Utils.clean_amount.
  - now rewrite strip_idem.
  - now rewrite strip_replace_comma, replace_comma_idem.
Qed.

(** The outcomes of [validate_currency_amount] are three: accepted with an
    empty message and a value above zero, or refused with the value 0 and
    either the message about the format or the one about the sign.  The
    message of the handler around [float] is never returned: a text the
    pattern lets through always parses. *)
Theorem validate_currency_amount_outcomes (amount_str : string) :
  let ok := fst (fst (Utils.validate_currency_amount amount_str)) in
  let value := snd (fst (Utils.validate_currency_amount amount_str)) in
  let message := snd (Utils.validate_currency_amount amount_str) in
  ((ok = true /\ (0 < value)%Q /\ message = EmptyString) \/
   (ok = false /\ value = 0%Q /\ message = Utils.MSG_AMOUNT_FORMAT) \/
   (ok = false /\ value = 0%Q /\ message = Utils.MSG_AMOUNT_POSITIVE)) /\
  String.eqb message Utils.MSG_AMOUNT_PARSE = false.
Proof.
  cbv zeta. rewrite validate_currency_amount_unfold.
  destruct (Re.match_to_end _ _) eqn:E.
  - apply match_amount_pattern_clean, amount_shape_value in E as [v Hv].
    unfold amount_value in Hv. rewrite Hv.
    destruct (Qle_bool v 0) eqn:Ev; cbn [fst snd].
    + split; [right; right; repeat split | reflexivity].
    + split; [left | reflexivity].
      split; [reflexivity|]. split; [now apply Qle_bool_false_iff | reflexivity].
  - cbn [fst snd]. split; [right; left; repeat split | reflexivity].
Qed.

(** ** [validate_date_range]: what an accepted range is *)

Lemma toordinal_le (x y : datetime.date) :
  datetime.valid x -> datetime.valid y ->
  datetime.ltb y x = false -> datetime.toordinal x <= datetime.toordinal y.
Proof.
  intros Hx Hy Hnlt.
  destruct (datetime.ltb x y) eqn:Hlt.
  - pose proof (toordinal_lt x y Hx Hy Hlt). lia.
  - assert (x = y).
    { apply date_cmp_eq. unfold datetime.ltb in *.
      rewrite (date_cmp_antisym x y) in Hnlt.
      destruct (datetime.cmp x y); [reflexivity | discriminate | discriminate]. }
    subst. lia.
Qed.

Lemma validate_date_range_message (today : datetime.date) (s e : string) :
  snd (Utils.validate_date_range today s e) = EmptyString <->
  fst (Utils.validate_date_range today s e) = true.
Proof.
  unfold Utils.validate_date_range.
  destruct (Strptime.strptime_Ymd s) as [sd|[?]]; [|split; discriminate].
  destruct (Strptime.strptime_Ymd e) as [ed|[?]]; [|split; discriminate].
  destruct (datetime.gtb sd ed); [split; discriminate|].
  destruct (datetime.ltb sd today); [split; discriminate|].
  split; reflexivity.
Qed.

(** A range that [validate_date_range] accepts consists of two calendar
    dates, the first not before the current date and not after the second;
    a trip with these dates lasts at least one day, and the message is
    empty. *)
Theorem validate_date_range_accepted (today : datetime.date) (s e : string) :
  datetime.valid today ->
  fst (Utils.validate_date_range today s e) = true ->
  exists start_date end_date : datetime.date,
    Strptime.strptime_Ymd s = Ok start_date /\
    Strptime.strptime_Ymd e = Ok end_date /\
    datetime.valid start_date /\ datetime.valid end_date /\
    datetime.toordinal today <= datetime.toordinal start_date
      <= datetime.toordinal end_date /\
    (forall t : Trip.t,
       Trip.start_date t = Some start_date -> Trip.end_date t = Some end_date ->
       1 <= Trip.duration_days t) /\
    snd (Utils.validate_date_range today s e) = EmptyString.
Proof.
  intros Htoday Hok.
  pose proof (proj2 (validate_date_range_message today s e) Hok) as Hmsg.
  unfold Utils.validate_date_range in Hok.
  destruct (Strptime.strptime_Ymd s) as [sd|[?]] eqn:Es; [|discriminate].
  destruct (Strptime.strptime_Ymd e) as [ed|[?]] eqn:Ee; [|discriminate].
  destruct (datetime.gtb sd ed) eqn:Hgt; [discriminate|].
  destruct (datetime.ltb sd today) eqn:Hlt; [discriminate|].
  pose proof (strptime_valid s sd Es) as Hvs.
  pose proof (strptime_valid e ed Ee) as Hve.
  exists sd, ed. repeat split; try assumption.
  - now apply toordinal_le.
  - apply toordinal_le; try assumption. now rewrite <- date_gtb_ltb.
  - intros t Hs He. now apply (duration_days_positive t sd ed).
Qed.

Lemma validate_date_range_accepted_witness :
  exists start_date end_date : datetime.date,
    Strptime.strptime_Ymd "2024-06-01" = Ok start_date /\
    Strptime.strptime_Ymd "2024-06-10" = Ok end_date /\
    datetime.valid start_date /\ datetime.valid end_date /\
    datetime.toordinal (datetime.mkdate 2024 5 20) <= datetime.toordinal start_date
      <= datetime.toordinal end_date /\
    (forall t : Trip.t,
       Trip.start_date t = Some start_date -> Trip.end_date t = Some end_date ->
       1 <= Trip.duration_days t) /\
    snd (Utils.validate_date_range (datetime.mkdate 2024 5 20)
           "2024-06-01" "2024-06-10") = EmptyString.
Proof.
  apply (validate_date_range_accepted (datetime.mkdate 2024 5 20)
           "2024-06-01" "2024-06-10"); reflexivity.
Defined.

(** Two dates written as [isoformat] writes them are accepted whenever the
    first is not before the current date and not after the second. *)
Theorem validate_date_range_isoformat (today d1 d2 : datetime.date) :
  datetime.valid d1 -> datetime.valid d2 ->
  datetime.ltb d1 today = false -> datetime.gtb d1 d2 = false ->
  Utils.validate_date_range today (isoformat d1) (isoformat d2) = (true, EmptyString).
Proof.
  intros H1 H2 Hlt Hgt.
  rewrite (validate_date_range_parsed today _ _ d1 d2
             (strptime_isoformat d1 H1) (strptime_isoformat d2 H2)).
  now rewrite Hgt, Hlt.
Qed.

Lemma validate_date_range_isoformat_witness :
  Utils.validate_date_range (datetime.mkdate 2024 5 20)
    (isoformat (datetime.mkdate 2024 6 1)) (isoformat (datetime.mkdate 2024 6 10))
  = (true, EmptyString).
Proof.
  apply (validate_date_range_isoformat (datetime.mkdate 2024 5 20)
           (datetime.mkdate 2024 6 1) (datetime.mkdate 2024 6 10)); reflexivity.
Defined.

(** ** [Trip.duration_days]: its sign *)

(** With valid dates the duration is at least one day exactly when the
    trip does not end before it starts; otherwise it is zero or negative. *)
Theorem duration_days_sign (t : Trip.t) (d1 d2 : datetime.date) :
  Trip.start_date t = Some d1 -> Trip.end_date t = Some d2 ->
  datetime.valid d1 -> datetime.valid d2 ->
  (datetime.gtb d1 d2 = false <-> 1 <= Trip.duration_days t) /\
  (datetime.gtb d1 d2 = true <-> Trip.duration_days t <= 0).
Proof.
  intros Hs He Hv1 Hv2.
  assert (Hneg : datetime.gtb d1 d2 = true -> Trip.duration_days t <= 0).
  { intro Hgt. rewrite date_gtb_ltb in Hgt.
    pose proof (toordinal_lt d2 d1 Hv2 Hv1 Hgt).
    unfold Trip.duration_days. rewrite Hs, He. simpl. lia. }
  pose proof (duration_days_positive t d1 d2 Hs He Hv1 Hv2) as Hpos.
  destruct (datetime.gtb d1 d2).
  - specialize (Hneg eq_refl).
    split; split; intros; first [reflexivity | discriminate | lia].
  - specialize (Hpos eq_refl).
    split; split; intros; first [reflexivity | discriminate | lia].
Qed.

Lemma duration_days_sign_witness :
  (datetime.gtb (datetime.mkdate 2024 6 1) (datetime.mkdate 2024 6 10) = false <->
   1 <= Trip.duration_days paris_trip) /\
  (datetime.gtb (datetime.mkdate 2024 6 1) (datetime.mkdate 2024 6 10) = true <->
   Trip.duration_days paris_trip <= 0).
Proof.
  apply (duration_days_sign paris_trip (datetime.mkdate 2024 6 1)
           (datetime.mkdate 2024 6 10)); reflexivity.
Defined.

(** ** [sanitize_input] on text without special characters *)

Lemma contains_lstrip (c : ascii) (s : string) :
  Str.contains c s = false -> Str.contains c (Str.lstrip s) = false.
Proof.
  induction s as [|a s IH]; simpl; [reflexivity|].
  intro H. destruct (Str.isspace a); [|exact H].
  apply orb_false_iff in H as [_ Hs]. now apply IH.
Qed.

Lemma contains_rstrip (c : ascii) (s : string) :
  Str.contains c s = false -> Str.contains c (Str.rstrip s) = false.
Proof.
  induction s as [|a s IH]; simpl; [reflexivity|].
  intro H. apply orb_false_iff in H as [Ha Hs]. specialize (IH Hs).
  destruct (Str.rstrip s).
  - destruct (Str.isspace a); simpl; [reflexivity | now rewrite Ha].
  - simpl in *. now rewrite Ha, IH.
Qed.

Lemma contains_prefix (c : ascii) (n : nat) (s : string) :
  Str.contains c s = false -> Str.contains c (substring 0 n s) = false.
Proof.
  revert n. induction s as [|a s IH]; intros [|n]; simpl; try reflexivity.
  intro H. apply orb_false_iff in H as [Ha Hs]. now rewrite Ha, IH.
Qed.

Lemma length_prefix (n : nat) (s : string) :
  (String.length (substring 0 n s) <= n)%nat.
Proof.
  revert n. induction s as [|a s IH]; intros [|n]; simpl; try lia.
  specialize (IH n). lia.
Qed.

Lemma escape_html_plain (s : string) : plain_text s -> escape_html s = s.
Proof.
  intro H. unfold escape_html.
  rewrite (replace_absent "&" _ s) by (apply H; simpl; tauto).
  rewrite (replace_absent "<" _ s) by (apply H; simpl; tauto).
  rewrite (replace_absent ">" _ s) by (apply H; simpl; tauto).
  rewrite (replace_absent Utils.dquote _ s) by (apply H; simpl; tauto).
  apply replace_absent. apply H. simpl. tauto.
Qed.

(** On a text that holds none of the five special characters and for a
    bound that is not negative, [sanitize_input] returns at most
    [max_length] characters, and the trimmed text itself when that is
    within the bound. *)
Theorem sanitize_input_plain (text : string) (max_length : Z) :
  plain_text text -> 0 <= max_length ->
  Str.len (Utils.sanitize_input text max_length) <= max_length /\
  (Str.len (Str.strip text) <= max_length ->
   Utils.sanitize_input text max_length = Str.strip text).
Proof.
  intros Hplain Hmax.
  assert (Hstrip : plain_text (Str.strip text)).
  { intros c Hc. unfold Str.strip. apply contains_lstrip, contains_rstrip.
    now apply Hplain. }
  unfold Utils.sanitize_input. fold (escape_html).
  change (Str.replace "'" "&#39;"
            (Str.replace Utils.dquote "&quot;"
               (Str.replace ">" "&gt;"
                  (Str.replace "<" "&lt;"
                     (Str.replace "&" "&amp;"
                        (if Str.len (Str.strip text) >? max_length
                         then Str.slice_to (Str.strip text) max_length
                         else Str.strip text))))))
    with (escape_html (if Str.len (Str.strip text) >? max_length
                       then Str.slice_to (Str.strip text) max_length
                       else Str.strip text)).
  destruct (Z.gtb_spec (Str.len (Str.strip text)) max_length) as [Hgt | Hle].
  - split; [|lia].
    rewrite escape_html_plain.
    + unfold Str.slice_to. destruct (Z.ltb_spec max_length 0); [lia|].
      unfold Str.len at 1.
      pose proof (length_prefix
                    (Z.to_nat (Z.min max_length (Str.len (Str.strip text))))
                    (Str.strip text)).
      lia.
    + intros c Hc. unfold Str.slice_to. apply contains_prefix. now apply Hstrip.
  - rewrite (escape_html_plain _ Hstrip). split; [exact Hle | reflexivity].
Qed.

Lemma sanitize_input_plain_witness :
  Str.len (Utils.sanitize_input "  Paris, France  " 5) <= 5 /\
  (Str.len (Str.strip "  Paris, France  ") <= 5 ->
   Utils.sanitize_input "  Paris, France  " 5 = Str.strip "  Paris, France  ").
Proof.
  apply (sanitize_input_plain "  Paris, France  " 5).
  - intros c Hc. simpl in Hc.
    repeat (destruct Hc as [<- | Hc]; [reflexivity|]). contradiction.
  - lia.
Defined.

(** Escaping follows the cut, so with special characters the result can be
    longer than the bound. *)
Example sanitize_input_longer_than_bound :
  Utils.sanitize_input "<<<>>>" 3 = "&lt;&lt;&lt;" /\
  Str.len (Utils.sanitize_input "<<<>>>" 3) = 12.
Proof. split; reflexivity. Qed.

(** * Further properties of storage.py *)

(** ** Reading trips *)

Lemma key_injective {A : Type} (g : A -> Z) (l : list A) (a b : A) :
  NoDup (map g l) -> In a l -> In b l -> g a = g b -> a = b.
Proof.
  induction l as [|x l IH]; simpl; [tauto|].
  intros Hnd Ha Hb Hg. inversion Hnd as [|? ? Hni Hnd']; subst.
  destruct Ha as [-> | Ha], Hb as [-> | Hb]; try reflexivity.
  - exfalso. apply Hni. rewrite Hg. now apply in_map.
  - exfalso. apply Hni. rewrite <- Hg. now apply in_map.
  - now apply IH.
Qed.

(** Under the primary key, [get_trip_by_id] returns the trip of the one
    row with the id, and nothing when no row has it. *)
Lemma get_trip_by_id_by_key (db : Sql.database) (trip_id : Z) :
  Sql.primary_keys db ->
  (forall row, In row (Sql.trips db) -> TripsRow.id row = trip_id ->
     TravelStorage.get_trip_by_id db trip_id = Some (TravelStorage.trip_of_row row)) /\
  ((forall row, In row (Sql.trips db) -> TripsRow.id row <> trip_id) ->
     TravelStorage.get_trip_by_id db trip_id = None).
Proof.
  intros [Hkey _]. split.
  - intros row Hin Hid.
    destruct (get_trip_by_id_found db trip_id) as [t Ht]; [eauto|].
    rewrite Ht. apply get_trip_by_id_some in Ht as (row' & Hin' & Hid' & ->).
    f_equal. f_equal.
    apply (key_injective TripsRow.id (Sql.trips db)); congruence.
  - intro Hnone.
    destruct (TravelStorage.get_trip_by_id db trip_id) as [t|] eqn:E; [|reflexivity].
    apply get_trip_by_id_some in E as (row & Hin & Hid & _).
    exfalso. exact (Hnone row Hin Hid).
Qed.

(** Under the primary key, [get_trip_by_id] answers with a trip exactly
    when the trip is that of a stored row with the id, any such row, and
    with nothing exactly when no stored row has the id. *)
Theorem get_trip_by_id_spec (db : Sql.database) (trip_id : Z) :
  Sql.primary_keys db ->
  (forall trip,
     TravelStorage.get_trip_by_id db trip_id = Some trip <->
     exists row, In row (Sql.trips db) /\ TripsRow.id row = trip_id /\
                 trip = TravelStorage.trip_of_row row) /\
  (TravelStorage.get_trip_by_id db trip_id = None <->
   forall row, In row (Sql.trips db) -> TripsRow.id row <> trip_id).
Proof.
  intro Hk. destruct (get_trip_by_id_by_key db trip_id Hk) as [Hsome Hnone]. split.
  - intro trip. split.
    + apply get_trip_by_id_some.
    + intros (row & Hin & Hid & ->). now apply Hsome.
  - split; [|exact Hnone].
    intros E row Hin Hid. rewrite (Hsome row Hin Hid) in E. discriminate.
Qed.

Lemma get_trip_by_id_spec_witness :
  TravelStorage.get_trip_by_id db_one_expense 2 = None <->
  forall row, In row (Sql.trips db_one_expense) -> TripsRow.id row <> 2.
Proof.
  apply (get_trip_by_id_spec db_one_expense 2).
  split; vm_compute; (constructor; [intros [] | constructor]).
Defined.

(** Two databases with the same trip rows for an id answer alike. *)
Lemma get_trip_by_id_same_rows (db db' : Sql.database) (trip_id : Z) :
  Sql.primary_keys db -> Sql.primary_keys db' ->
  (forall row, TripsRow.id row = trip_id ->
     (In row (Sql.trips db') <-> In row (Sql.trips db))) ->
  TravelStorage.get_trip_by_id db' trip_id = TravelStorage.get_trip_by_id db trip_id.
Proof.
  intros Hk Hk' Hrows.
  destruct (get_trip_by_id_by_key db trip_id Hk) as [Hsome Hnone].
  destruct (get_trip_by_id_by_key db' trip_id Hk') as [Hsome' Hnone'].
  destruct (TravelStorage.get_trip_by_id db trip_id) as [t|] eqn:E.
  - apply get_trip_by_id_some in E as (row & Hin & Hid & ->).
    apply Hsome'; [now apply Hrows | exact Hid].
  - apply Hnone'. intros row Hin Hid.
    assert (Hin0 : In row (Sql.trips db)) by now apply Hrows.
    discriminate (Hsome row Hin0 Hid).
Qed.

(** ** Sorting *)

Section OrderBy.

Context {A : Type} (before : A -> A -> bool).

(** [x] may stand ahead of [y]: [y] does not have to come before [x]. *)
Let ahead (x y : A) : Prop := before y x = false.

Hypothesis before_ahead : forall x y, before x y = true -> ahead x y.
Hypothesis ahead_trans : forall x y z, ahead x y -> ahead y z -> ahead x z.

Lemma insert_by_sorted (x : A) (l : list A) :
  StronglySorted ahead l -> StronglySorted ahead (Sql.insert_by before x l).
Proof.
  induction l as [|y l IH]; simpl; intro H.
  - repeat constructor.
  - inversion H as [|? ? Hs Hall]; subst.
    destruct (before y x) eqn:E.
    + constructor; [now apply IH|].
      apply Forall_forall. intros z Hz.
      apply (Permutation_in _ (insert_by_perm before x l)) in Hz.
      destruct Hz as [<- | Hz]; [now apply before_ahead|].
      rewrite Forall_forall in Hall. now apply Hall.
    + constructor; [exact H|].
      constructor; [exact E|].
      rewrite Forall_forall in *. intros z Hz.
      apply ahead_trans with y; [exact E | now apply Hall].
Qed.

Lemma order_by_sorted (l : list A) : StronglySorted ahead (Sql.order_by before l).
Proof.
  induction l as [|x l IH]; simpl; [constructor | now apply insert_by_sorted].
Qed.

End OrderBy.

Lemma StronglySorted_map {A B : Type} (R : A -> A -> Prop) (R' : B -> B -> Prop)
    (g : A -> B) (l : list A) :
  (forall a b, R a b -> R' (g a) (g b)) ->
  StronglySorted R l -> StronglySorted R' (map g l).
Proof.
  intros HR Hs. induction Hs as [|a l _ IH Hall]; simpl; constructor; [exact IH|].
  rewrite Forall_forall in *. intros b Hb.
  apply in_map_iff in Hb as (a' & <- & Ha'). apply HR. now apply Hall.
Qed.

(** A row that has to come before every other row is listed first. *)
Lemma order_by_snoc_first {A : Type} (before : A -> A -> bool) (x : A) (l : list A) :
  (forall y, In y l -> before x y = true) ->
  Sql.order_by before (l ++ [x])%list = x :: Sql.order_by before l.
Proof.
  induction l as [|y l IH]; intro H; [reflexivity|].
  simpl. rewrite IH by (intros z Hz; apply H; now right).
  simpl. rewrite (H y) by now left. reflexivity.
Qed.

(** ** [add_trip] and [get_all_trips] *)

Lemma add_trip_unfold (db : Sql.database) (t : Trip.t) :
  let rowid := Sql.next_rowid (Sql.trips_seq db) (map TripsRow.id (Sql.trips db)) in
  let row := TripsRow.mk rowid (Trip.name t) (Trip.description t) (Trip.start_date t)
               (Trip.end_date t) (Trip.budget t) (Trip.actual_spent t)
               (Trip.currency t) (Trip.destination t) (Trip.status t)
               (Trip.participants t) in
  TravelStorage.add_trip db t
  = (TravelStorage.or_zero rowid,
     Sql.mkdb (Sql.trips db ++ [row])%list rowid (Sql.expenses db) (Sql.expenses_seq db)).
Proof. reflexivity. Qed.

Lemma or_zero_next_rowid (seq : Z) (ids : list Z) :
  TravelStorage.or_zero (Sql.next_rowid seq ids) = Sql.next_rowid seq ids.
Proof.
  unfold TravelStorage.or_zero.
  pose proof (next_rowid_positive seq ids).
  destruct (Z.eqb_spec (Sql.next_rowid seq ids) 0); [lia | reflexivity].
Qed.

(** [add_trip] returns a positive id; the trip is then listed first, ahead
    of the trips listed before, with that id and the fields it was given,
    and [get_trip_by_id] finds it; the expenses are not touched. *)
Theorem add_trip_round_trip (db : Sql.database) (trip : Trip.t) :
  let trip_id := fst (TravelStorage.add_trip db trip) in
  let db' := snd (TravelStorage.add_trip db trip) in
  0 < trip_id /\
  TravelStorage.get_all_trips db'
  = trip_with_id trip_id trip :: TravelStorage.get_all_trips db /\
  TravelStorage.get_trip_by_id db' trip_id = Some (trip_with_id trip_id trip) /\
  Sql.expenses db' = Sql.expenses db.
Proof.
  cbv zeta. rewrite add_trip_unfold. cbv zeta. cbn [fst snd].
  rewrite or_zero_next_rowid.
  set (rowid := Sql.next_rowid (Sql.trips_seq db) (map TripsRow.id (Sql.trips db))).
  assert (Hlist : TravelStorage.get_all_trips
                    (Sql.mkdb (Sql.trips db ++
                       [TripsRow.mk rowid (Trip.name trip) (Trip.description trip)
                          (Trip.start_date trip) (Trip.end_date trip) (Trip.budget trip)
                          (Trip.actual_spent trip) (Trip.currency trip)
                          (Trip.destination trip) (Trip.status trip)
                          (Trip.participants trip)])%list
                       rowid (Sql.expenses db) (Sql.expenses_seq db))
                  = trip_with_id rowid trip :: TravelStorage.get_all_trips db).
  { unfold TravelStorage.get_all_trips, Sql.select_trips. cbn [Sql.trips].
    rewrite order_by_snoc_first; [reflexivity|].
    intros y Hy. cbn [TripsRow.id]. apply Z.gtb_lt.
    pose proof (max_id_ge (map TripsRow.id (Sql.trips db)) (TripsRow.id y)
                  (in_map _ _ _ Hy)).
    unfold rowid, Sql.next_rowid. lia. }
  split; [apply next_rowid_positive|]. split; [exact Hlist|]. split; [|reflexivity].
  unfold TravelStorage.get_trip_by_id. rewrite Hlist. cbn [find].
  unfold TravelStorage.has_id. cbn [trip_with_id Trip.id]. now rewrite Z.eqb_refl.
Qed.

Lemma trips_ahead_trans (x y z : TripsRow.t) :
  (TripsRow.id y >? TripsRow.id x) = false ->
  (TripsRow.id z >? TripsRow.id y) = false ->
  (TripsRow.id z >? TripsRow.id x) = false.
Proof. rewrite !Z.gtb_ltb, !Z.ltb_ge. lia. Qed.

Lemma trips_before_ahead (x y : TripsRow.t) :
  (TripsRow.id x >? TripsRow.id y) = true -> (TripsRow.id y >? TripsRow.id x) = false.
Proof. rewrite !Z.gtb_ltb, Z.ltb_lt, Z.ltb_ge. lia. Qed.

(** [get_all_trips] lists every trip row once, newest id first. *)
Theorem get_all_trips_newest_first (db : Sql.database) :
  Permutation (TravelStorage.get_all_trips db)
              (map TravelStorage.trip_of_row (Sql.trips db)) /\
  StronglySorted (fun a b => listed_id b <= listed_id a)
                 (TravelStorage.get_all_trips db).
Proof.
  unfold TravelStorage.get_all_trips, Sql.select_trips. split.
  - apply Permutation_map, order_by_perm.
  - pose proof (order_by_sorted (fun y x => TripsRow.id y >? TripsRow.id x)) as Hs.
    specialize (Hs trips_before_ahead trips_ahead_trans (Sql.trips db)).
    induction Hs as [|r l _ IH Hall]; simpl; constructor; [exact IH|].
    rewrite Forall_forall in *. intros t Ht.
    apply in_map_iff in Ht as (r' & <- & Hr'). specialize (Hall r' Hr').
    unfold listed_id. simpl. rewrite Z.gtb_ltb, Z.ltb_ge in Hall. exact Hall.
Qed.

(** ** [update_trip] *)

Lemma update_trip_unfold (db : Sql.database) (t : Trip.t) (i : Z) :
  Trip.id t = Some i ->
  TravelStorage.update_trip db t
  = (Z.of_nat (List.length (filter (fun r => TripsRow.id r =? i) (Sql.trips db))) >? 0,
     Sql.mkdb
       (map (fun r => if TripsRow.id r =? i
                      then TripsRow.mk (TripsRow.id r) (Trip.name t) (Trip.description t)
                             (Trip.start_date t) (Trip.end_date t) (Trip.budget t)
                             (Trip.actual_spent t) (Trip.currency t)
                             (Trip.destination t) (Trip.status t) (Trip.participants t)
                      else r) (Sql.trips db))
       (Sql.trips_seq db) (Sql.expenses db) (Sql.expenses_seq db)).
Proof.
  intro Hid. unfold TravelStorage.update_trip, Sql.update_trip. now rewrite Hid.
Qed.

Lemma update_trip_keys (db : Sql.database) (t : Trip.t) :
  Sql.primary_keys db -> Sql.primary_keys (snd (TravelStorage.update_trip db t)).
Proof.
  intros [Ht He]. split; [now rewrite update_trip_ids | exact He].
Qed.

Lemma filter_nonempty_length {A : Type} (f : A -> bool) (l : list A) (x : A) :
  In x l -> f x = true -> (Z.of_nat (List.length (filter f l)) >? 0) = true.
Proof.
  intros Hin Hf.
  assert (H : In x (filter f l)) by (apply filter_In; now split).
  destruct (filter f l); [contradiction | reflexivity].
Qed.

(** Updating a stored trip returns true and the trip then reads back as the
    object that was handed in; every other trip reads back as before and no
    expense row changes. *)
Theorem update_trip_round_trip (db : Sql.database) (trip : Trip.t) (i : Z) :
  Sql.primary_keys db -> Trip.id trip = Some i ->
  (exists row, In row (Sql.trips db) /\ TripsRow.id row = i) ->
  let db' := snd (TravelStorage.update_trip db trip) in
  fst (TravelStorage.update_trip db trip) = true /\
  TravelStorage.get_trip_by_id db' i = Some trip /\
  (forall j, j <> i ->
     TravelStorage.get_trip_by_id db' j = TravelStorage.get_trip_by_id db j) /\
  Sql.expenses db' = Sql.expenses db.
Proof.
  intros Hk Hid (row & Hin & Hrow). cbv zeta.
  pose proof (update_trip_keys db trip Hk) as Hk'.
  rewrite (update_trip_unfold db trip i Hid) in *. cbn [fst snd] in *.
  split; [|split; [|split; [|reflexivity]]].
  - apply (filter_nonempty_length _ _ row Hin). now apply Z.eqb_eq.
  - destruct (get_trip_by_id_by_key _ i Hk') as [Hsome _].
    rewrite (Hsome (TripsRow.mk i (Trip.name trip) (Trip.description trip)
                      (Trip.start_date trip) (Trip.end_date trip) (Trip.budget trip)
                      (Trip.actual_spent trip) (Trip.currency trip)
                      (Trip.destination trip) (Trip.status trip)
                      (Trip.participants trip))).
    + destruct trip. simpl in *. now subst.
    + cbn [Sql.trips]. apply in_map_iff. exists row. split; [|exact Hin].
      cbv beta. now rewrite Hrow, Z.eqb_refl.
    + reflexivity.
  - intros j Hj. apply get_trip_by_id_same_rows; [exact Hk | exact Hk'|].
    intros r Hr. cbn [Sql.trips]. rewrite in_map_iff. split.
    + intros (r0 & Hr0 & Hin0).
      destruct (Z.eqb_spec (TripsRow.id r0) i) as [E | E].
      * subst r. simpl in Hr. congruence.
      * now subst.
    + intro Hin0. exists r. split; [|exact Hin0].
      destruct (Z.eqb_spec (TripsRow.id r) i); [congruence | reflexivity].
Qed.

Lemma update_trip_round_trip_witness :
  TravelStorage.get_trip_by_id
    (snd (TravelStorage.update_trip db_one_expense (trip_with_id 1 paris_trip))) 1
  = Some (trip_with_id 1 paris_trip).
Proof.
  apply (update_trip_round_trip db_one_expense (trip_with_id 1 paris_trip) 1).
  - split; vm_compute; (constructor; [intros [] | constructor]).
  - reflexivity.
  - eexists. split; [left; reflexivity | reflexivity].
Defined.

Lemma filter_none {A : Type} (f : A -> bool) (l : list A) :
  (forall x, In x l -> f x = false) -> filter f l = [].
Proof.
  induction l as [|x l IH]; intro H; [reflexivity|].
  simpl. rewrite (H x) by now left. apply IH. intros y Hy. apply H. now right.
Qed.

(** An update that names no stored trip returns false and changes nothing. *)
Theorem update_trip_not_found (db : Sql.database) (trip : Trip.t) :
  (forall row, In row (Sql.trips db) -> Some (TripsRow.id row) <> Trip.id trip) ->
  fst (TravelStorage.update_trip db trip) = false /\
  Sql.trips (snd (TravelStorage.update_trip db trip)) = Sql.trips db /\
  Sql.expenses (snd (TravelStorage.update_trip db trip)) = Sql.expenses db.
Proof.
  intro Hnone. unfold TravelStorage.update_trip, Sql.update_trip. cbn [fst snd Sql.trips Sql.expenses].
  assert (Hhit : forall r, In r (Sql.trips db) ->
            match Trip.id trip with
            | Some i => TripsRow.id r =? i
            | None => false
            end = false).
  { intros r Hr. specialize (Hnone r Hr). destruct (Trip.id trip) as [i|]; [|reflexivity].
    apply Z.eqb_neq. congruence. }
  split; [|split; [|reflexivity]].
  - now rewrite (filter_none _ _ Hhit).
  - rewrite <- (map_id (Sql.trips db)) at 2. apply map_ext_in.
    intros r Hr. now rewrite (Hhit r Hr).
Qed.

Lemma update_trip_not_found_witness :
  fst (TravelStorage.update_trip db_one_expense paris_trip) = false /\
  Sql.trips (snd (TravelStorage.update_trip db_one_expense paris_trip))
  = Sql.trips db_one_expense /\
  Sql.expenses (snd (TravelStorage.update_trip db_one_expense paris_trip))
  = Sql.expenses db_one_expense.
Proof.
  apply (update_trip_not_found db_one_expense paris_trip).
  intros row _. discriminate.
Defined.

(** ** [delete_trip] and the other trips *)

Lemma delete_trip_keys (db : Sql.database) (trip_id : Z) :
  Sql.primary_keys db -> Sql.primary_keys (snd (TravelStorage.delete_trip db trip_id)).
Proof.
  intros [Ht He]. rewrite delete_trip_unfold. split; [|exact He].
  now apply NoDup_map_filter.
Qed.

(** [delete_trip] returns true exactly when the trip was stored; afterwards
    the trip is not found and every other trip reads back as before. *)
Theorem delete_trip_frame (db : Sql.database) (trip_id : Z) :
  Sql.primary_keys db ->
  let db' := snd (TravelStorage.delete_trip db trip_id) in
  (fst (TravelStorage.delete_trip db trip_id) = true <->
   TravelStorage.get_trip_by_id db trip_id <> None) /\
  TravelStorage.get_trip_by_id db' trip_id = None /\
  (forall j, j <> trip_id ->
     TravelStorage.get_trip_by_id db' j = TravelStorage.get_trip_by_id db j).
Proof.
  intros Hk. cbv zeta. split; [|split].
  - rewrite delete_trip_true_iff. split.
    + intros Hex. destruct (get_trip_by_id_found db trip_id Hex) as [t ->]. discriminate.
    + intro Hne. destruct (TravelStorage.get_trip_by_id db trip_id) as [t|] eqn:E;
        [|congruence].
      apply get_trip_by_id_some in E as (row & Hin & Hid & _). eauto.
  - apply delete_trip_removes_trip.
  - intros j Hj.
    apply get_trip_by_id_same_rows; [exact Hk | now apply delete_trip_keys|].
    intros r Hr. rewrite delete_trip_unfold. cbn [snd Sql.trips].
    rewrite filter_In, negb_true_iff, Z.eqb_neq. split; [tauto|].
    intro Hin. split; [exact Hin | congruence].
Qed.

Lemma delete_trip_frame_witness :
  TravelStorage.get_trip_by_id (snd (TravelStorage.delete_trip db_one_expense 2)) 1
  = TravelStorage.get_trip_by_id db_one_expense 1.
Proof.
  apply (delete_trip_frame db_one_expense 2).
  - split; vm_compute; (constructor; [intros [] | constructor]).
  - lia.
Defined.

(** ** [add_expense] and the other trips *)

Lemma add_expense_keys (db : Sql.database) (e : Expense.t) :
  Sql.primary_keys db -> Sql.primary_keys (snd (TravelStorage.add_expense db e)).
Proof.
  intros [Ht He]. split.
  - now rewrite add_expense_keeps_trip_ids.
  - rewrite add_expense_unfold. cbv zeta. cbn [snd Sql.update_actual_spent Sql.expenses].
    rewrite map_app. simpl. apply NoDup_snoc; [exact He | apply next_rowid_fresh].
Qed.

(** [add_expense] changes no trip but the one the expense names: every
    other trip reads back as before. *)
Theorem add_expense_frame (db : Sql.database) (expense : Expense.t) (j : Z) :
  Sql.primary_keys db -> j <> Expense.trip_id expense ->
  TravelStorage.get_trip_by_id (snd (TravelStorage.add_expense db expense)) j
  = TravelStorage.get_trip_by_id db j.
Proof.
  intros Hk Hj.
  apply get_trip_by_id_same_rows; [exact Hk | now apply add_expense_keys|].
  intros r Hr. rewrite add_expense_unfold. cbv zeta.
  cbn [snd Sql.update_actual_spent Sql.trips]. rewrite in_map_iff. split.
  - intros (r0 & Hr0 & Hin0).
    destruct (Z.eqb_spec (TripsRow.id r0) (Expense.trip_id expense)) as [E | E].
    + subst r. simpl in Hr. congruence.
    + now subst.
  - intro Hin0. exists r. split; [|exact Hin0].
    destruct (Z.eqb_spec (TripsRow.id r) (Expense.trip_id expense));
      [congruence | reflexivity].
Qed.

Lemma add_expense_frame_witness :
  TravelStorage.get_trip_by_id
    (snd (TravelStorage.add_expense db_one_expense (test_expense 7))) 1
  = TravelStorage.get_trip_by_id db_one_expense 1.
Proof.
  apply (add_expense_frame db_one_expense (test_expense 7) 1).
  - split; vm_compute; (constructor; [intros [] | constructor]).
  - simpl. lia.
Defined.

(** An expense that names a trip that is not stored is recorded all the
    same: [add_expense] returns its new id and appends the row, and the
    trips table stays as it is. *)
Theorem add_expense_without_trip (db : Sql.database) (expense : Expense.t) :
  (forall row, In row (Sql.trips db) -> TripsRow.id row <> Expense.trip_id expense) ->
  let db' := snd (TravelStorage.add_expense db expense) in
  0 < fst (TravelStorage.add_expense db expense) /\
  Sql.trips db' = Sql.trips db /\
  exists row,
    Sql.expenses db' = (Sql.expenses db ++ [row])%list /\
    ExpensesRow.id row = fst (TravelStorage.add_expense db expense) /\
    ExpensesRow.trip_id row = Expense.trip_id expense /\
    ExpensesRow.amount row = Expense.amount expense.
Proof.
  intro Hnone. cbv zeta. split; [apply add_expense_returns_rowid|]. split.
  - rewrite add_expense_unfold. cbv zeta. cbn [snd Sql.update_actual_spent Sql.trips].
    rewrite <- (map_id (Sql.trips db)) at 2. apply map_ext_in.
    intros r Hr. specialize (Hnone r Hr).
    destruct (Z.eqb_spec (TripsRow.id r) (Expense.trip_id expense));
      [contradiction | reflexivity].
  - rewrite add_expense_unfold. cbv zeta. cbn [fst snd Sql.update_actual_spent Sql.expenses].
    rewrite or_zero_next_rowid. eexists. split; [reflexivity|]. repeat split.
Qed.

Lemma add_expense_without_trip_witness :
  0 < fst (TravelStorage.add_expense db_one_expense (test_expense 7)) /\
  Sql.trips (snd (TravelStorage.add_expense db_one_expense (test_expense 7)))
  = Sql.trips db_one_expense.
Proof.
  pose proof (add_expense_without_trip db_one_expense (test_expense 7)) as H.
  cbv zeta in H.
  split; apply H; intros row Hin; vm_compute in Hin;
    destruct Hin as [<- | []]; vm_compute; discriminate.
Defined.

(** ** [delete_expense] after [add_expense]: the stale total *)

Lemma filter_fresh_id (ids_of : ExpensesRow.t -> Z) (l : list ExpensesRow.t) (k : Z) :
  ~ In k (map ids_of l) -> filter (fun r => negb (ids_of r =? k)) l = l.
Proof.
  induction l as [|r l IH]; simpl; [reflexivity|].
  intro H. destruct (Z.eqb_spec (ids_of r) k) as [E | E]; [tauto|].
  simpl. rewrite IH; [reflexivity | tauto].
Qed.

(** Adding an expense to a stored trip and deleting it again puts the
    expenses table back as it was, yet the trip keeps reading back with the
    total that included the expense. *)
Theorem add_then_delete_expense (db : Sql.database) (expense : Expense.t) :
  (exists row, In row (Sql.trips db) /\ TripsRow.id row = Expense.trip_id expense) ->
  let trip_id := Expense.trip_id expense in
  let expense_id := fst (TravelStorage.add_expense db expense) in
  let db1 := snd (TravelStorage.add_expense db expense) in
  let db2 := snd (TravelStorage.delete_expense db1 expense_id) in
  fst (TravelStorage.delete_expense db1 expense_id) = true /\
  Sql.expenses db2 = Sql.expenses db /\
  TravelStorage.get_total_expenses_by_trip db2 trip_id
  = TravelStorage.get_total_expenses_by_trip db trip_id /\
  (exists trip, TravelStorage.get_trip_by_id db2 trip_id = Some trip) /\
  (forall trip, TravelStorage.get_trip_by_id db2 trip_id = Some trip ->
     (Trip.actual_spent trip
      == TravelStorage.get_total_expenses_by_trip db2 trip_id
         + Expense.amount expense)%Q).
Proof.
  intros Hex. cbv zeta.
  pose proof (next_rowid_fresh (Sql.expenses_seq db)
                (map ExpensesRow.id (Sql.expenses db))) as Hfresh.
  assert (Hexp : Sql.expenses
                   (snd (TravelStorage.delete_expense
                           (snd (TravelStorage.add_expense db expense))
                           (fst (TravelStorage.add_expense db expense))))
                 = Sql.expenses db).
  { rewrite delete_expense_unfold. cbn [snd Sql.expenses].
    rewrite add_expense_unfold. cbv zeta.
    cbn [fst snd Sql.update_actual_spent Sql.expenses]. rewrite or_zero_next_rowid.
    rewrite filter_app. simpl. rewrite Z.eqb_refl. simpl.
    rewrite app_nil_r. now apply filter_fresh_id. }
  assert (Htrips : Sql.trips
                     (snd (TravelStorage.delete_expense
                             (snd (TravelStorage.add_expense db expense))
                             (fst (TravelStorage.add_expense db expense))))
                   = Sql.trips (snd (TravelStorage.add_expense db expense)))
    by reflexivity.
  assert (Htotal : TravelStorage.get_total_expenses_by_trip
                     (snd (TravelStorage.delete_expense
                             (snd (TravelStorage.add_expense db expense))
                             (fst (TravelStorage.add_expense db expense))))
                     (Expense.trip_id expense)
                   = TravelStorage.get_total_expenses_by_trip db
                       (Expense.trip_id expense)).
  { unfold TravelStorage.get_total_expenses_by_trip, Sql.total_amount.
    now rewrite Hexp. }
  split; [|split; [exact Hexp | split; [exact Htotal | split]]].
  - rewrite delete_expense_unfold. cbn [fst].
    rewrite add_expense_unfold. cbv zeta.
    cbn [fst snd Sql.update_actual_spent Sql.expenses]. rewrite or_zero_next_rowid.
    rewrite filter_app. simpl. rewrite Z.eqb_refl. rewrite length_app. simpl.
    apply Z.gtb_lt. lia.
  - apply get_trip_by_id_found.
    destruct Hex as (row & Hin & Hid).
    assert (Hi : In (TripsRow.id row)
                    (map TripsRow.id
                         (Sql.trips (snd (TravelStorage.add_expense db expense)))))
      by (rewrite add_expense_keeps_trip_ids; now apply in_map).
    apply in_map_iff in Hi as (row' & Hid' & Hin').
    exists row'. rewrite Htrips. split; congruence.
  - intros trip Ht. apply get_trip_by_id_some in Ht as (row & Hin & Hid & ->).
    rewrite Htrips in Hin. rewrite Htotal.
    change (Trip.actual_spent (TravelStorage.trip_of_row row))
      with (TripsRow.actual_spent row).
    rewrite (add_expense_trip_rows db expense row Hin Hid).
    apply add_expense_total.
Qed.

Lemma add_then_delete_expense_witness :
  Sql.expenses
    (snd (TravelStorage.delete_expense
            (snd (TravelStorage.add_expense db_one_trip (test_expense 1)))
            (fst (TravelStorage.add_expense db_one_trip (test_expense 1)))))
  = Sql.expenses db_one_trip.
Proof.
  pose proof (add_then_delete_expense db_one_trip (test_expense 1)) as H.
  cbv zeta in H. apply H.
  eexists. split; [left; reflexivity | reflexivity].
Defined.

(** ** Row ids are not handed out twice *)

Lemma next_rowid_bounded (seq : Z) (ids : list Z) :
  (forall i, In i ids -> i <= seq) -> 0 <= seq -> Sql.next_rowid seq ids = seq + 1.
Proof.
  intros Hb H0. unfold Sql.next_rowid, Sql.max_id.
  assert (fold_right Z.max 0 ids <= seq).
  { induction ids as [|j ids IH]; simpl; [lia|].
    assert (j <= seq) by (apply Hb; now left).
    assert (fold_right Z.max 0 ids <= seq) by (apply IH; intros; apply Hb; now right).
    lia. }
  lia.
Qed.

Lemma reachable_seq_bounds (db : Sql.database) :
  TravelStorage.reachable db ->
  seq_bounds db /\ 0 <= Sql.trips_seq db /\ 0 <= Sql.expenses_seq db.
Proof.
  unfold seq_bounds.
  induction 1 as [|db t _ IH|db e _ IH|db i _ IH|db i _ IH|db t _ IH];
    try destruct IH as ((IHt & IHe) & H0t & H0e).
  - simpl. repeat split; (tauto || lia).
  - rewrite add_trip_unfold. cbv zeta. cbn [snd Sql.trips Sql.trips_seq Sql.expenses
                                            Sql.expenses_seq].
    rewrite (next_rowid_bounded _ _ IHt H0t).
    repeat split; try assumption; try lia.
    intros i Hi. rewrite map_app, in_app_iff in Hi. destruct Hi as [Hi | [<- | []]].
    + specialize (IHt i Hi). lia.
    + simpl. lia.
  - rewrite add_expense_unfold. cbv zeta.
    cbn [snd Sql.update_actual_spent Sql.trips Sql.trips_seq Sql.expenses
         Sql.expenses_seq].
    rewrite (next_rowid_bounded _ _ IHe H0e).
    repeat split; try assumption; try lia.
    + intros i Hi. apply IHt. rewrite map_map in Hi.
      erewrite map_ext in Hi; [exact Hi|].
      intro r. simpl. now destruct (TripsRow.id r =? Expense.trip_id e).
    + intros i Hi. rewrite map_app, in_app_iff in Hi. destruct Hi as [Hi | [<- | []]].
      * specialize (IHe i Hi). lia.
      * simpl. lia.
  - rewrite delete_trip_unfold. cbn [snd Sql.trips Sql.trips_seq Sql.expenses
                                     Sql.expenses_seq].
    repeat split; try assumption.
    intros j Hj. apply IHt. apply in_map_iff in Hj as (r & <- & Hr).
    apply filter_In in Hr as [Hr _]. now apply in_map.
  - rewrite delete_expense_unfold. cbn [snd Sql.trips Sql.trips_seq Sql.expenses
                                        Sql.expenses_seq].
    repeat split; try assumption.
    intros j Hj. apply IHe. apply in_map_iff in Hj as (r & <- & Hr).
    apply filter_In in Hr as [Hr _]. now apply in_map.
  - repeat split; try assumption.
    intros j Hj. apply IHt. now rewrite update_trip_ids in Hj.
Qed.

(** On a database the application has reached, a trip that is added and
    deleted again leaves its id unused for good: the next trip added gets
    the id after it. *)
Theorem deleted_trip_id_not_reused (db : Sql.database) (t1 t2 : Trip.t) :
  TravelStorage.reachable db ->
  let id1 := fst (TravelStorage.add_trip db t1) in
  let db1 := snd (TravelStorage.add_trip db t1) in
  let db2 := snd (TravelStorage.delete_trip db1 id1) in
  fst (TravelStorage.delete_trip db1 id1) = true /\
  fst (TravelStorage.add_trip db2 t2) = id1 + 1 /\
  (forall row, In row (Sql.trips db) -> TripsRow.id row < id1).
Proof.
  intros Hr. cbv zeta.
  destruct (reachable_seq_bounds db Hr) as ((Hb & _) & H0 & _).
  pose proof (TravelStorage.reach_add_trip db t1 Hr) as Hr1.
  pose proof (TravelStorage.reach_delete_trip _ (fst (TravelStorage.add_trip db t1)) Hr1)
    as Hr2.
  destruct (reachable_seq_bounds _ Hr2) as ((Hb2 & _) & H02 & _).
  split; [|split].
  - apply delete_trip_true_iff.
    rewrite add_trip_unfold. cbv zeta. cbn [fst snd Sql.trips].
    rewrite or_zero_next_rowid. eexists. split.
    + apply in_or_app. right. left. reflexivity.
    + reflexivity.
  - rewrite (add_trip_unfold _ t2). cbv zeta. cbn [fst].
    rewrite or_zero_next_rowid, (next_rowid_bounded _ _ Hb2 H02).
    rewrite delete_trip_unfold. cbn [snd Sql.trips_seq].
    rewrite add_trip_unfold. cbv zeta. cbn [fst snd Sql.trips_seq].
    now rewrite or_zero_next_rowid.
  - intros row Hin. rewrite add_trip_unfold. cbv zeta. cbn [fst].
    rewrite or_zero_next_rowid, (next_rowid_bounded _ _ Hb H0).
    specialize (Hb _ (in_map TripsRow.id _ _ Hin)). lia.
Qed.

Lemma deleted_trip_id_not_reused_witness :
  fst (TravelStorage.add_trip
         (snd (TravelStorage.delete_trip
                 (snd (TravelStorage.add_trip db_one_expense paris_trip))
                 (fst (TravelStorage.add_trip db_one_expense paris_trip))))
         test_trip)
  = fst (TravelStorage.add_trip db_one_expense paris_trip) + 1.
Proof.
  apply (deleted_trip_id_not_reused db_one_expense paris_trip test_trip).
  apply TravelStorage.reach_add_expense, TravelStorage.reach_add_trip.
  apply TravelStorage.reach_init.
Defined.

(** ** [get_expenses_by_trip] *)

Lemma expense_of_row_unfold (row : ExpensesRow.t) :
  TravelStorage.expense_of_row row
  = if Qle_bool (ExpensesRow.amount row) 0 then Raise Expense.amount_error
    else Ok (expense_data row).
Proof. reflexivity. Qed.

Lemma mapM_ok {A B : Type} (f : A -> result B) (g : A -> B) (l : list A) :
  (forall x, In x l -> f x = Ok (g x)) -> mapM f l = Ok (map g l).
Proof.
  induction l as [|x l IH]; intro H; [reflexivity|].
  simpl. rewrite (H x) by now left. simpl.
  rewrite IH by (intros y Hy; apply H; now right). reflexivity.
Qed.

Lemma mapM_raise {A B : Type} (f : A -> result B) (g : A -> B) (e : exn) (l : list A) :
  (forall x, In x l -> f x = Ok (g x) \/ f x = Raise e) ->
  (exists x, In x l /\ f x = Raise e) -> mapM f l = Raise e.
Proof.
  induction l as [|x l IH]; intros Hall (y & Hy & Hf); [contradiction|].
  simpl. destruct (Hall x (or_introl eq_refl)) as [Hx | Hx]; rewrite Hx; simpl;
    [|reflexivity].
  rewrite IH; [reflexivity | intros z Hz; apply Hall; now right |].
  destruct Hy as [-> | Hy]; [congruence | eauto].
Qed.

Lemma date_gtb_spec (x y : datetime.date) :
  datetime.gtb x y = true <->
  datetime.year x > datetime.year y \/
  (datetime.year x = datetime.year y /\
   (datetime.month x > datetime.month y \/
    (datetime.month x = datetime.month y /\ datetime.day x > datetime.day y))).
Proof.
  unfold datetime.gtb, datetime.cmp.
  destruct (Z.compare_spec (datetime.year x) (datetime.year y));
    [|split; [discriminate | lia] | split; [lia | reflexivity]].
  destruct (Z.compare_spec (datetime.month x) (datetime.month y));
    [|split; [discriminate | lia] | split; [lia | reflexivity]].
  destruct (Z.compare_spec (datetime.day x) (datetime.day y));
    split; try discriminate; try lia; reflexivity.
Qed.

Lemma date_gtb_false_spec (x y : datetime.date) :
  datetime.gtb x y = false <->
  datetime.year x < datetime.year y \/
  (datetime.year x = datetime.year y /\
   (datetime.month x < datetime.month y \/
    (datetime.month x = datetime.month y /\ datetime.day x <= datetime.day y))).
Proof.
  rewrite <- not_true_iff_false, date_gtb_spec. lia.
Qed.

Lemma sql_date_before_ahead (x y : option datetime.date) :
  Sql.date_gtb x y = true -> Sql.date_gtb y x = false.
Proof.
  destruct x as [dx|], y as [dy|]; simpl; try reflexivity; try discriminate.
  rewrite date_gtb_spec, date_gtb_false_spec. lia.
Qed.

Lemma sql_date_ahead_trans (x y z : option datetime.date) :
  Sql.date_gtb y x = false -> Sql.date_gtb z y = false -> Sql.date_gtb z x = false.
Proof.
  destruct x as [dx|], y as [dy|], z as [dz|]; simpl;
    try reflexivity; try discriminate.
  rewrite !date_gtb_false_spec. lia.
Qed.

Lemma select_expenses_sorted (trip_id : Z) (db : Sql.database) :
  StronglySorted
    (fun a b => Sql.date_gtb (ExpensesRow.date b) (ExpensesRow.date a) = false)
    (Sql.select_expenses_by_trip trip_id db).
Proof.
  unfold Sql.select_expenses_by_trip.
  apply (order_by_sorted
           (fun y x => Sql.date_gtb (ExpensesRow.date y) (ExpensesRow.date x))).
  - intros x y. apply sql_date_before_ahead.
  - intros x y z. apply sql_date_ahead_trans.
Qed.

(** When every stored amount of the trip is above zero, the expenses of the
    trip are returned: each row of the trip once, as an [Expense] carrying
    the row's id, no expense of another trip, and no expense listed ahead of
    one dated later. *)
Theorem get_expenses_by_trip_lists (db : Sql.database) (trip_id : Z) :
  (forall r, In r (rows_of_trip trip_id db) -> (0 < ExpensesRow.amount r)%Q) ->
  exists l : list Expense.t,
    TravelStorage.get_expenses_by_trip db trip_id = Ok l /\
    Permutation l (map expense_data (rows_of_trip trip_id db)) /\
    (forall e, In e l -> Expense.trip_id e = trip_id) /\
    StronglySorted listed_ahead l.
Proof.
  intro Hpos.
  assert (Hin : forall r, In r (Sql.select_expenses_by_trip trip_id db) <->
                          In r (rows_of_trip trip_id db))
    by (intro r; apply order_by_In).
  exists (map expense_data (Sql.select_expenses_by_trip trip_id db)).
  split; [|split; [|split]].
  - unfold TravelStorage.get_expenses_by_trip. apply mapM_ok.
    intros r Hr. rewrite expense_of_row_unfold.
    apply Hin, Hpos, Qle_bool_false_iff in Hr. now rewrite Hr.
  - apply Permutation_map, order_by_perm.
  - intros e He. apply in_map_iff in He as (r & <- & Hr).
    apply Hin, filter_In in Hr as [_ Hr]. now apply Z.eqb_eq.
  - apply (StronglySorted_map
             (fun a b => Sql.date_gtb (ExpensesRow.date b) (ExpensesRow.date a) = false)
             listed_ahead expense_data).
    + intros a b H. exact H.
    + apply select_expenses_sorted.
Qed.

Lemma get_expenses_by_trip_lists_witness :
  exists l : list Expense.t,
    TravelStorage.get_expenses_by_trip db_one_expense 1 = Ok l /\
    Permutation l (map expense_data (rows_of_trip 1 db_one_expense)) /\
    (forall e, In e l -> Expense.trip_id e = 1) /\
    StronglySorted listed_ahead l.
Proof.
  apply (get_expenses_by_trip_lists db_one_expense 1).
  intros r Hr. vm_compute in Hr. destruct Hr as [<- | []]. reflexivity.
Defined.

(** [add_expense] stores an amount of zero or less as it is (an [Expense]
    changed after it was built), and from then on reading the expenses of
    that trip raises the error of [__post_init__]. *)
Theorem stored_bad_amount_breaks_reading (db : Sql.database) (expense : Expense.t) :
  (Expense.amount expense <= 0)%Q ->
  TravelStorage.get_expenses_by_trip
    (snd (TravelStorage.add_expense db expense)) (Expense.trip_id expense)
  = Raise Expense.amount_error.
Proof.
  intro Hbad. unfold TravelStorage.get_expenses_by_trip.
  apply (mapM_raise _ expense_data).
  - intros r _. rewrite expense_of_row_unfold.
    destruct (Qle_bool (ExpensesRow.amount r) 0); [now right | now left].
  - destruct (add_expense_stores_amount db expense) as (row & Hrows & Hamount & Htrip).
    exists row. split.
    + apply order_by_In, filter_In. split; [|now apply Z.eqb_eq].
      rewrite Hrows. apply in_or_app. right. now left.
    + rewrite expense_of_row_unfold, Hamount.
      apply Qle_bool_iff in Hbad. now rewrite Hbad.
Qed.

Lemma stored_bad_amount_breaks_reading_witness :
  TravelStorage.get_expenses_by_trip
    (snd (TravelStorage.add_expense db_one_expense (set_amount 0 (test_expense 1)))) 1
  = Raise Expense.amount_error.
Proof.
  apply (stored_bad_amount_breaks_reading db_one_expense
           (set_amount 0 (test_expense 1))).
  vm_compute. discriminate.
Defined.

(** ** [get_total_expenses_by_trip] *)

Lemma fold_left_Qplus_sum (xs : list Q) (a : Q) :
  (fold_left Qplus xs a == a + Qsum xs)%Q.
Proof.
  revert a. induction xs as [|x xs IH]; intro a; simpl.
  - now rewrite Qplus_0_r.
  - rewrite IH. now rewrite Qplus_assoc.
Qed.

Lemma coalesce_sum (xs : list Q) : (Sql.COALESCE (Sql.SUM xs) 0 == Qsum xs)%Q.
Proof.
  destruct xs as [|x xs]; simpl; [reflexivity | apply fold_left_Qplus_sum].
Qed.

Lemma Qsum_perm (xs ys : list Q) : Permutation xs ys -> (Qsum xs == Qsum ys)%Q.
Proof.
  induction 1 as [|x l l' _ IH|x y l|l l' l'' _ IH1 _ IH2]; simpl.
  - reflexivity.
  - now rewrite IH.
  - rewrite !Qplus_assoc. now rewrite (Qplus_comm y x).
  - now rewrite IH1.
Qed.

Lemma mapM_ok_inv {A B : Type} (f : A -> result B) (g : A -> B) (l : list A) :
  (forall x y, f x = Ok y -> y = g x) ->
  forall l', mapM f l = Ok l' -> l' = map g l.
Proof.
  intro Hg. induction l as [|x l IH]; simpl; intros l' H.
  - now injection H as <-.
  - destruct (f x) as [y|] eqn:Ef; [|discriminate]. simpl in H.
    destruct (mapM f l) as [ys|]; [|discriminate]. simpl in H.
    injection H as <-. now rewrite (Hg x y Ef), (IH ys eq_refl).
Qed.

(** The total of a trip is 0 when it has no expense row, and whenever
    [get_expenses_by_trip] returns the expenses the total is the sum of
    their amounts. *)
Theorem get_total_expenses_by_trip_sums (db : Sql.database) (trip_id : Z) :
  (rows_of_trip trip_id db = [] ->
   TravelStorage.get_total_expenses_by_trip db trip_id = 0%Q) /\
  (forall l, TravelStorage.get_expenses_by_trip db trip_id = Ok l ->
     (TravelStorage.get_total_expenses_by_trip db trip_id
      == Qsum (map Expense.amount l))%Q).
Proof.
  unfold TravelStorage.get_total_expenses_by_trip, Sql.total_amount.
  fold (rows_of_trip trip_id db). split.
  - intros ->. reflexivity.
  - intros l Hl. unfold TravelStorage.get_expenses_by_trip in Hl.
    apply (mapM_ok_inv _ expense_data) in Hl.
    + subst l. rewrite coalesce_sum, map_map.
      apply Qsum_perm. symmetry.
      change (fun x => Expense.amount (expense_data x)) with ExpensesRow.amount.
      apply Permutation_map, order_by_perm.
    + intros r e. rewrite expense_of_row_unfold.
      destruct (Qle_bool _ _); [discriminate | congruence].
Qed.

Lemma get_total_expenses_by_trip_sums_witness :
  TravelStorage.get_total_expenses_by_trip db_one_trip 1 = 0%Q.
Proof. apply (get_total_expenses_by_trip_sums db_one_trip 1). reflexivity. Defined.

(** ** analysis.py: the summary of a trip with expenses *)

Lemma ascii_compare_refl (a : ascii) : Ascii.compare a a = Eq.
Proof. unfold Ascii.compare. apply N.compare_refl. Qed.

Lemma ascii_compare_lt_trans (a b c : ascii) :
  Ascii.compare a b = Lt -> Ascii.compare b c = Lt -> Ascii.compare a c = Lt.
Proof. unfold Ascii.compare. rewrite !N.compare_lt_iff. apply N.lt_trans. Qed.

Lemma string_compare_refl (s : string) : String.compare s s = Eq.
Proof. induction s as [|a s IH]; simpl; [reflexivity|]. now rewrite ascii_compare_refl. Qed.

Lemma label_lt_trans (s1 s2 s3 : string) :
  label_lt s1 s2 -> label_lt s2 s3 -> label_lt s1 s3.
Proof.
  unfold label_lt. revert s2 s3.
  induction s1 as [|a s1 IH]; intros [|b s2] [|c s3]; simpl; try discriminate; auto.
  destruct (Ascii.compare a b) eqn:Eab; try discriminate;
    destruct (Ascii.compare b c) eqn:Ebc; try discriminate; intros H1 H2.
  - apply Ascii.compare_eq_iff in Eab, Ebc. subst. rewrite ascii_compare_refl. eauto.
  - apply Ascii.compare_eq_iff in Eab. subst. now rewrite Ebc.
  - apply Ascii.compare_eq_iff in Ebc. subst. now rewrite Eab.
  - now rewrite (ascii_compare_lt_trans _ _ _ Eab Ebc).
Qed.

Lemma label_lt_irrefl (s : string) : ~ label_lt s s.
Proof. unfold label_lt. now rewrite string_compare_refl. Qed.

Lemma insert_key_In (k x : string) (ks : list string) :
  In x (TravelAnalyzer.insert_key k ks) <-> x = k \/ In x ks.
Proof.
  induction ks as [|k' ks IH]; simpl.
  - intuition.
  - destruct (String.compare k k') eqn:E; simpl.
    + apply String.compare_eq_iff in E. subst k'. intuition.
    + intuition.
    + rewrite IH. intuition.
Qed.

Lemma insert_key_sorted (k : string) (ks : list string) :
  StronglySorted label_lt ks -> StronglySorted label_lt (TravelAnalyzer.insert_key k ks).
Proof.
  induction 1 as [|k' ks Hs IH Hall]; simpl.
  - repeat constructor.
  - destruct (String.compare k k') eqn:E.
    + now constructor.
    + constructor; [now constructor|].
      constructor; [exact E|].
      rewrite Forall_forall in *. intros x Hx.
      exact (label_lt_trans _ _ _ E (Hall x Hx)).
    + constructor; [exact IH|].
      rewrite Forall_forall in *. intros x Hx.
      apply insert_key_In in Hx as [-> | Hx]; [|now apply Hall].
      unfold label_lt. rewrite String.compare_antisym, E. reflexivity.
Qed.

Lemma group_keys_In (x : string) (labels : list string) :
  In x (TravelAnalyzer.group_keys labels) <-> In x labels.
Proof.
  unfold TravelAnalyzer.group_keys.
  induction labels as [|l labels IH]; simpl; [tauto|].
  rewrite insert_key_In, IH. intuition.
Qed.

Lemma group_keys_sorted (labels : list string) :
  StronglySorted label_lt (TravelAnalyzer.group_keys labels).
Proof.
  unfold TravelAnalyzer.group_keys.
  induction labels as [|l labels IH]; simpl; [constructor|].
  now apply insert_key_sorted.
Qed.

Lemma label_sorted_NoDup (ks : list string) : StronglySorted label_lt ks -> NoDup ks.
Proof.
  induction 1 as [|k ks Hs IH Hall]; constructor; [|exact IH].
  intro Hin. rewrite Forall_forall in Hall.
  exact (label_lt_irrefl k (Hall k Hin)).
Qed.

Lemma by_category_sums_keys (rows : list ExpensesFrame.row) :
  map fst (TravelAnalyzer.by_category_sums rows)
  = TravelAnalyzer.group_keys (map ExpensesFrame.category rows).
Proof.
  unfold TravelAnalyzer.by_category_sums. rewrite map_map. simpl. apply map_id.
Qed.

Lemma filter_map_comm {A B : Type} (f : A -> B) (p : B -> bool) (l : list A) :
  filter p (map f l) = map f (filter (fun x => p (f x)) l).
Proof.
  induction l as [|x l IH]; simpl; [reflexivity|].
  destruct (p (f x)); simpl; now rewrite IH.
Qed.

(** The summary of a trip that has an expense, entry by entry. *)
Lemma summary_with_expenses
    (trips : list Trip.t) (expenses : list Expense.t) (trip_id : Z) :
  expenses_of_trip trip_id expenses <> [] ->
  TravelAnalyzer.get_trip_expense_summary (TravelAnalyzer.new trips expenses) trip_id
  = let rows := map TravelAnalyzer.expenses_frame_row (expenses_of_trip trip_id expenses) in
    let total := TravelAnalyzer.sum (map ExpensesFrame.amount rows) in
    Summary.Filled
      (Summary.mk total (TravelAnalyzer.by_category_sums rows)
         (TravelAnalyzer.daily_average total
            (TravelAnalyzer.dropna (map ExpensesFrame.date rows)))
         (TravelAnalyzer.max (map ExpensesFrame.amount rows))
         (Z.of_nat (List.length rows))).
Proof.
  intro Hne. unfold TravelAnalyzer.get_trip_expense_summary.
  rewrite trip_rows_new. fold (expenses_of_trip trip_id expenses).
  destruct expenses as [|e0 l]; [now elim Hne|].
  change (TravelAnalyzer.empty
            (TravelAnalyzer.df_expenses (TravelAnalyzer.new trips (e0 :: l))))
    with false.
  cbv iota.
  destruct (expenses_of_trip trip_id (e0 :: l)) as [|e l']; [now elim Hne|].
  reflexivity.
Qed.

Lemma summary_filled_cases
    (trips : list Trip.t) (expenses : list Expense.t) (trip_id : Z) (f : Summary.fields) :
  TravelAnalyzer.get_trip_expense_summary (TravelAnalyzer.new trips expenses) trip_id
  = Summary.Filled f ->
  (expenses_of_trip trip_id expenses = [] /\ f = Summary.mk 0%Q [] 0%Q 0%Q 0) \/
  (expenses_of_trip trip_id expenses <> [] /\
   let rows := map TravelAnalyzer.expenses_frame_row (expenses_of_trip trip_id expenses) in
   let total := TravelAnalyzer.sum (map ExpensesFrame.amount rows) in
   f = Summary.mk total (TravelAnalyzer.by_category_sums rows)
         (TravelAnalyzer.daily_average total
            (TravelAnalyzer.dropna (map ExpensesFrame.date rows)))
         (TravelAnalyzer.max (map ExpensesFrame.amount rows))
         (Z.of_nat (List.length rows))).
Proof.
  intro H.
  destruct (expenses_of_trip trip_id expenses) as [|e l] eqn:E.
  - left. split; [reflexivity|].
    rewrite summary_without_expenses in H.
    + destruct expenses; [discriminate|]. now injection H as <-.
    + unfold TravelAnalyzer.trip_expense_count. simpl.
      fold (expenses_of_trip trip_id expenses). now rewrite E.
  - right. split; [discriminate|].
    rewrite summary_with_expenses in H by (rewrite E; discriminate).
    rewrite E in H. now injection H as <-.
Qed.

Lemma category_label_listed (e : Expense.t) :
  In (category_label e) (map ExpenseCategory.value all_categories).
Proof.
  unfold category_label. apply in_map.
  destruct (Expense.category e); simpl; tauto.
Qed.

(** The category breakdown of a summary has one entry for each category
    label met among the expenses of the trip and no other; the labels are in
    strictly ascending order, hence distinct, and there are at most seven;
    the value under a label is the sum over the trip's expenses of that
    category, in the order they were given. *)
Theorem summary_by_category
    (trips : list Trip.t) (expenses : list Expense.t) (trip_id : Z) (f : Summary.fields) :
  TravelAnalyzer.get_trip_expense_summary (TravelAnalyzer.new trips expenses) trip_id
  = Summary.Filled f ->
  let keys := map fst (Summary.by_category f) in
  StronglySorted label_lt keys /\ NoDup keys /\ (List.length keys <= 7)%nat /\
  (forall c, In c keys <->
     exists e, In e (expenses_of_trip trip_id expenses) /\ category_label e = c) /\
  (forall c v, In (c, v) (Summary.by_category f) ->
     v = TravelAnalyzer.sum
           (map Expense.amount
                (expenses_of_category c (expenses_of_trip trip_id expenses)))).
Proof.
  intros H keys. subst keys.
  apply summary_filled_cases in H as [[E ->] | [Hne ->]]; simpl.
  - rewrite E. repeat split; try constructor; try lia; try tauto.
    intros (e & [] & _).
  - rewrite by_category_sums_keys, map_map.
    change (fun x => ExpensesFrame.category (TravelAnalyzer.expenses_frame_row x))
      with category_label.
    pose proof (group_keys_sorted
                  (map category_label (expenses_of_trip trip_id expenses))) as Hs.
    assert (Hin : forall c,
               In c (TravelAnalyzer.group_keys
                       (map category_label (expenses_of_trip trip_id expenses))) <->
               exists e, In e (expenses_of_trip trip_id expenses) /\ category_label e = c).
    { intro c. rewrite group_keys_In, in_map_iff. firstorder. }
    split; [exact Hs|]. split; [now apply label_sorted_NoDup|].
    split; [|split; [exact Hin|]].
    + change 7%nat with (List.length (map ExpenseCategory.value all_categories)).
      apply NoDup_incl_length; [now apply label_sorted_NoDup|].
      intros c Hc. apply Hin in Hc as (e & _ & <-). apply category_label_listed.
    + intros c v Hcv. unfold TravelAnalyzer.by_category_sums in Hcv.
      apply in_map_iff in Hcv as (k & Hk & _). injection Hk as <- <-.
      rewrite filter_map_comm, map_map. reflexivity.
Qed.

Lemma summary_by_category_witness :
  map fst
    (match TravelAnalyzer.get_trip_expense_summary
             (TravelAnalyzer.new [test_trip] fixture_expenses) 1 with
     | Summary.Filled f => Summary.by_category f
     | Summary.Empty => []
     end)
  = [ExpenseCategory.value ExpenseCategory.FOOD;
     ExpenseCategory.value ExpenseCategory.TRANSPORT] /\
  NoDup [ExpenseCategory.value ExpenseCategory.FOOD;
         ExpenseCategory.value ExpenseCategory.TRANSPORT].
Proof.
  split; [reflexivity|].
  exact (proj1 (proj2 (summary_by_category [test_trip] fixture_expenses 1 _ eq_refl))).
Defined.

Lemma Qmaxb_cases (a b : Q) :
  (TravelAnalyzer.Qmaxb a b = a \/ TravelAnalyzer.Qmaxb a b = b) /\
  (a <= TravelAnalyzer.Qmaxb a b)%Q /\ (b <= TravelAnalyzer.Qmaxb a b)%Q.
Proof.
  unfold TravelAnalyzer.Qmaxb. destruct (Qle_bool a b) eqn:E.
  - apply Qle_bool_iff in E. split; [now right|]. split; [exact E | apply Qle_refl].
  - apply Qle_bool_false_iff in E. split; [now left|].
    split; [apply Qle_refl | now apply Qlt_le_weak].
Qed.

Lemma fold_max_spec (xs : list Q) (x : Q) :
  In (fold_left TravelAnalyzer.Qmaxb xs x) (x :: xs) /\
  (forall y, In y (x :: xs) -> (y <= fold_left TravelAnalyzer.Qmaxb xs x)%Q).
Proof.
  revert x. induction xs as [|a xs IH]; intro x; simpl.
  - split; [now left|]. intros y [<- | []]. apply Qle_refl.
  - destruct (IH (TravelAnalyzer.Qmaxb x a)) as [Hin Hle].
    destruct (Qmaxb_cases x a) as (Hc & Hx & Ha). split.
    + destruct Hin as [Hin | Hin]; [|now right; right].
      rewrite <- Hin. destruct Hc as [-> | ->]; [now left | now right; left].
    + intros y [<- | [<- | Hy]].
      * eapply Qle_trans; [exact Hx|]. apply Hle. now left.
      * eapply Qle_trans; [exact Ha|]. apply Hle. now left.
      * apply Hle. now right.
Qed.

Lemma max_spec (xs : list Q) :
  xs <> [] ->
  In (TravelAnalyzer.max xs) xs /\ (forall y, In y xs -> (y <= TravelAnalyzer.max xs)%Q).
Proof.
  destruct xs as [|x xs]; [congruence|]. intros _. apply fold_max_spec.
Qed.

(** For a trip that has an expense the summary is filled, its count is the
    number of the trip's expenses, and its greatest expense is the amount
    of one of them and bounds the amount of each. *)
Theorem summary_max_expense
    (trips : list Trip.t) (expenses : list Expense.t) (trip_id : Z) (e0 : Expense.t) :
  In e0 expenses -> Expense.trip_id e0 = trip_id ->
  exists f : Summary.fields,
    TravelAnalyzer.get_trip_expense_summary (TravelAnalyzer.new trips expenses) trip_id
    = Summary.Filled f /\
    Summary.expense_count f = Z.of_nat (List.length (expenses_of_trip trip_id expenses)) /\
    0 < Summary.expense_count f /\
    (exists e, In e (expenses_of_trip trip_id expenses) /\
               Expense.amount e = Summary.max_expense f) /\
    (forall e, In e (expenses_of_trip trip_id expenses) ->
               (Expense.amount e <= Summary.max_expense f)%Q).
Proof.
  intros Hin Hid.
  assert (Hin0 : In e0 (expenses_of_trip trip_id expenses)).
  { apply filter_In. split; [exact Hin|]. now apply Z.eqb_eq. }
  assert (Hne : expenses_of_trip trip_id expenses <> []).
  { intro E. now rewrite E in Hin0. }
  eexists. split; [now apply summary_with_expenses|]. simpl.
  rewrite !length_map, !map_map.
  change (fun x => ExpensesFrame.amount (TravelAnalyzer.expenses_frame_row x))
    with Expense.amount.
  assert (Hne' : map Expense.amount (expenses_of_trip trip_id expenses) <> []).
  { intro E. apply map_eq_nil in E. contradiction. }
  destruct (max_spec _ Hne') as [Hmax Hle].
  split; [reflexivity|]. split.
  - destruct (expenses_of_trip trip_id expenses); [contradiction | simpl; lia].
  - split.
    + apply in_map_iff in Hmax as (e & He & Hine). now exists e.
    + intros e He. apply Hle. now apply in_map.
Qed.

Lemma summary_max_expense_witness :
  exists f : Summary.fields,
    TravelAnalyzer.get_trip_expense_summary
      (TravelAnalyzer.new [test_trip] fixture_expenses) 1 = Summary.Filled f /\
    Summary.expense_count f = 3 /\ Summary.max_expense f = 200%Q.
Proof.
  destruct (summary_max_expense [test_trip] fixture_expenses 1
              (fixture_expense 1 100 ExpenseCategory.FOOD))
    as (f & Hf & Hcount & _); [now left | reflexivity |].
  exists f. split; [exact Hf|]. split; [exact Hcount|].
  injection Hf as <-. reflexivity.
Defined.

(** *** The daily average *)

Lemma dropna_In (d : datetime.date) (xs : list (option datetime.date)) :
  In d (TravelAnalyzer.dropna xs) <-> In (Some d) xs.
Proof.
  unfold TravelAnalyzer.dropna. rewrite in_flat_map. split.
  - intros ([x|] & Hx & Hd); simpl in Hd; [|contradiction].
    destruct Hd as [-> | []]. exact Hx.
  - intro H. exists (Some d). split; [exact H | now left].
Qed.

Lemma trip_dates_dated (trip_id : Z) (expenses : list Expense.t) (d : datetime.date) :
  In d (TravelAnalyzer.dropna
          (map ExpensesFrame.date
               (map TravelAnalyzer.expenses_frame_row (expenses_of_trip trip_id expenses))))
  <-> dated trip_id expenses d.
Proof.
  rewrite dropna_In, map_map, in_map_iff. unfold dated. simpl.
  split; intros (e & H1 & H2); exists e; tauto.
Qed.

Lemma date_max_spec (ds : list datetime.date) (d : datetime.date) :
  (forall x, In x (d :: ds) -> datetime.valid x) ->
  In (TravelAnalyzer.date_max d ds) (d :: ds) /\
  (forall x, In x (d :: ds) ->
     datetime.toordinal x <= datetime.toordinal (TravelAnalyzer.date_max d ds)).
Proof.
  unfold TravelAnalyzer.date_max.
  revert d. induction ds as [|y ds IH]; intros d Hv; simpl.
  - split; [now left|]. intros x [<- | []]. lia.
  - set (m := if datetime.gtb y d then y else d).
    assert (Hm : (m = d \/ m = y) /\
                 datetime.toordinal d <= datetime.toordinal m /\
                 datetime.toordinal y <= datetime.toordinal m).
    { subst m. destruct (datetime.gtb y d) eqn:E.
      - split; [now right|]. split; [|lia].
        rewrite date_gtb_ltb in E.
        pose proof (toordinal_lt d y (Hv d (or_introl eq_refl))
                      (Hv y (or_intror (or_introl eq_refl))) E). lia.
      - split; [now left|]. split; [lia|].
        rewrite date_gtb_ltb in E.
        exact (toordinal_le y d (Hv y (or_intror (or_introl eq_refl)))
                 (Hv d (or_introl eq_refl)) E). }
    destruct Hm as (Hc & Hd & Hy).
    destruct (IH m) as [Hin Hle].
    { intros x [<- | Hx]; [|apply Hv; now right; right].
      destruct Hc as [-> | ->]; apply Hv; [now left | now right; left]. }
    split.
    + destruct Hin as [Hin | Hin]; [|now right; right].
      rewrite <- Hin. destruct Hc as [-> | ->]; [now left | now right; left].
    + intros x [<- | [<- | Hx]].
      * pose proof (Hle m (or_introl eq_refl)). lia.
      * pose proof (Hle m (or_introl eq_refl)). lia.
      * apply Hle. now right.
Qed.

Lemma date_min_spec (ds : list datetime.date) (d : datetime.date) :
  (forall x, In x (d :: ds) -> datetime.valid x) ->
  In (TravelAnalyzer.date_min d ds) (d :: ds) /\
  (forall x, In x (d :: ds) ->
     datetime.toordinal (TravelAnalyzer.date_min d ds) <= datetime.toordinal x).
Proof.
  unfold TravelAnalyzer.date_min.
  revert d. induction ds as [|y ds IH]; intros d Hv; simpl.
  - split; [now left|]. intros x [<- | []]. lia.
  - set (m := if datetime.ltb y d then y else d).
    assert (Hm : (m = d \/ m = y) /\
                 datetime.toordinal m <= datetime.toordinal d /\
                 datetime.toordinal m <= datetime.toordinal y).
    { subst m. destruct (datetime.ltb y d) eqn:E.
      - split; [now right|]. split; [|lia].
        pose proof (toordinal_lt y d (Hv y (or_intror (or_introl eq_refl)))
                      (Hv d (or_introl eq_refl)) E). lia.
      - split; [now left|]. split; [lia|].
        exact (toordinal_le d y (Hv d (or_introl eq_refl))
                 (Hv y (or_intror (or_introl eq_refl))) E). }
    destruct Hm as (Hc & Hd & Hy).
    destruct (IH m) as [Hin Hle].
    { intros x [<- | Hx]; [|apply Hv; now right; right].
      destruct Hc as [-> | ->]; apply Hv; [now left | now right; left]. }
    split.
    + destruct Hin as [Hin | Hin]; [|now right; right].
      rewrite <- Hin. destruct Hc as [-> | ->]; [now left | now right; left].
    + intros x [<- | [<- | Hx]].
      * pose proof (Hle m (or_introl eq_refl)). lia.
      * pose proof (Hle m (or_introl eq_refl)). lia.
      * apply Hle. now right.
Qed.

Lemma Qdiv_one (q : Q) : (q / inject_Z 1 == q)%Q.
Proof. unfold Qdiv. change (/ inject_Z 1)%Q with 1%Q. apply Qmult_1_r. Qed.

(** The daily average of a list of real dates is the total divided by a
    number of days that is at least one: one for fewer than two dates, and
    otherwise the span from the earliest date to the latest, both ends
    counted. *)
Lemma daily_average_span (total : Q) (dates : list datetime.date) :
  (forall d, In d dates -> datetime.valid d) ->
  exists days : Z,
    1 <= days /\
    (TravelAnalyzer.daily_average total dates == total / inject_Z days)%Q /\
    (forall d1 d2, In d1 dates -> In d2 dates ->
       datetime.toordinal d2 - datetime.toordinal d1 + 1 <= days) /\
    (days = 1 \/
     exists d1 d2, In d1 dates /\ In d2 dates /\
       days = datetime.toordinal d2 - datetime.toordinal d1 + 1).
Proof.
  intro Hv. destruct dates as [|d [|d' ds]].
  - exists 1. split; [lia|]. split; [simpl; symmetry; apply Qdiv_one|].
    split; [intros ? ? []|now left].
  - exists 1. split; [lia|]. split; [simpl; symmetry; apply Qdiv_one|].
    split; [|now left]. intros d1 d2 [<- | []] [<- | []]. lia.
  - unfold TravelAnalyzer.daily_average.
    set (l := d' :: ds) in *.
    destruct (date_max_spec l d Hv) as [Hmax_in Hmax].
    destruct (date_min_spec l d Hv) as [Hmin_in Hmin].
    set (hi := TravelAnalyzer.date_max d l) in *.
    set (lo := TravelAnalyzer.date_min d l) in *.
    unfold datetime.sub. cbn [datetime.days].
    exists (datetime.toordinal hi - datetime.toordinal lo + 1).
    pose proof (Hmin hi Hmax_in) as Hspan.
    split; [lia|]. split.
    + destruct (_ >? 0) eqn:E; [reflexivity|].
      rewrite Z.gtb_ltb in E. apply Z.ltb_ge in E. lia.
    + split.
      * intros d1 d2 H1 H2.
        pose proof (Hmax d2 H2). pose proof (Hmin d1 H1). lia.
      * right. exists lo, hi. auto.
Qed.

(** When the dated expenses of a trip carry real dates, the daily average of
    its summary is the total divided by a number of days that is at least
    one: one when fewer than two of the trip's expenses are dated, and
    otherwise the span from the earliest date to the latest, both ends
    counted; so the total is never divided by zero or by a negative
    number. *)
Theorem summary_daily_avg
    (trips : list Trip.t) (expenses : list Expense.t) (trip_id : Z) (f : Summary.fields) :
  TravelAnalyzer.get_trip_expense_summary (TravelAnalyzer.new trips expenses) trip_id
  = Summary.Filled f ->
  (forall d, dated trip_id expenses d -> datetime.valid d) ->
  exists days : Z,
    1 <= days /\
    (Summary.daily_avg f == Summary.total f / inject_Z days)%Q /\
    (forall d1 d2, dated trip_id expenses d1 -> dated trip_id expenses d2 ->
       datetime.toordinal d2 - datetime.toordinal d1 + 1 <= days) /\
    (days = 1 \/
     exists d1 d2, dated trip_id expenses d1 /\ dated trip_id expenses d2 /\
       days = datetime.toordinal d2 - datetime.toordinal d1 + 1).
Proof.
  intros H Hv.
  apply summary_filled_cases in H as [[E ->] | [Hne ->]]; simpl.
  - exists 1. split; [lia|]. split; [symmetry; apply Qdiv_one|]. split; [|now left].
    intros d1 d2 (e & He & _). rewrite E in He. destruct He.
  - set (total := TravelAnalyzer.sum _).
    set (dates := TravelAnalyzer.dropna _).
    destruct (daily_average_span total dates) as (days & H1 & Havg & Hall & Hex).
    { intros d Hd. apply Hv. now apply trip_dates_dated. }
    exists days. split; [exact H1|]. split; [exact Havg|]. split.
    + intros d1 d2 Hd1 Hd2. apply Hall; now apply trip_dates_dated.
    + destruct Hex as [-> | (d1 & d2 & Hd1 & Hd2 & ->)]; [now left|].
      right. exists d1, d2. split; [|split; [|reflexivity]]; now apply trip_dates_dated.
Qed.

Lemma summary_daily_avg_witness :
  exists (f : Summary.fields) (days : Z),
    TravelAnalyzer.get_trip_expense_summary
      (TravelAnalyzer.new [test_trip] dated_expenses) 1 = Summary.Filled f /\
    1 <= days /\ (Summary.daily_avg f == Summary.total f / inject_Z days)%Q.
Proof.
  eexists.
  destruct (summary_daily_avg [test_trip] dated_expenses 1 _ eq_refl)
    as (days & H1 & H2 & _).
  - intros d (e & He & Hd). vm_compute in He.
    destruct He as [<- | [<- | [<- | []]]]; simpl in Hd; try discriminate;
      injection Hd as <-; reflexivity.
  - exists days. split; [reflexivity|]. split; assumption.
Defined.

(** ** analysis.py: the recommendations *)

Lemma In_firstn {A : Type} (n : nat) (l : list A) (x : A) :
  In x (firstn n l) -> In x l.
Proof.
  intro H. rewrite <- (firstn_skipn n l). apply in_or_app. now left.
Qed.

Lemma category_warnings_In (total : Q) (by_category : list (string * Q))
    (r : recommendation) :
  In r (TravelAnalyzer.category_warnings total by_category) ->
  exists c p, r = CATEGORY_SHARE c p.
Proof.
  unfold TravelAnalyzer.category_warnings. rewrite in_flat_map.
  intros ([c v] & _ & H). destruct (TravelAnalyzer.Qgtb _ _); [|contradiction].
  destruct H as [<- | []]. eauto.
Qed.

Lemma daily_notes_cases (daily_avg : Q) :
  TravelAnalyzer.daily_notes daily_avg = [DAILY_HIGH daily_avg] \/
  TravelAnalyzer.daily_notes daily_avg = [DAILY_LOW daily_avg] \/
  TravelAnalyzer.daily_notes daily_avg = [].
Proof.
  unfold TravelAnalyzer.daily_notes.
  destruct (TravelAnalyzer.Qgtb _ _); [now left|].
  destruct (TravelAnalyzer.Qltb _ _); [now right; left | now right; right].
Qed.

(** The recommendations of a trip with expenses, before the cut to five:
    the notes on categories and on the daily average when the total is
    positive and there is any, the one balanced note otherwise. *)
Lemma recommendations_with_expenses
    (trips : list Trip.t) (expenses : list Expense.t) (trip_id : Z) :
  expenses_of_trip trip_id expenses <> [] ->
  exists f : Summary.fields,
    TravelAnalyzer.get_trip_expense_summary (TravelAnalyzer.new trips expenses) trip_id
    = Summary.Filled f /\
    (TravelAnalyzer.get_trip_recommendations (TravelAnalyzer.new trips expenses) trip_id
     = [BALANCED] \/
     exists notes,
       notes <> [] /\
       notes = (TravelAnalyzer.category_warnings (Summary.total f) (Summary.by_category f)
                ++ TravelAnalyzer.daily_notes (Summary.daily_avg f))%list /\
       TravelAnalyzer.get_trip_recommendations (TravelAnalyzer.new trips expenses) trip_id
       = firstn 5 notes).
Proof.
  intro Hne. unfold TravelAnalyzer.get_trip_recommendations.
  rewrite (summary_with_expenses trips expenses trip_id Hne).
  eexists. split; [reflexivity|]. cbv zeta. cbn [Summary.expense_count
    Summary.total Summary.by_category Summary.daily_avg].
  rewrite length_map.
  destruct (expenses_of_trip trip_id expenses) as [|e l] eqn:E; [now elim Hne|].
  rewrite <- E.
  replace (Z.of_nat (List.length (expenses_of_trip trip_id expenses)) =? 0) with false
    by (rewrite E; reflexivity).
  destruct (TravelAnalyzer.Qgtb _ 0); [|now left].
  match goal with |- context [TravelAnalyzer.empty ?n] => destruct n as [|r rs] eqn:En end.
  - now left.
  - right. exists (r :: rs). split; [discriminate|]. split; reflexivity.
Qed.

(** The list of recommendations is never empty.  The note that there is no
    data is given exactly when the trip has no expense among those of the
    analyzer, and then alone; the balanced note is only ever given alone;
    and the two notes on the daily average never come together. *)
Theorem recommendations_shape
    (trips : list Trip.t) (expenses : list Expense.t) (trip_id : Z) :
  let notes :=
    TravelAnalyzer.get_trip_recommendations (TravelAnalyzer.new trips expenses) trip_id in
  notes <> [] /\
  (In NO_DATA notes <-> expenses_of_trip trip_id expenses = []) /\
  (In NO_DATA notes -> notes = [NO_DATA]) /\
  (In BALANCED notes -> notes = [BALANCED]) /\
  (forall a b, ~ (In (DAILY_HIGH a) notes /\ In (DAILY_LOW b) notes)).
Proof.
  intro notes.
  destruct (expenses_of_trip trip_id expenses) as [|e0 l0] eqn:E.
  - assert (Hn : notes = [NO_DATA]).
    { subst notes. unfold TravelAnalyzer.get_trip_recommendations.
      rewrite summary_without_expenses.
      - now destruct expenses.
      - unfold TravelAnalyzer.trip_expense_count. simpl.
        fold (expenses_of_trip trip_id expenses). now rewrite E. }
    rewrite Hn. split; [discriminate|]. split; [simpl; tauto|].
    split; [reflexivity|]. split.
    + intros [H | []]. discriminate.
    + intros a b [[H | []] _]. discriminate.
  - destruct (recommendations_with_expenses trips expenses trip_id)
      as (f & _ & [Hb | (ns & Hne & Hns & Hcut)]); [rewrite E; discriminate | |].
    + fold notes in Hb. rewrite Hb. split; [discriminate|]. split.
      * split; [intros [H | []]; discriminate | discriminate].
      * split; [intros [H | []]; discriminate|]. split; [reflexivity|].
        intros a b [[H | []] _]. discriminate.
    + fold notes in Hcut.
      assert (Hin : forall r, In r notes ->
                (exists c p, r = CATEGORY_SHARE c p) \/
                In r (TravelAnalyzer.daily_notes (Summary.daily_avg f))).
      { intros r Hr. rewrite Hcut in Hr. apply In_firstn in Hr.
        rewrite Hns in Hr. apply in_app_or in Hr as [Hr | Hr]; [left | now right].
        eapply category_warnings_In, Hr. }
      assert (Hno : ~ In NO_DATA notes /\ ~ In BALANCED notes).
      { split; intro H; apply Hin in H as [(c & p & H) | H]; try discriminate;
          destruct (daily_notes_cases (Summary.daily_avg f)) as [D | [D | D]];
          rewrite D in H; simpl in H; intuition discriminate. }
      destruct Hno as [Hno Hnb].
      split.
      * rewrite Hcut. destruct ns; [congruence | discriminate].
      * split; [split; [intro H; contradiction | discriminate]|].
        split; [intro H; contradiction|]. split; [intro H; contradiction|].
        intros a b [Ha Hb].
        apply Hin in Ha as [(c & p & Ha) | Ha]; [discriminate|].
        apply Hin in Hb as [(c & p & Hb) | Hb]; [discriminate|].
        destruct (daily_notes_cases (Summary.daily_avg f)) as [D | [D | D]];
          rewrite D in Ha, Hb; simpl in Ha, Hb; intuition discriminate.
Qed.

(** ** From the amount field of the form to the list of expenses *)

Lemma validate_currency_amount_accepted (amount_str : string) :
  fst (fst (Utils.validate_currency_amount amount_str)) = true ->
  (0 < snd (fst (Utils.validate_currency_amount amount_str)))%Q.
Proof.
  rewrite validate_currency_amount_unfold.
  destruct (Re.match_to_end _ _); [|discriminate].
  destruct (Float.of_str _) as [amount|]; [|discriminate].
  destruct (Qle_bool amount 0) eqn:E; [discriminate|].
  intros _. now apply Qle_bool_false_iff.
Qed.

Lemma rows_of_trip_add_expense (db : Sql.database) (e : Expense.t) :
  rows_of_trip (Expense.trip_id e) (snd (TravelStorage.add_expense db e))
  = (rows_of_trip (Expense.trip_id e) db
     ++ [ExpensesRow.mk (fst (TravelStorage.add_expense db e)) (Expense.trip_id e)
           (Expense.amount e) (Expense.currency e) (Expense.category e) (Expense.date e)
           (Expense.description e) (Expense.payment_method e) (Expense.location e)])%list.
Proof.
  rewrite (proj1 (add_expense_returns_rowid db e)).
  rewrite add_expense_unfold. cbv zeta. unfold rows_of_trip.
  cbn [snd Sql.update_actual_spent Sql.expenses].
  rewrite filter_app. cbn [filter ExpensesRow.trip_id].
  now rewrite Z.eqb_refl.
Qed.

(** What the form of a new expense does with an amount text the validator
    accepts: the [Expense] is built without error, [add_expense] gives it
    an id above zero, and reading the expenses of the trip afterwards
    returns it, with that id and the validated amount, beside the expenses
    the trip had (those being readable). *)
Theorem accepted_amount_is_stored_and_read_back
    (db : Sql.database) (amount_str : string) (trip_id : Z) (currency : string)
    (category : ExpenseCategory.t) (date : option datetime.date)
    (description payment_method location : string) :
  fst (fst (Utils.validate_currency_amount amount_str)) = true ->
  (forall r, In r (rows_of_trip trip_id db) -> (0 < ExpensesRow.amount r)%Q) ->
  let amount := snd (fst (Utils.validate_currency_amount amount_str)) in
  exists expense : Expense.t,
    Expense.new None trip_id amount currency category date
                description payment_method location = Ok expense /\
    let expense_id := fst (TravelStorage.add_expense db expense) in
    let db' := snd (TravelStorage.add_expense db expense) in
    0 < expense_id /\
    exists l : list Expense.t,
      TravelStorage.get_expenses_by_trip db' trip_id = Ok l /\
      In (Expense.mk (Some expense_id) trip_id amount currency category date
                     description payment_method location) l /\
      List.length l = S (List.length (rows_of_trip trip_id db)).
Proof.
  intros Hacc Hpos amount.
  pose proof (validate_currency_amount_accepted amount_str Hacc) as Hamount.
  fold amount in Hamount.
  set (expense := Expense.mk None trip_id amount currency category date
                             description payment_method location).
  exists expense. split; [now apply post_init_ok|]. cbv zeta.
  split; [apply add_expense_returns_rowid|].
  pose proof (rows_of_trip_add_expense db expense) as Hrows.
  change (Expense.trip_id expense) with trip_id in Hrows.
  assert (Hin : forall r,
             In r (Sql.select_expenses_by_trip trip_id
                     (snd (TravelStorage.add_expense db expense))) <->
             In r (rows_of_trip trip_id (snd (TravelStorage.add_expense db expense))))
    by (intro r; apply order_by_In).
  exists (map expense_data
              (Sql.select_expenses_by_trip trip_id
                 (snd (TravelStorage.add_expense db expense)))).
  split; [|split].
  - unfold TravelStorage.get_expenses_by_trip. apply mapM_ok.
    intros r Hr. rewrite expense_of_row_unfold.
    apply Hin in Hr. rewrite Hrows in Hr.
    assert (Hr' : (0 < ExpensesRow.amount r)%Q).
    { apply in_app_or in Hr as [Hr | [<- | []]]; [now apply Hpos | exact Hamount]. }
    apply Qle_bool_false_iff in Hr'. now rewrite Hr'.
  - match goal with |- In ?e _ =>
      change e with
        (expense_data
           (ExpensesRow.mk (fst (TravelStorage.add_expense db expense))
              (Expense.trip_id expense) (Expense.amount expense)
              (Expense.currency expense) (Expense.category expense)
              (Expense.date expense) (Expense.description expense)
              (Expense.payment_method expense) (Expense.location expense)))
    end.
    apply in_map, Hin. rewrite Hrows. apply in_or_app. right. now left.
  - rewrite length_map. unfold Sql.select_expenses_by_trip.
    rewrite (Permutation_length (order_by_perm _ _)).
    fold (rows_of_trip trip_id (snd (TravelStorage.add_expense db expense))).
    rewrite Hrows, length_app. simpl. lia.
Qed.

Lemma accepted_amount_is_stored_and_read_back_witness :
  exists expense : Expense.t,
    Expense.new None 1 (snd (fst (Utils.validate_currency_amount " 12,50 "))) "USD"
                ExpenseCategory.FOOD None "" "" "" = Ok expense /\
    exists l : list Expense.t,
      TravelStorage.get_expenses_by_trip
        (snd (TravelStorage.add_expense db_one_expense expense)) 1 = Ok l /\
      List.length l = 2%nat.
Proof.
  destruct (accepted_amount_is_stored_and_read_back db_one_expense " 12,50 " 1 "USD"
              ExpenseCategory.FOOD None "" "" "")
    as (expense & Hnew & _ & l & Hl & _ & Hlen).
  - reflexivity.
  - intros r Hr. vm_compute in Hr. destruct Hr as [<- | []]. reflexivity.
  - exists expense. split; [exact Hnew|]. exists l. split; [exact Hl | exact Hlen].
Defined.

(** ** [validate_date_range]: the texts the parse reads *)

Lemma all_ascii_In (c : ascii) : In c all_ascii.
Proof.
  unfold all_ascii. rewrite <- (ascii_nat_embedding c).
  apply in_map, in_seq. pose proof (nat_ascii_bounded c). lia.
Qed.

Lemma class_cases (p : ascii -> bool) (c : ascii) :
  p c = true -> In c (filter p all_ascii).
Proof. intro H. apply filter_In. split; [apply all_ascii_In | exact H]. Qed.

(** The cases of a character known to be in a class. *)
Ltac class_split H :=
  apply class_cases in H; vm_compute in H;
  repeat (destruct H as [<- | H]); [.. | destruct H].

Lemma one_or_two_digits_In (t : string) :
  one_or_two_digits t = true -> In t (texts_of_one ++ texts_of_two)%list.
Proof.
  unfold one_or_two_digits. intro H. apply andb_true_iff in H as [Hd Hl].
  destruct t as [|a [|b [|c t]]]; try discriminate; simpl in Hd;
    rewrite ?andb_true_iff in Hd; apply in_or_app.
  - left. destruct Hd as [Ha _].
    apply (in_map (fun c => String c EmptyString)). now apply class_cases.
  - right. destruct Hd as (Ha & Hb & _). apply in_flat_map. exists a.
    split; [now apply class_cases|].
    apply (in_map (fun b => String a (String b EmptyString))). now apply class_cases.
Qed.

Lemma month_text_In (M : string) : month_text M = true -> In M month_texts.
Proof.
  intro H. apply filter_In. split; [|exact H].
  unfold month_text in H. rewrite !andb_true_iff in H.
  now apply one_or_two_digits_In.
Qed.

Lemma day_text_In (D : string) : day_text D = true -> In D day_texts.
Proof.
  intro H. apply filter_In. split; [|exact H].
  unfold day_text in H. apply orb_true_iff in H as [H | H].
  - rewrite !andb_true_iff in H. rewrite app_assoc. apply in_or_app. left.
    now apply one_or_two_digits_In.
  - apply in_or_app. right. apply in_or_app. right.
    destruct D as [|b [|c [|? ?]]]; try discriminate. simpl in H.
    rewrite !andb_true_iff in H. destruct H as [[Hb Hc] _].
    apply Ascii.eqb_eq in Hb. subst b.
    apply (in_map (fun c => String " " (String c EmptyString))).
    now apply class_cases.
Qed.

Lemma tails_read :
  forallb (fun M => forallb (tail_reads M) day_texts) month_texts = true.
Proof. vm_compute. reflexivity. Qed.

Lemma tail_reads_texts (M D : string) :
  month_text M = true -> day_text D = true -> tail_reads M D = true.
Proof.
  intros HM HD. pose proof tails_read as T. rewrite forallb_forall in T.
  specialize (T M (month_text_In M HM)). rewrite forallb_forall in T.
  exact (T D (day_text_In D HD)).
Qed.

(** Every text of the described form is read, as the date it names. *)
Lemma reads_as_strptime (s : string) (x : datetime.date) :
  reads_as s x -> Strptime.strptime_Ymd s = Ok x.
Proof.
  intros (Y & M & D & -> & HY & HM & HD & -> & Hv).
  pose proof (tail_reads_texts M D HM HD) as Ht. unfold tail_reads in Ht.
  unfold year_text in HY. apply andb_true_iff in HY as [Hd Hl].
  destruct Y as [|a [|b [|c [|d [|? ?]]]]]; try discriminate.
  simpl in Hd. rewrite !andb_true_iff in Hd. destruct Hd as (Ia & Ib & Ic & Id & _).
  unfold Strptime.strptime_Ymd, Strptime.format_regex.
  change (String a (String b (String c (String d EmptyString))) ++ "-" ++ M ++ "-" ++ D)
    with (String a (String b (String c (String d ("-" ++ M ++ "-" ++ D))))).
  rewrite (match_group_Y _ _ _ _ _ _ Ia Ib Ic Id).
  destruct (Strptime.match_groups _ ("-" ++ M ++ "-" ++ D)) as [|[found rest] tl];
    [discriminate|].
  destruct found as [|h1 [|m [|h2 [|dd [|? ?]]]]]; try discriminate.
  destruct rest; [|discriminate].
  apply andb_true_iff in Ht as [Em Ed].
  apply String.eqb_eq in Em, Ed. subst m dd.
  cbn [map negb String.eqb]. unfold datetime.new.
  unfold datetime.valid in Hv. cbn [datetime.year datetime.month datetime.day] in Hv.
  now rewrite Hv.
Qed.

Lemma match_alternative_sound (a : Strptime.alternative) (s m r : string) :
  Strptime.match_alternative a s = Some (m, r) ->
  s = m ++ r /\ class_match a m = true.
Proof.
  revert s m r. induction a as [|p a IH]; intros s m r; simpl.
  - intro H. injection H as <- <-. now split.
  - destruct s as [|c s]; [discriminate|].
    destruct (p c) eqn:E; [|discriminate].
    destruct (Strptime.match_alternative a s) as [[m' r']|] eqn:E2; [|discriminate].
    intro H. injection H as <- <-.
    apply IH in E2 as [-> Hc]. split; [reflexivity|].
    simpl. now rewrite E, Hc.
Qed.

Lemma match_group_sound (g : Strptime.group) (s m r : string) :
  In (m, r) (Strptime.match_group g s) ->
  exists a, In a g /\ s = m ++ r /\ class_match a m = true.
Proof.
  unfold Strptime.match_group. rewrite in_flat_map. intros (a & Ha & H).
  destruct (Strptime.match_alternative a s) as [[m' r']|] eqn:E; [|contradiction].
  destruct H as [H | []]. injection H as -> ->.
  exists a. split; [exact Ha|]. now apply match_alternative_sound.
Qed.

Lemma match_groups_cons_sound (g : Strptime.group) (gs : list Strptime.group)
    (s : string) (ms : list string) (r : string) :
  In (ms, r) (Strptime.match_groups (g :: gs) s) ->
  exists m r' ms',
    ms = m :: ms' /\ In (m, r') (Strptime.match_group g s) /\
    In (ms', r) (Strptime.match_groups gs r').
Proof.
  cbn [Strptime.match_groups]. rewrite in_flat_map. intros ([m r'] & Hm & H).
  apply in_map_iff in H as ([ms' r''] & Heq & H). injection Heq as <- <-.
  exists m, r', ms'. auto.
Qed.

Lemma group_Y_text (a : Strptime.alternative) (m : string) :
  In a Strptime.group_Y -> class_match a m = true -> year_text m = true.
Proof.
  intros [<- | []].
  destruct m as [|c1 [|c2 [|c3 [|c4 [|? ?]]]]]; simpl; try discriminate;
    rewrite ?andb_false_r; try discriminate.
  rewrite !andb_true_iff. intros (H1 & H2 & H3 & H4 & _).
  unfold year_text. simpl. now rewrite H1, H2, H3, H4.
Qed.

Lemma dash_text (a : Strptime.alternative) (m : string) :
  In a Strptime.dash -> class_match a m = true -> m = "-".
Proof.
  intros [<- | []].
  destruct m as [|c [|? ?]]; simpl; try discriminate;
    rewrite ?andb_false_r; try discriminate.
  rewrite andb_true_r. unfold Strptime.chr. intro H.
  apply Ascii.eqb_eq in H. now subst c.
Qed.

Lemma group_m_text (a : Strptime.alternative) (m : string) :
  In a Strptime.group_m -> class_match a m = true -> month_text m = true.
Proof.
  unfold Strptime.group_m. intros [<- | [<- | [<- | []]]].
  - destruct m as [|c1 [|c2 [|? ?]]]; simpl; try discriminate;
      rewrite ?andb_false_r; try discriminate.
    rewrite andb_true_r. intro H. apply andb_true_iff in H as [H1 H2].
    class_split H1; class_split H2; reflexivity.
  - destruct m as [|c1 [|c2 [|? ?]]]; simpl; try discriminate;
      rewrite ?andb_false_r; try discriminate.
    rewrite andb_true_r. intro H. apply andb_true_iff in H as [H1 H2].
    class_split H1; class_split H2; reflexivity.
  - destruct m as [|c1 [|? ?]]; simpl; try discriminate;
      rewrite ?andb_false_r; try discriminate.
    rewrite andb_true_r. intro H1. class_split H1; reflexivity.
Qed.

Lemma group_d_text (a : Strptime.alternative) (m : string) :
  In a Strptime.group_d -> class_match a m = true -> day_text m = true.
Proof.
  unfold Strptime.group_d. intros [<- | [<- | [<- | [<- | [<- | []]]]]].
  1, 2, 3, 5:
    destruct m as [|c1 [|c2 [|? ?]]]; simpl; try discriminate;
      rewrite ?andb_false_r; try discriminate;
    rewrite andb_true_r; intro H; apply andb_true_iff in H as [H1 H2];
    class_split H1; class_split H2; reflexivity.
  destruct m as [|c1 [|? ?]]; simpl; try discriminate;
    rewrite ?andb_false_r; try discriminate.
  rewrite andb_true_r. intro H1. class_split H1; reflexivity.
Qed.

(** Every text that is read has the described form, and is read as the
    date it names. *)
Lemma strptime_reads_as (s : string) (x : datetime.date) :
  Strptime.strptime_Ymd s = Ok x -> reads_as s x.
Proof.
  unfold Strptime.strptime_Ymd.
  destruct (Strptime.match_groups Strptime.format_regex s) as [|[found rest] tl] eqn:E;
    [discriminate|].
  assert (Hin : In (found, rest) (Strptime.match_groups Strptime.format_regex s))
    by (rewrite E; now left).
  destruct (String.eqb rest EmptyString) eqn:Er; [|discriminate].
  apply String.eqb_eq in Er. subst rest. cbn [negb]. unfold Strptime.format_regex in Hin.
  apply match_groups_cons_sound in Hin as (Y & r1 & f1 & -> & HY & Hin).
  apply match_groups_cons_sound in Hin as (h1 & r2 & f2 & -> & Hh1 & Hin).
  apply match_groups_cons_sound in Hin as (M & r3 & f3 & -> & HM & Hin).
  apply match_groups_cons_sound in Hin as (h2 & r4 & f4 & -> & Hh2 & Hin).
  apply match_groups_cons_sound in Hin as (D & r5 & f5 & -> & HD & Hin).
  destruct Hin as [Hin | []]. injection Hin as <- ->.
  apply match_group_sound in HY as (aY & HaY & -> & HcY).
  apply match_group_sound in Hh1 as (a1 & Ha1 & -> & Hc1).
  apply match_group_sound in HM as (aM & HaM & -> & HcM).
  apply match_group_sound in Hh2 as (a2 & Ha2 & -> & Hc2).
  apply match_group_sound in HD as (aD & HaD & -> & HcD).
  rewrite (dash_text a1 h1 Ha1 Hc1), (dash_text a2 h2 Ha2 Hc2).
  unfold datetime.new.
  destruct (datetime.check_date_fields _ _ _) eqn:Ec; [|discriminate].
  intro H. injection H as <-.
  exists Y, M, D. rewrite append_nil_r.
  split; [reflexivity|].
  split; [exact (group_Y_text aY Y HaY HcY)|].
  split; [exact (group_m_text aM M HaM HcM)|].
  split; [exact (group_d_text aD D HaD HcD)|].
  split; [reflexivity | exact Ec].
Qed.

Lemma readable_strptime (s : string) :
  readable s <-> is_ok (Strptime.strptime_Ymd s) = true.
Proof.
  split.
  - intros [x H]. now rewrite (reads_as_strptime s x H).
  - destruct (Strptime.strptime_Ymd s) as [x|] eqn:E; [|discriminate].
    intros _. exists x. now apply strptime_reads_as.
Qed.

Lemma zfill2_digits (n : Z) : Str.all Str.isdigit (zfill2 n) = true.
Proof.
  unfold zfill2. simpl.
  assert (Ha : 0 <= n / 10 mod 10 <= 9) by (Z.div_mod_to_equations; lia).
  assert (Hb : 0 <= n mod 10 <= 9) by (Z.div_mod_to_equations; lia).
  now rewrite (proj1 (digit_chr_spec _ Ha)), (proj1 (digit_chr_spec _ Hb)).
Qed.

Lemma isoformat_exact (x : datetime.date) : exact_Ymd (isoformat x) = true.
Proof.
  pose proof (zfill2_digits (datetime.year x)) as Hy.
  pose proof (zfill2_digits (datetime.month x)) as Hm.
  pose proof (zfill2_digits (datetime.day x)) as Hd.
  assert (Ha : 0 <= datetime.year x / 1000 mod 10 <= 9) by (Z.div_mod_to_equations; lia).
  assert (Hb : 0 <= datetime.year x / 100 mod 10 <= 9) by (Z.div_mod_to_equations; lia).
  apply digit_chr_spec in Ha as [Ha _]. apply digit_chr_spec in Hb as [Hb _].
  unfold exact_Ymd, isoformat, iso_tail, zfill4, zfill2 in *.
  cbn [append String.length Nat.eqb substring Str.all String.eqb Ascii.eqb Bool.eqb andb]
    in *.
  now rewrite Ha, Hb, Hy, Hm, Hd.
Qed.

(** C8 as first stated fails: a text with a day of one figure, or with a
    blank in the day, is not in the exact format YYYY-MM-DD, and it is
    parsed all the same and the range accepted. *)
Lemma validate_date_range_accepts_unpadded :
  exact_Ymd "2026-12-1" = false /\ exact_Ymd "2026-12- 5" = false /\
  Utils.validate_date_range (datetime.mkdate 2026 11 3) "2026-12-1" "2026-12- 5"
  = (true, EmptyString).
Proof. split; [|split]; reflexivity. Qed.

(** C8, as amended: for every pair of texts and every current date, the
    validation fails with the message on the format exactly when one of
    the texts is not readable as a date: a year of four digits, a dash, a
    month of one or two digits from 1 to 12, a dash, and a day of one or
    two digits from 1 to 31 or of a blank and a digit other than 0, the
    three numbers naming a day of the calendar.  Leading zeros are not
    asked for; a day of the calendar written in the exact format
    YYYY-MM-DD is among the texts read, as itself.  For two readable texts
    the validation fails when the start date is strictly after the end
    date, fails when the start date is strictly before the current date,
    and in every other case succeeds with the empty message. *)
Theorem validate_date_range_reads :
  forall (today : datetime.date) (start_date_str end_date_str : string),
    (Utils.validate_date_range today start_date_str end_date_str
     = (false, Utils.MSG_DATE_FORMAT) <->
     ~ readable start_date_str \/ ~ readable end_date_str) /\
    (forall start_date end_date : datetime.date,
       reads_as start_date_str start_date ->
       reads_as end_date_str end_date ->
       (datetime.gtb start_date end_date = true ->
        Utils.validate_date_range today start_date_str end_date_str
        = (false, Utils.MSG_DATE_ORDER)) /\
       (datetime.ltb start_date today = true ->
        fst (Utils.validate_date_range today start_date_str end_date_str) = false) /\
       (datetime.gtb start_date end_date = false ->
        datetime.ltb start_date today = true ->
        Utils.validate_date_range today start_date_str end_date_str
        = (false, Utils.MSG_DATE_PAST)) /\
       (datetime.gtb start_date end_date = false ->
        datetime.ltb start_date today = false ->
        Utils.validate_date_range today start_date_str end_date_str
        = (true, EmptyString))) /\
    (forall x : datetime.date,
       datetime.valid x -> exact_Ymd (isoformat x) = true /\ reads_as (isoformat x) x).
Proof.
  intros today s e. split; [|split].
  - split.
    + intro H.
      destruct (Strptime.strptime_Ymd s) as [sd|xs] eqn:Es.
      * destruct (Strptime.strptime_Ymd e) as [ed|xe] eqn:Ee.
        -- rewrite (validate_date_range_parsed today s e sd ed Es Ee) in H.
           destruct (datetime.gtb sd ed); [discriminate|].
           destruct (datetime.ltb sd today); discriminate.
        -- right. intro Hr. apply readable_strptime in Hr.
           rewrite Ee in Hr. discriminate.
      * left. intro Hr. apply readable_strptime in Hr.
        rewrite Es in Hr. discriminate.
    + intros [Hn | Hn].
      * destruct (Strptime.strptime_Ymd s) as [sd|xs] eqn:Es.
        -- exfalso. apply Hn. exists sd. now apply strptime_reads_as.
        -- now apply (validate_date_range_unparsed_start today s e xs).
      * destruct (Strptime.strptime_Ymd e) as [ed|xe] eqn:Ee.
        -- exfalso. apply Hn. exists ed. now apply strptime_reads_as.
        -- now apply (validate_date_range_unparsed_end today s e xe).
  - intros sd ed Hs He.
    apply reads_as_strptime in Hs, He.
    exact (proj2 (validate_date_range_by_parse today s e) sd ed Hs He).
  - intros x Hv. split; [apply isoformat_exact|].
    apply strptime_reads_as. now apply strptime_isoformat.
Qed.

Lemma validate_date_range_reads_witness :
  Utils.validate_date_range (datetime.mkdate 2024 5 20) "2024-6-1" "2024-06-10"
  = (true, EmptyString) /\
  Utils.validate_date_range (datetime.mkdate 2024 5 20) "2024-06-10" "2024-6- 1"
  = (false, Utils.MSG_DATE_ORDER) /\
  Utils.validate_date_range (datetime.mkdate 2024 7 1) "2024-6-1" "2024-06-10"
  = (false, Utils.MSG_DATE_PAST).
Proof.
  assert (H1 : reads_as "2024-6-1" (datetime.mkdate 2024 6 1))
    by (exists "2024", "6", "1"; repeat split).
  assert (H2 : reads_as "2024-06-10" (datetime.mkdate 2024 6 10))
    by (exists "2024", "06", "10"; repeat split).
  assert (H3 : reads_as "2024-6- 1" (datetime.mkdate 2024 6 1))
    by (exists "2024", "6", " 1"; repeat split).
  split; [|split].
  - apply (proj1 (proj2 (validate_date_range_reads
                           (datetime.mkdate 2024 5 20) "2024-6-1" "2024-06-10"))
                 _ _ H1 H2); reflexivity.
  - apply (proj1 (proj2 (validate_date_range_reads
                           (datetime.mkdate 2024 5 20) "2024-06-10" "2024-6- 1"))
                 _ _ H2 H3); reflexivity.
  - apply (proj1 (proj2 (validate_date_range_reads
                           (datetime.mkdate 2024 7 1) "2024-6-1" "2024-06-10"))
                 _ _ H1 H2); reflexivity.
Defined.
